(** * nova-mvp: the Bedrock stream manager and the audio playback loop

    A shallow embedding of [bedrock_manager.py] (class
    [BedrockStreamManager]) and of the playback loop of
    [audio_streamer.py] (class [AudioStreamer]), with the statements of the
    specification that concern them; then the rest of [AudioStreamer]
    (opening the devices, capturing, starting and stopping), with further
    properties of both classes.  [main.py], which reads the process
    environment and the command line and depends on signals, is not
    modelled.

    Conventions of the embedding.
    - Python [str] values are represented by their UTF-8 bytes as a Rocq
      [string]; [str.encode('utf-8')] is the identity on that
      representation (a [str] that cannot be encoded, one with a lone
      surrogate, is outside the model).  Python [bytes] audio buffers are
      [list Byte.byte].
    - The string literals of this file are written with an apostrophe
      wherever the Python source has a double quote; [PyStr.dq] puts the
      double quotes back (no template of the source contains an
      apostrophe).
    - Library calls whose result the code only branches on are answered by
      the environment: the outcome of every transport send, receive and
      close, and of every audio device call, is an input of the model.
    - [json.loads] and the [%] string operator are modelled by executable
      functions ([Json.json_loads], [PyStr.format_percent]);
      [Json.json_loads] is [json.loads] on the texts that stay within the
      limits of the interpreter on digits and nesting
      ([Json.within_limits]).  [base64.b64decode] is [Base64.b64decode],
      which skips what is not of the alphabet as the library does.
    - A subscription made through [ops.subscribe_on] is performed by the
      scheduler in the next turn of the event loop; the model takes it at
      the call (see [Bedrock.subject_subscribe]). *)

From Stdlib Require Import String Ascii List Bool Arith NArith ZArith Lia.
Import ListNotations.
Set Warnings "-register-all".
Open Scope string_scope.
Open Scope list_scope.

(* ================================================================== *)
(** * Python strings *)
(* ================================================================== *)

Module PyStr.

Definition dquote : ascii := "034"%char.
Definition backslash : ascii := "092"%char.
Definition apostrophe : ascii := "039"%char.

(** Literals are written with ['] for the double quote. *)
Fixpoint dq (s : string) : string :=
  match s with
  | EmptyString => EmptyString
  | String c r => String (if Ascii.eqb c apostrophe then dquote else c) (dq r)
  end.

(** [needle in hay] for two Python strings. *)
Fixpoint str_in (needle hay : string) : bool :=
  if String.prefix needle hay then true
  else match hay with
       | EmptyString => false
       | String _ r => str_in needle r
       end.

(** The literal pieces of a [%]-template, split at its [%s] directives.
    [%%] is a literal percent sign.  The templates of the source use no
    other directive; any other one is outside the model ([None]). *)
Fixpoint template_segments (tmpl : string) : option (list string) :=
  match tmpl with
  | EmptyString => Some [EmptyString]
  | String c r =>
      if Ascii.eqb c "%"%char then
        match r with
        | String d r' =>
            if Ascii.eqb d "s"%char then
              option_map (cons EmptyString) (template_segments r')
            else if Ascii.eqb d "%"%char then
              match template_segments r' with
              | Some (seg :: segs) => Some (String "%"%char seg :: segs)
              | _ => None
              end
            else None
        | EmptyString => None
        end
      else
        match template_segments r with
        | Some (seg :: segs) => Some (String c seg :: segs)
        | _ => None
        end
  end.

(** Fill the holes between the segments; [None] is Python's [TypeError]
    (not enough arguments, or not all arguments converted). *)
Fixpoint fill (segs : list string) (args : list string) : option string :=
  match segs, args with
  | [seg], [] => Some seg
  | seg :: segs', a :: args' =>
      match segs' with
      | [] => None
      | _ => option_map (fun r => (seg ++ a ++ r)%string) (fill segs' args')
      end
  | _, _ => None
  end.

(** [tmpl % args] where every argument is a [str]. *)
Definition format_percent (tmpl : string) (args : list string) : option string :=
  match template_segments tmpl with
  | Some segs => fill segs args
  | None => None
  end.

End PyStr.

(* ================================================================== *)
(** * JSON values and [json.loads] *)
(* ================================================================== *)

Module Json.

(** A decoded JSON document.  A number keeps its lexeme (the source never
    computes with one); an object keeps its keys in insertion order, each
    key once, as a Python [dict] does. *)
Inductive value : Type :=
| JNull
| JBool (b : bool)
| JNum (lexeme : string)
| JStr (s : string)
| JArr (items : list value)
| JObj (members : list (string * value)).

Inductive token : Type :=
| TLBrace | TRBrace | TLBrack | TRBrack | TColon | TComma
| TString (s : string)
| TNumber (lexeme : string)
| TTrue | TFalse | TNull.

Definition is_ws (c : ascii) : bool :=
  Ascii.eqb c " "%char || Ascii.eqb c "009"%char
  || Ascii.eqb c "010"%char || Ascii.eqb c "013"%char.

Definition is_digit (c : ascii) : bool :=
  let n := N_of_ascii c in (48 <=? n)%N && (n <=? 57)%N.

Definition hex_val (c : ascii) : option N :=
  let n := N_of_ascii c in
  if (48 <=? n)%N && (n <=? 57)%N then Some (n - 48)%N
  else if (65 <=? n)%N && (n <=? 70)%N then Some (n - 55)%N
  else if (97 <=? n)%N && (n <=? 102)%N then Some (n - 87)%N
  else None.

Definition chr (n : N) : string := String (ascii_of_N n) EmptyString.

(** The UTF-8 bytes of a code point (a lone surrogate gets its
    three-byte form). *)
Definition utf8_encode (cp : N) : string :=
  if (cp <? 128)%N then chr cp
  else if (cp <? 2048)%N then
    (chr (192 + cp / 64) ++ chr (128 + cp mod 64))%string
  else if (cp <? 65536)%N then
    (chr (224 + cp / 4096) ++ chr (128 + (cp / 64) mod 64)
       ++ chr (128 + cp mod 64))%string
  else
    (chr (240 + cp / 262144) ++ chr (128 + (cp / 4096) mod 64)
       ++ chr (128 + (cp / 64) mod 64) ++ chr (128 + cp mod 64))%string.

(** A character that may stand unescaped inside a JSON string literal. *)
Definition plain_char (c : ascii) : bool :=
  negb (Ascii.eqb c PyStr.dquote) && negb (Ascii.eqb c PyStr.backslash)
  && (32 <=? N_of_ascii c)%N.

Fixpoint plain (s : string) : bool :=
  match s with
  | EmptyString => true
  | String c r => plain_char c && plain r
  end.

(** States of the number automaton: an optional minus sign, then a
    single 0 or a nonzero digit and more digits, then an optional
    fraction (a dot and one digit or more), then an optional exponent
    (e or E, an optional sign, one digit or more). *)
Inductive num_state : Type :=
| NSign | NZero | NInt | NDot | NFrac | NExp | NExpSign | NExpDigits.

Definition num_accepting (st : num_state) : bool :=
  match st with
  | NZero | NInt | NFrac | NExpDigits => true
  | NSign | NDot | NExp | NExpSign => false
  end.

(** Where the scanner stands. [hi] is a high surrogate read from a
    [\uXXXX] escape that still waits for its low half. *)
Inductive mode : Type :=
| Between
| InStr (acc : string) (hi : option N)
| InEsc (acc : string) (hi : option N)
| InUni (acc : string) (hi : option N) (k : nat) (v : N)
| InNum (st : num_state) (acc : string)
| InWord (tok : token) (todo : string).

Definition snoc (acc : string) (c : ascii) : string :=
  (acc ++ String c EmptyString)%string.

Definition flush_hi (acc : string) (hi : option N) : string :=
  match hi with
  | Some h => (acc ++ utf8_encode h)%string
  | None => acc
  end.

(** A character met between two tokens. *)
Definition between_char (c : ascii) : option (mode * list token) :=
  if is_ws c then Some (Between, [])
  else if Ascii.eqb c "{"%char then Some (Between, [TLBrace])
  else if Ascii.eqb c "}"%char then Some (Between, [TRBrace])
  else if Ascii.eqb c "["%char then Some (Between, [TLBrack])
  else if Ascii.eqb c "]"%char then Some (Between, [TRBrack])
  else if Ascii.eqb c ":"%char then Some (Between, [TColon])
  else if Ascii.eqb c ","%char then Some (Between, [TComma])
  else if Ascii.eqb c PyStr.dquote then Some (InStr EmptyString None, [])
  else if Ascii.eqb c "-"%char then Some (InNum NSign (String c EmptyString), [])
  else if Ascii.eqb c "0"%char then Some (InNum NZero (String c EmptyString), [])
  else if is_digit c then Some (InNum NInt (String c EmptyString), [])
  else if Ascii.eqb c "t"%char then Some (InWord TTrue "rue", [])
  else if Ascii.eqb c "f"%char then Some (InWord TFalse "alse", [])
  else if Ascii.eqb c "n"%char then Some (InWord TNull "ull", [])
  else if Ascii.eqb c "N"%char then Some (InWord (TNumber "NaN") "aN", [])
  else if Ascii.eqb c "I"%char then Some (InWord (TNumber "Infinity") "nfinity", [])
  else None.

(** A code unit decoded from a [\uXXXX] escape, with no high surrogate
    waiting. *)
Definition fresh_unit (acc : string) (v : N) : mode :=
  if (55296 <=? v)%N && (v <=? 56319)%N then InStr acc (Some v)
  else InStr (acc ++ utf8_encode v)%string None.

Definition escape_char (acc : string) (c : ascii) : option (mode * list token) :=
  if Ascii.eqb c PyStr.dquote then Some (InStr (snoc acc PyStr.dquote) None, [])
  else if Ascii.eqb c PyStr.backslash then Some (InStr (snoc acc PyStr.backslash) None, [])
  else if Ascii.eqb c "/"%char then Some (InStr (snoc acc "/"%char) None, [])
  else if Ascii.eqb c "b"%char then Some (InStr (snoc acc "008"%char) None, [])
  else if Ascii.eqb c "f"%char then Some (InStr (snoc acc "012"%char) None, [])
  else if Ascii.eqb c "n"%char then Some (InStr (snoc acc "010"%char) None, [])
  else if Ascii.eqb c "r"%char then Some (InStr (snoc acc "013"%char) None, [])
  else if Ascii.eqb c "t"%char then Some (InStr (snoc acc "009"%char) None, [])
  else if Ascii.eqb c "u"%char then Some (InUni acc None 0 0%N, [])
  else None.

Definition string_char (acc : string) (c : ascii) : option (mode * list token) :=
  if Ascii.eqb c PyStr.dquote then Some (Between, [TString acc])
  else if Ascii.eqb c PyStr.backslash then Some (InEsc acc None, [])
  else if (N_of_ascii c <? 32)%N then None
  else Some (InStr (snoc acc c) None, []).

Definition number_char (st : num_state) (acc : string) (c : ascii)
  : option (mode * list token) :=
  let continue st' := Some (InNum st' (snoc acc c), []) in
  let leave :=
    match between_char c with
    | Some (m, toks) => Some (m, TNumber acc :: toks)
    | None => None
    end in
  match st with
  | NSign =>
      if Ascii.eqb c "0"%char then continue NZero
      else if is_digit c then continue NInt
      else if Ascii.eqb c "I"%char then Some (InWord (TNumber "-Infinity") "nfinity", [])
      else None
  | NZero =>
      if Ascii.eqb c "."%char then continue NDot
      else if Ascii.eqb c "e"%char || Ascii.eqb c "E"%char then continue NExp
      else leave
  | NInt =>
      if is_digit c then continue NInt
      else if Ascii.eqb c "."%char then continue NDot
      else if Ascii.eqb c "e"%char || Ascii.eqb c "E"%char then continue NExp
      else leave
  | NDot => if is_digit c then continue NFrac else None
  | NFrac =>
      if is_digit c then continue NFrac
      else if Ascii.eqb c "e"%char || Ascii.eqb c "E"%char then continue NExp
      else leave
  | NExp =>
      if is_digit c then continue NExpDigits
      else if Ascii.eqb c "+"%char || Ascii.eqb c "-"%char then continue NExpSign
      else None
  | NExpSign => if is_digit c then continue NExpDigits else None
  | NExpDigits => if is_digit c then continue NExpDigits else leave
  end.

(** One character of input. *)
Definition lex_char (m : mode) (c : ascii) : option (mode * list token) :=
  match m with
  | Between => between_char c
  | InStr acc None => string_char acc c
  | InStr acc (Some h) =>
      if Ascii.eqb c PyStr.backslash then Some (InEsc acc (Some h), [])
      else string_char (flush_hi acc (Some h)) c
  | InEsc acc None => escape_char acc c
  | InEsc acc (Some h) =>
      if Ascii.eqb c "u"%char then Some (InUni acc (Some h) 0 0%N, [])
      else escape_char (flush_hi acc (Some h)) c
  | InUni acc hi k v =>
      match hex_val c with
      | None => None
      | Some d =>
          let v' := (16 * v + d)%N in
          if (k <? 3)%nat then Some (InUni acc hi (S k) v', [])
          else
            match hi with
            | Some h =>
                if (56320 <=? v')%N && (v' <=? 57343)%N then
                  Some (InStr (acc ++ utf8_encode
                                 (65536 + (h - 55296) * 1024 + (v' - 56320)))%string
                          None, [])
                else Some (fresh_unit (flush_hi acc (Some h)) v', [])
            | None => Some (fresh_unit acc v', [])
            end
      end
  | InNum st acc => number_char st acc c
  | InWord tok todo =>
      match todo with
      | String e EmptyString =>
          if Ascii.eqb c e then Some (Between, [tok]) else None
      | String e todo' =>
          if Ascii.eqb c e then Some (InWord tok todo', []) else None
      | EmptyString => None
      end
  end.

(** Scan [s] from mode [m]; [out] holds the tokens found so far, last
    first. *)
Fixpoint lex_run (m : mode) (s : string) (out : list token)
  : option (mode * list token) :=
  match s with
  | EmptyString => Some (m, out)
  | String c r =>
      match lex_char m c with
      | Some (m', toks) => lex_run m' r (rev toks ++ out)
      | None => None
      end
  end.

Definition lex_finish (m : mode) (out : list token) : option (list token) :=
  match m with
  | Between => Some (rev out)
  | InNum st acc =>
      if num_accepting st then Some (rev (TNumber acc :: out)) else None
  | _ => None
  end.

Definition tokenize (s : string) : option (list token) :=
  match lex_run Between s [] with
  | Some (m, out) => lex_finish m out
  | None => None
  end.

(** [d[k] = v] on a dict. *)
Fixpoint dict_set (k : string) (v : value) (d : list (string * value))
  : list (string * value) :=
  match d with
  | [] => [(k, v)]
  | (k', v') :: d' =>
      if String.eqb k k' then (k, v) :: d' else (k', v') :: dict_set k v d'
  end.

Fixpoint dict_get (k : string) (d : list (string * value)) : option value :=
  match d with
  | [] => None
  | (k', v) :: d' => if String.eqb k k' then Some v else dict_get k d'
  end.

(** Recursive descent over the tokens; [fuel] bounds the recursion and
    [json_loads] supplies more than any token list can use. *)
Fixpoint parse_value (fuel : nat) (ts : list token) : option (value * list token) :=
  match fuel with
  | O => None
  | S fuel' =>
      match ts with
      | TString s :: r => Some (JStr s, r)
      | TNumber n :: r => Some (JNum n, r)
      | TTrue :: r => Some (JBool true, r)
      | TFalse :: r => Some (JBool false, r)
      | TNull :: r => Some (JNull, r)
      | TLBrack :: TRBrack :: r => Some (JArr [], r)
      | TLBrack :: r => parse_items fuel' r []
      | TLBrace :: TRBrace :: r => Some (JObj [], r)
      | TLBrace :: r => parse_members fuel' r []
      | _ => None
      end
  end
with parse_items (fuel : nat) (ts : list token) (acc : list value)
  : option (value * list token) :=
  match fuel with
  | O => None
  | S fuel' =>
      match parse_value fuel' ts with
      | Some (v, TComma :: r) => parse_items fuel' r (v :: acc)
      | Some (v, TRBrack :: r) => Some (JArr (rev (v :: acc)), r)
      | _ => None
      end
  end
with parse_members (fuel : nat) (ts : list token) (acc : list (string * value))
  : option (value * list token) :=
  match fuel with
  | O => None
  | S fuel' =>
      match ts with
      | TString k :: TColon :: r =>
          match parse_value fuel' r with
          | Some (v, TComma :: r') => parse_members fuel' r' (dict_set k v acc)
          | Some (v, TRBrace :: r') => Some (JObj (dict_set k v acc), r')
          | _ => None
          end
      | _ => None
      end
  end.

(** [json.loads(s)] by the grammar; [None] is [json.JSONDecodeError].
    The interpreter adds two limits of its own, which the grammar does
    not have: an integer of more than 4300 digits makes [json.loads]
    raise a [ValueError], and nesting deeper than the recursion limit a
    [RecursionError], neither of which is a [JSONDecodeError].  On a text
    within the limits ([within_limits] below) [json.loads] does what this
    function does: [within_limits] is the hypothesis under which a
    statement about this function on an inbound text is a statement about
    [json.loads]. *)
Definition json_loads (s : string) : option value :=
  match tokenize s with
  | Some ts =>
      match parse_value (2 * length ts + 2) ts with
      | Some (v, []) => Some v
      | _ => None
      end
  | None => None
  end.

(** The longest run of decimal digits of [s]; [run] is the run in
    progress and [longest] the longest one before it. *)
Fixpoint digit_run (s : string) (run longest : N) : N :=
  match s with
  | EmptyString => N.max run longest
  | String c r =>
      if is_digit c then digit_run r (run + 1)%N longest
      else digit_run r 0%N (N.max run longest)
  end.

(** How many [[] and [{] there are in [s], inside string literals or
    not: no value of [s] is nested deeper. *)
Fixpoint openings (s : string) : N :=
  match s with
  | EmptyString => 0%N
  | String c r =>
      if Ascii.eqb c "["%char || Ascii.eqb c "{"%char
      then (1 + openings r)%N else openings r
  end.

(** A text that stays clear of the limits of the interpreter: no run of
    more than 4300 digits ([sys.get_int_max_str_digits()] as the
    interpreter starts), and at most 100 opening brackets, far below
    the recursion limit. *)
Definition within_limits (s : string) : bool :=
  (digit_run s 0 0 <=? 4300)%N && (openings s <=? 100)%N.

End Json.

(* ================================================================== *)
(** * Base64 ([base64.b64encode], [base64.b64decode]) *)
(* ================================================================== *)

Module Base64.

Definition alphabet : string :=
  "ABCDEFGHIJKLMNOPQRSTUVWXYZabcdefghijklmnopqrstuvwxyz0123456789+/".

Definition sextet (n : N) : ascii :=
  match String.get (N.to_nat n) alphabet with
  | Some c => c
  | None => "="%char
  end.

(** Three bytes give four characters; a last group of one or two bytes
    is padded with [=]. *)
Fixpoint b64encode (bs : list Byte.byte) : string :=
  match bs with
  | [] => EmptyString
  | [a] =>
      let x := Byte.to_N a in
      String (sextet (x / 4)) (String (sextet ((x mod 4) * 16)) "==")
  | [a; b] =>
      let x := Byte.to_N a in
      let y := Byte.to_N b in
      String (sextet (x / 4))
        (String (sextet ((x mod 4) * 16 + y / 16))
           (String (sextet ((y mod 16) * 4)) "="))
  | a :: b :: c :: r =>
      let x := Byte.to_N a in
      let y := Byte.to_N b in
      let z := Byte.to_N c in
      String (sextet (x / 4))
        (String (sextet ((x mod 4) * 16 + y / 16))
           (String (sextet ((y mod 16) * 4 + z / 64))
              (String (sextet (z mod 64)) (b64encode r))))
  end.

(** The place of a character in the alphabet. *)
Fixpoint index_of (c : ascii) (s : string) (n : N) : option N :=
  match s with
  | EmptyString => None
  | String x r => if Ascii.eqb c x then Some n else index_of c r (n + 1)%N
  end.

Definition sextet_value (c : ascii) : option N := index_of c alphabet 0%N.

Definition byte_of (n : N) : Byte.byte :=
  match Byte.of_N n with
  | Some b => b
  | None => Byte.x00
  end.

(** [binascii.a2b_base64] without [strict_mode], which
    [base64.b64decode] calls: a character outside the alphabet is
    skipped; a [=] is skipped too, unless two characters or more of the
    group of four have been read, and then the [=] that completes the
    group ends the decoding, whatever follows; a character of the
    alphabet resets the count of [=].  A group left incomplete at the
    end of the text is a [binascii.Error] (incorrect padding).  [None]
    is the error. *)
Fixpoint a2b_base64 (s : string) (quad_pos : nat) (leftchar : N) (pads : nat)
    (bin_data : list Byte.byte) : option (list Byte.byte) :=
  match s with
  | EmptyString => if (quad_pos =? 0)%nat then Some (rev bin_data) else None
  | String this_ch r =>
      if Ascii.eqb this_ch "="%char then
        if (2 <=? quad_pos)%nat then
          if (4 <=? quad_pos + S pads)%nat then Some (rev bin_data)
          else a2b_base64 r quad_pos leftchar (S pads) bin_data
        else a2b_base64 r quad_pos leftchar pads bin_data
      else
        match sextet_value this_ch with
        | None => a2b_base64 r quad_pos leftchar pads bin_data
        | Some v =>
            match quad_pos with
            | 0 => a2b_base64 r 1 v 0 bin_data
            | 1 =>
                a2b_base64 r 2 (v mod 16) 0
                  (byte_of (leftchar * 4 + v / 16) :: bin_data)
            | 2 =>
                a2b_base64 r 3 (v mod 4) 0
                  (byte_of (leftchar * 16 + v / 4) :: bin_data)
            | _ =>
                a2b_base64 r 0 0 0 (byte_of (leftchar * 64 + v) :: bin_data)
            end
        end
  end.

Fixpoint all_ascii (s : string) : bool :=
  match s with
  | EmptyString => true
  | String c r => (N_of_ascii c <? 128)%N && all_ascii r
  end.

(** [base64.b64decode(s)] for a [str]: [s.encode('ascii')], whose
    failure is a [ValueError], then [binascii.a2b_base64]. *)
Definition b64decode (s : string) : option (list Byte.byte) :=
  if all_ascii s then a2b_base64 s 0 0%N 0 [] else None.

(** A decoder of canonical base64 text only (groups of four characters
    of the alphabet, the last one padded with [=]): it rejects any other
    text, also text that [b64decode] accepts. *)
Fixpoint b64decode_strict (s : string) : option (list Byte.byte) :=
  match s with
  | EmptyString => Some []
  | String a (String b (String c (String d r))) =>
      match sextet_value a, sextet_value b with
      | Some x, Some y =>
          let b1 := byte_of (x * 4 + y / 16) in
          match sextet_value c, sextet_value d, r with
          | Some z, Some w, _ =>
              option_map
                (fun rest =>
                   b1 :: byte_of ((y mod 16) * 16 + z / 4)
                      :: byte_of ((z mod 4) * 64 + w) :: rest)
                (b64decode_strict r)
          | Some z, None, EmptyString =>
              if Ascii.eqb d "="%char && (z mod 4 =? 0)%N
              then Some [b1; byte_of ((y mod 16) * 16 + z / 4)]
              else None
          | None, None, EmptyString =>
              if Ascii.eqb c "="%char && Ascii.eqb d "="%char
                 && (y mod 16 =? 0)%N
              then Some [b1]
              else None
          | _, _, _ => None
          end
      | _, _ => None
      end
  | _ => None
  end.

End Base64.

(* ================================================================== *)
(** * [bedrock_manager.py]: class [BedrockStreamManager] *)
(* ================================================================== *)

Module Bedrock.
Import PyStr Json.

Definition bytes : Type := list Byte.byte.

(** ** Event templates *)
Definition START_SESSION_EVENT : string := Eval vm_compute in dq
"{
        'event': {
            'sessionStart': {
            'inferenceConfiguration': {
                'maxTokens': 1024,
                'topP': 0.9,
                'temperature': 0.7
                }
            }
        }
    }".
Definition START_PROMPT_EVENT : string := Eval vm_compute in dq
"{
        'event': {
            'promptStart': {
            'promptName': '%s',
            'textOutputConfiguration': {
                'mediaType': 'text/plain'
                },
            'audioOutputConfiguration': {
                'mediaType': 'audio/lpcm',
                'sampleRateHertz': 24000,
                'sampleSizeBits': 16,
                'channelCount': 1,
                'voiceId': '%s',
                'encoding': 'base64',
                'audioType': 'SPEECH'
                },
            'toolUseOutputConfiguration': {
                'mediaType': 'application/json'
                },
            'toolConfiguration': {
                'tools': []
                }
            }
        }
    }".
Definition CONTENT_START_EVENT : string := Eval vm_compute in dq
"{
        'event': {
            'contentStart': {
            'promptName': '%s',
            'contentName': '%s',
            'type': 'AUDIO',
            'interactive': true,
            'role': 'USER',
            'audioInputConfiguration': {
                'mediaType': 'audio/lpcm',
                'sampleRateHertz': 16000,
                'sampleSizeBits': 16,
                'channelCount': 1,
                'audioType': 'SPEECH',
                'encoding': 'base64'
                }
            }
        }
    }".
Definition AUDIO_EVENT_TEMPLATE : string := Eval vm_compute in dq
"{
        'event': {
            'audioInput': {
            'promptName': '%s',
            'contentName': '%s',
            'content': '%s'
            }
        }
    }".
Definition TEXT_CONTENT_START_EVENT : string := Eval vm_compute in dq
"{
        'event': {
            'contentStart': {
            'promptName': '%s',
            'contentName': '%s',
            'role': '%s',
            'type': 'TEXT',
            'interactive': true,
                'textInputConfiguration': {
                    'mediaType': 'text/plain'
                }
            }
        }
    }".
Definition TEXT_INPUT_EVENT : string := Eval vm_compute in dq
"{
        'event': {
            'textInput': {
            'promptName': '%s',
            'contentName': '%s',
            'content': '%s'
            }
        }
    }".
Definition CONTENT_END_EVENT : string := Eval vm_compute in dq
"{
        'event': {
            'contentEnd': {
            'promptName': '%s',
            'contentName': '%s'
            }
        }
    }".
Definition PROMPT_END_EVENT : string := Eval vm_compute in dq
"{
        'event': {
            'promptEnd': {
            'promptName': '%s'
            }
        }
    }".
Definition SESSION_END_EVENT : string := Eval vm_compute in dq
"{
        'event': {
            'sessionEnd': {}
        }
    }".

(** The marker tested for in [textOutput] content. *)
Definition INTERRUPTED_MARKER : string :=
  Eval vm_compute in dq "{ 'interrupted' : true }".

(** ** Exceptions, effects and the state of a manager *)

(** The exceptions of the model, all of them subclasses of [Exception]
    ([except Exception] catches each).  The cancellation of a task
    ([CancelledError]) is not one of them and is not raised in the
    model. *)
Inductive exn : Type :=
| TransportError (msg : string)  (* raised by the SDK stream: connect, send, receive, close *)
| StopAsyncIteration
| JSONDecodeError
| UnicodeDecodeError
| Base64Error                    (* binascii.Error *)
| KeyError (key : string)
| TypeError
| ValueError
| AttributeError.

Inductive result (A : Type) : Type :=
| Ret (a : A)
| Raise (e : exn).
Arguments Ret {A} a.
Arguments Raise {A} e.

(** A line written by [print], [traceback.print_exc] or [debug_print]
    ([utils.debug_print] is not part of the sources at hand: the console
    records its calls, whether or not the line is shown). *)
Inductive line : Type :=
| Print (text : string)
| PrintVal (text : string) (v : value)
| PrintExc (text : string) (e : exn)
| Traceback (e : exn)
| Debug (text : string)
| DebugVal (text : string) (v : value)
| DebugLen (text : string) (n : nat)
| DebugExc (text : string) (e : exn).

(** What [input_stream] saw: every call of [send], in order, with its
    outcome, and the call of [close]. *)
Inductive wire_record : Type :=
| Delivered (event_json : string)
| Refused (event_json : string) (e : exn)
| InputClosed
| CloseFailed (e : exn).

Inductive subject_id : Type := InputSubject | OutputSubject | AudioSubject.

Inductive notification : Type :=
| OnNext (v : value)
| OnError (e : exn)
| OnCompleted.

(** An [rx.subject.Subject]: stopped by its first [on_error] or
    [on_completed]; [observed] says whether an observer is subscribed. *)
Record Subject : Type := {
  is_stopped : bool;
  exception : option exn;
  observed : bool }.

Definition new_subject : Subject :=
  {| is_stopped := false; exception := None; observed := false |}.

Inductive task_state : Type := TaskRunning | TaskDone | TaskCancelled.

(** What the SDK answers: [None] is a normal return, [Some e] raises [e].
    Sends past the end of [send_replies] succeed. *)
Record Env : Type := {
  connect_reply : option exn;
  send_replies : list (option exn);
  close_reply : option exn }.

(** The attributes set once by [__init__], and the [DEBUG] flag that the
    module imports from [utils]. *)
Record Config : Type := {
  model_id : string;
  region : string;
  system_prompt : string;
  voice_id : string;
  prompt_name : string;
  content_name : string;
  audio_content_name : string;
  DEBUG : bool }.

(** The manager object, with the environment it talks to and the logs of
    what it did to it.  [role] is a JSON value, [JNull] for [None]. *)
Record Manager : Type := {
  cfg : Config;
  bedrock_client : bool;
  stream_response : option unit;
  is_active : bool;
  barge_in : bool;
  response_task : option task_state;
  audio_output_queue : list bytes;
  display_assistant_text : bool;
  role : value;
  input_subject : Subject;
  output_subject : Subject;
  audio_subject : Subject;
  env : Env;
  wire : list wire_record;
  console : list line;
  notifications : list (subject_id * notification) }.

Definition set_bedrock_client (x : bool) (s : Manager) : Manager :=
  {| cfg := cfg s;
     bedrock_client := x;
     stream_response := stream_response s;
     is_active := is_active s;
     barge_in := barge_in s;
     response_task := response_task s;
     audio_output_queue := audio_output_queue s;
     display_assistant_text := display_assistant_text s;
     role := role s;
     input_subject := input_subject s;
     output_subject := output_subject s;
     audio_subject := audio_subject s;
     env := env s;
     wire := wire s;
     console := console s;
     notifications := notifications s |}.

Definition set_stream_response (x : option unit) (s : Manager) : Manager :=
  {| cfg := cfg s;
     bedrock_client := bedrock_client s;
     stream_response := x;
     is_active := is_active s;
     barge_in := barge_in s;
     response_task := response_task s;
     audio_output_queue := audio_output_queue s;
     display_assistant_text := display_assistant_text s;
     role := role s;
     input_subject := input_subject s;
     output_subject := output_subject s;
     audio_subject := audio_subject s;
     env := env s;
     wire := wire s;
     console := console s;
     notifications := notifications s |}.

Definition set_is_active (x : bool) (s : Manager) : Manager :=
  {| cfg := cfg s;
     bedrock_client := bedrock_client s;
     stream_response := stream_response s;
     is_active := x;
     barge_in := barge_in s;
     response_task := response_task s;
     audio_output_queue := audio_output_queue s;
     display_assistant_text := display_assistant_text s;
     role := role s;
     input_subject := input_subject s;
     output_subject := output_subject s;
     audio_subject := audio_subject s;
     env := env s;
     wire := wire s;
     console := console s;
     notifications := notifications s |}.

Definition set_barge_in (x : bool) (s : Manager) : Manager :=
  {| cfg := cfg s;
     bedrock_client := bedrock_client s;
     stream_response := stream_response s;
     is_active := is_active s;
     barge_in := x;
     response_task := response_task s;
     audio_output_queue := audio_output_queue s;
     display_assistant_text := display_assistant_text s;
     role := role s;
     input_subject := input_subject s;
     output_subject := output_subject s;
     audio_subject := audio_subject s;
     env := env s;
     wire := wire s;
     console := console s;
     notifications := notifications s |}.

Definition set_response_task (x : option task_state) (s : Manager) : Manager :=
  {| cfg := cfg s;
     bedrock_client := bedrock_client s;
     stream_response := stream_response s;
     is_active := is_active s;
     barge_in := barge_in s;
     response_task := x;
     audio_output_queue := audio_output_queue s;
     display_assistant_text := display_assistant_text s;
     role := role s;
     input_subject := input_subject s;
     output_subject := output_subject s;
     audio_subject := audio_subject s;
     env := env s;
     wire := wire s;
     console := console s;
     notifications := notifications s |}.

Definition set_audio_output_queue (x : list bytes) (s : Manager) : Manager :=
  {| cfg := cfg s;
     bedrock_client := bedrock_client s;
     stream_response := stream_response s;
     is_active := is_active s;
     barge_in := barge_in s;
     response_task := response_task s;
     audio_output_queue := x;
     display_assistant_text := display_assistant_text s;
     role := role s;
     input_subject := input_subject s;
     output_subject := output_subject s;
     audio_subject := audio_subject s;
     env := env s;
     wire := wire s;
     console := console s;
     notifications := notifications s |}.

Definition set_display_assistant_text (x : bool) (s : Manager) : Manager :=
  {| cfg := cfg s;
     bedrock_client := bedrock_client s;
     stream_response := stream_response s;
     is_active := is_active s;
     barge_in := barge_in s;
     response_task := response_task s;
     audio_output_queue := audio_output_queue s;
     display_assistant_text := x;
     role := role s;
     input_subject := input_subject s;
     output_subject := output_subject s;
     audio_subject := audio_subject s;
     env := env s;
     wire := wire s;
     console := console s;
     notifications := notifications s |}.

Definition set_role (x : value) (s : Manager) : Manager :=
  {| cfg := cfg s;
     bedrock_client := bedrock_client s;
     stream_response := stream_response s;
     is_active := is_active s;
     barge_in := barge_in s;
     response_task := response_task s;
     audio_output_queue := audio_output_queue s;
     display_assistant_text := display_assistant_text s;
     role := x;
     input_subject := input_subject s;
     output_subject := output_subject s;
     audio_subject := audio_subject s;
     env := env s;
     wire := wire s;
     console := console s;
     notifications := notifications s |}.

Definition set_input_subject (x : Subject) (s : Manager) : Manager :=
  {| cfg := cfg s;
     bedrock_client := bedrock_client s;
     stream_response := stream_response s;
     is_active := is_active s;
     barge_in := barge_in s;
     response_task := response_task s;
     audio_output_queue := audio_output_queue s;
     display_assistant_text := display_assistant_text s;
     role := role s;
     input_subject := x;
     output_subject := output_subject s;
     audio_subject := audio_subject s;
     env := env s;
     wire := wire s;
     console := console s;
     notifications := notifications s |}.

Definition set_output_subject (x : Subject) (s : Manager) : Manager :=
  {| cfg := cfg s;
     bedrock_client := bedrock_client s;
     stream_response := stream_response s;
     is_active := is_active s;
     barge_in := barge_in s;
     response_task := response_task s;
     audio_output_queue := audio_output_queue s;
     display_assistant_text := display_assistant_text s;
     role := role s;
     input_subject := input_subject s;
     output_subject := x;
     audio_subject := audio_subject s;
     env := env s;
     wire := wire s;
     console := console s;
     notifications := notifications s |}.

Definition set_audio_subject (x : Subject) (s : Manager) : Manager :=
  {| cfg := cfg s;
     bedrock_client := bedrock_client s;
     stream_response := stream_response s;
     is_active := is_active s;
     barge_in := barge_in s;
     response_task := response_task s;
     audio_output_queue := audio_output_queue s;
     display_assistant_text := display_assistant_text s;
     role := role s;
     input_subject := input_subject s;
     output_subject := output_subject s;
     audio_subject := x;
     env := env s;
     wire := wire s;
     console := console s;
     notifications := notifications s |}.

Definition set_env (x : Env) (s : Manager) : Manager :=
  {| cfg := cfg s;
     bedrock_client := bedrock_client s;
     stream_response := stream_response s;
     is_active := is_active s;
     barge_in := barge_in s;
     response_task := response_task s;
     audio_output_queue := audio_output_queue s;
     display_assistant_text := display_assistant_text s;
     role := role s;
     input_subject := input_subject s;
     output_subject := output_subject s;
     audio_subject := audio_subject s;
     env := x;
     wire := wire s;
     console := console s;
     notifications := notifications s |}.

Definition set_wire (x : list wire_record) (s : Manager) : Manager :=
  {| cfg := cfg s;
     bedrock_client := bedrock_client s;
     stream_response := stream_response s;
     is_active := is_active s;
     barge_in := barge_in s;
     response_task := response_task s;
     audio_output_queue := audio_output_queue s;
     display_assistant_text := display_assistant_text s;
     role := role s;
     input_subject := input_subject s;
     output_subject := output_subject s;
     audio_subject := audio_subject s;
     env := env s;
     wire := x;
     console := console s;
     notifications := notifications s |}.

Definition set_console (x : list line) (s : Manager) : Manager :=
  {| cfg := cfg s;
     bedrock_client := bedrock_client s;
     stream_response := stream_response s;
     is_active := is_active s;
     barge_in := barge_in s;
     response_task := response_task s;
     audio_output_queue := audio_output_queue s;
     display_assistant_text := display_assistant_text s;
     role := role s;
     input_subject := input_subject s;
     output_subject := output_subject s;
     audio_subject := audio_subject s;
     env := env s;
     wire := wire s;
     console := x;
     notifications := notifications s |}.

Definition set_notifications (x : list (subject_id * notification)) (s : Manager) : Manager :=
  {| cfg := cfg s;
     bedrock_client := bedrock_client s;
     stream_response := stream_response s;
     is_active := is_active s;
     barge_in := barge_in s;
     response_task := response_task s;
     audio_output_queue := audio_output_queue s;
     display_assistant_text := display_assistant_text s;
     role := role s;
     input_subject := input_subject s;
     output_subject := output_subject s;
     audio_subject := audio_subject s;
     env := env s;
     wire := wire s;
     console := console s;
     notifications := x |}.

(** ** The monad of the methods: state and exceptions *)

Definition M (A : Type) : Type := Manager -> result A * Manager.

Definition ret {A : Type} (a : A) : M A := fun s => (Ret a, s).

Definition raise {A : Type} (e : exn) : M A := fun s => (Raise e, s).

Definition bind {A B : Type} (m : M A) (k : A -> M B) : M B :=
  fun s =>
    match m s with
    | (Ret a, s') => k a s'
    | (Raise e, s') => (Raise e, s')
    end.

(** [try: m  except Exception as e: h e] *)
Definition try_except {A : Type} (m : M A) (h : exn -> M A) : M A :=
  fun s =>
    match m s with
    | (Ret a, s') => (Ret a, s')
    | (Raise e, s') => h e s'
    end.

Definition get : M Manager := fun s => (Ret s, s).

Definition modify (f : Manager -> Manager) : M unit := fun s => (Ret tt, f s).

Notation "x <- m ;; k" := (bind m (fun x => k))
  (at level 61, m at next level, right associativity).
Notation "m ;; k" := (bind m (fun _ => k))
  (at level 61, right associativity).

Definition when (b : bool) (m : M unit) : M unit := if b then m else ret tt.

Fixpoint for_each {A : Type} (l : list A) (body : A -> M unit) : M unit :=
  match l with
  | [] => ret tt
  | x :: l' => body x ;; for_each l' body
  end.

Definition lift_result {A : Type} (r : result A) : M A := fun s => (r, s).

Definition state_of {A : Type} (p : result A * Manager) : Manager := snd p.
Definition result_of {A : Type} (p : result A * Manager) : result A := fst p.

(** ** Console, subjects and the transport *)

Definition log (l : line) : M unit :=
  modify (fun s => set_console (console s ++ [l]) s).

Definition debug_print (text : string) : M unit := log (Debug text).

Definition get_subject (id : subject_id) (s : Manager) : Subject :=
  match id with
  | InputSubject => input_subject s
  | OutputSubject => output_subject s
  | AudioSubject => audio_subject s
  end.

Definition set_subject (id : subject_id) (x : Subject) (s : Manager) : Manager :=
  match id with
  | InputSubject => set_input_subject x s
  | OutputSubject => set_output_subject x s
  | AudioSubject => set_audio_subject x s
  end.

Definition notify (id : subject_id) (n : notification) : M unit :=
  modify (fun s => set_notifications (notifications s ++ [(id, n)]) s).

(** The [on_error] handlers given to [subscribe] in [initialize_stream];
    nothing in the source subscribes to [output_subject]. *)
Definition observer_on_error (id : subject_id) (e : exn) : M unit :=
  match id with
  | InputSubject => log (DebugExc "Input stream error: " e)
  | AudioSubject => log (DebugExc "Audio stream error: " e)
  | OutputSubject => ret tt
  end.

(** [subject.on_error(e)]: ignored once stopped; otherwise the subject
    stops, keeps [e], tells its observers and forgets them. *)
Definition subject_on_error (id : subject_id) (e : exn) : M unit :=
  s <- get ;;
  let sub := get_subject id s in
  if is_stopped sub then ret tt
  else
    modify (set_subject id
              {| is_stopped := true; exception := Some e; observed := false |}) ;;
    notify id (OnError e) ;;
    when (observed sub) (observer_on_error id e).

(** [subject.on_completed()]; no observer of the source has an
    [on_completed] handler. *)
Definition subject_on_completed (id : subject_id) : M unit :=
  s <- get ;;
  let sub := get_subject id s in
  if is_stopped sub then ret tt
  else
    modify (set_subject id
              {| is_stopped := true; exception := exception sub;
                 observed := false |}) ;;
    notify id OnCompleted.

(** [output_subject.on_next(v)] *)
Definition output_on_next (v : value) : M unit :=
  s <- get ;;
  if is_stopped (output_subject s) then ret tt
  else notify OutputSubject (OnNext v).

(** [subject.pipe(ops.subscribe_on(scheduler)).subscribe(on_next, on_error)].
    The scheduler performs the subscription in the next turn of the event
    loop, before anything that is handed to the loop later (a captured
    chunk, for one); the model takes it at the call.  The two agree from
    that turn on; what a caller does with the subject between the call
    and that turn, without letting the loop run, is not modelled, and no
    statement of this file is about it.
    A subject stopped by an error hands that error to the new observer. *)
Definition subject_subscribe (id : subject_id) : M unit :=
  s <- get ;;
  let sub := get_subject id s in
  if is_stopped sub then
    match exception sub with
    | Some e => observer_on_error id e
    | None => ret tt
    end
  else
    modify (set_subject id
              {| is_stopped := false; exception := exception sub;
                 observed := true |}).

(** [await self.stream_response.input_stream.send(event)] *)
Definition input_stream_send (event_json : string) : M unit :=
  s <- get ;;
  match send_replies (env s) with
  | Some e :: rest =>
      modify (fun s =>
                set_wire (wire s ++ [Refused event_json e])
                  (set_env {| connect_reply := connect_reply (env s);
                              send_replies := rest;
                              close_reply := close_reply (env s) |} s)) ;;
      raise e
  | None :: rest =>
      modify (fun s =>
                set_wire (wire s ++ [Delivered event_json])
                  (set_env {| connect_reply := connect_reply (env s);
                              send_replies := rest;
                              close_reply := close_reply (env s) |} s))
  | [] =>
      modify (fun s => set_wire (wire s ++ [Delivered event_json]) s)
  end.

(** [await self.stream_response.input_stream.close()] *)
Definition input_stream_close : M unit :=
  s <- get ;;
  match close_reply (env s) with
  | Some e => modify (fun s => set_wire (wire s ++ [CloseFailed e]) s) ;; raise e
  | None => modify (fun s => set_wire (wire s ++ [InputClosed]) s)
  end.

(** [len(s)] of a [str]: its code points, that is the bytes that are not
    UTF-8 continuation bytes. *)
Fixpoint py_len (s : string) : nat :=
  match s with
  | EmptyString => 0
  | String c r =>
      let n := N_of_ascii c in
      if (128 <=? n)%N && (n <? 192)%N then py_len r else S (py_len r)
  end.

(** [json.loads(event_json).get("event", {}).keys()], as a list *)
Definition event_type_keys (event_json : string) : result value :=
  match json_loads event_json with
  | None => Raise JSONDecodeError
  | Some (JObj d) =>
      match dict_get "event" d with
      | None => Ret (JArr [])
      | Some (JObj d') => Ret (JArr (map (fun kv => JStr (fst kv)) d'))
      | Some _ => Raise AttributeError
      end
  | Some _ => Raise AttributeError
  end.

(** [tmpl % args]; a wrong number of arguments is a [TypeError]. *)
Definition percent (tmpl : string) (args : list string) : M string :=
  match format_percent tmpl args with
  | Some s => ret s
  | None => raise TypeError
  end.

(** ** The methods *)

(** Building the configuration and the client is taken to succeed. *)
Definition _initialize_client : M unit :=
  debug_print "Initializing Bedrock client" ;;
  modify (set_bedrock_client true).

Definition send_raw_event (event_json : string) : M unit :=
  s <- get ;;
  if match stream_response s with None => true | Some _ => false end
     || negb (is_active s)
  then debug_print "Stream not initialized or closed"
  else
    try_except
      (input_stream_send event_json ;;
       when (DEBUG (cfg s))
         (if (200 <? py_len event_json)%nat then
            event_type <- lift_result (event_type_keys event_json) ;;
            log (DebugVal "Sent event type: " event_type)
          else log (DebugVal "Sent event: " (JStr event_json))))
      (fun e =>
         log (DebugExc "Error sending event: " e) ;;
         when (DEBUG (cfg s)) (log (Traceback e)) ;;
         subject_on_error InputSubject e).

Definition send_audio_content_start_event : M unit :=
  s <- get ;;
  content_start_event <-
    percent CONTENT_START_EVENT [prompt_name (cfg s); audio_content_name (cfg s)] ;;
  send_raw_event content_start_event.

Definition _handle_audio_input (audio_bytes : bytes) : M unit :=
  match audio_bytes with
  | [] => debug_print "No audio bytes received"
  | _ =>
      try_except
        (s <- get ;;
         log (DebugLen "Processing audio chunk of size (bytes): " (length audio_bytes)) ;;
         let blob := Base64.b64encode audio_bytes in
         audio_event <-
           percent AUDIO_EVENT_TEMPLATE
             [prompt_name (cfg s); audio_content_name (cfg s); blob] ;;
         send_raw_event audio_event)
        (fun e =>
           s <- get ;;
           log (DebugExc "Error processing audio: " e) ;;
           when (DEBUG (cfg s)) (log (Traceback e)))
  end.

(** [add_audio_chunk]: [audio_subject.on_next], whose observer starts
    [_handle_audio_input] as a task; the task is run at the call. *)
Definition add_audio_chunk (audio_bytes : bytes) : M unit :=
  s <- get ;;
  if is_stopped (audio_subject s) then ret tt
  else when (observed (audio_subject s)) (_handle_audio_input audio_bytes).

Definition send_audio_content_end_event : M unit :=
  s <- get ;;
  if negb (is_active s) then debug_print "Stream is not active"
  else
    content_end_event <-
      percent CONTENT_END_EVENT [prompt_name (cfg s); audio_content_name (cfg s)] ;;
    send_raw_event content_end_event ;;
    debug_print "Audio ended".

Definition send_prompt_end_event : M unit :=
  s <- get ;;
  if negb (is_active s) then debug_print "Stream is not active"
  else
    prompt_end_event <- percent PROMPT_END_EVENT [prompt_name (cfg s)] ;;
    send_raw_event prompt_end_event ;;
    debug_print "Prompt ended".

Definition send_session_end_event : M unit :=
  s <- get ;;
  if negb (is_active s) then debug_print "Stream is not active"
  else
    send_raw_event SESSION_END_EVENT ;;
    modify (set_is_active false) ;;
    debug_print "Session ended".

(** Lines 200-206 of [initialize_stream]: the five initialization events. *)
Definition init_events (c : Config) : M (list string) :=
  prompt_event <- percent START_PROMPT_EVENT [prompt_name c; voice_id c] ;;
  text_content_start <-
    percent TEXT_CONTENT_START_EVENT [prompt_name c; content_name c; "SYSTEM"] ;;
  text_content <-
    percent TEXT_INPUT_EVENT [prompt_name c; content_name c; system_prompt c] ;;
  text_content_end <- percent CONTENT_END_EVENT [prompt_name c; content_name c] ;;
  ret [START_SESSION_EVENT; prompt_event; text_content_start; text_content;
       text_content_end].

(** [await self.bedrock_client.invoke_model_with_bidirectional_stream(...)] *)
Definition invoke_model_with_bidirectional_stream : M unit :=
  s <- get ;;
  match connect_reply (env s) with
  | Some e => raise e
  | None => ret tt
  end.

Definition initialize_stream : M unit :=
  s <- get ;;
  when (negb (bedrock_client s)) _initialize_client ;;
  try_except
    (stream <- invoke_model_with_bidirectional_stream ;;
     modify (set_stream_response (Some stream)) ;;
     modify (set_is_active true) ;;
     events <- init_events (cfg s) ;;
     for_each events send_raw_event ;;
     (* asyncio.create_task(self._process_responses()) *)
     modify (set_response_task (Some TaskRunning)) ;;
     subject_subscribe InputSubject ;;
     subject_subscribe AudioSubject ;;
     debug_print "Stream initialized successfully")
    (fun e =>
       modify (set_is_active false) ;;
       log (PrintExc "Failed to initialize stream: " e) ;;
       log (Traceback e) ;;
       raise e).

(** [response_task.cancel()] ends the task: it is cancelled at its next
    suspension, where [is_active] is already false and the [finally]
    clause of the loop does nothing. *)
Definition close : M unit :=
  s <- get ;;
  if negb (is_active s) then ret tt
  else
    subject_on_completed InputSubject ;;
    subject_on_completed AudioSubject ;;
    modify (set_is_active false) ;;
    s1 <- get ;;
    match response_task s1 with
    | Some TaskRunning => modify (set_response_task (Some TaskCancelled))
    | _ => ret tt
    end ;;
    send_audio_content_end_event ;;
    send_prompt_end_event ;;
    send_session_end_event ;;
    s2 <- get ;;
    match stream_response s2 with
    | Some _ => input_stream_close
    | None => ret tt
    end.

(** ** The response loop *)

(** [v == text] for a JSON value [v] *)
Definition is_str (text : string) (v : value) : bool :=
  match v with
  | JStr s => String.eqb s text
  | _ => false
  end.

(** [k in v]: key of a dict, element of a list, substring of a str;
    a [TypeError] on anything else. *)
Definition py_in (k : string) (v : value) : result bool :=
  match v with
  | JObj d => Ret (match dict_get k d with Some _ => true | None => false end)
  | JArr items => Ret (existsb (is_str k) items)
  | JStr s => Ret (str_in k s)
  | _ => Raise TypeError
  end.

(** [v[k]] for a str key [k] *)
Definition py_getitem (v : value) (k : string) : result value :=
  match v with
  | JObj d =>
      match dict_get k d with
      | Some x => Ret x
      | None => Raise (KeyError k)
      end
  | _ => Raise TypeError
  end.

(** What one [await output[1].receive()] gives. *)
Inductive recv : Type :=
| RecvText (response_data : string)  (* bytes that decode as UTF-8 *)
| RecvUndecodable                    (* bytes that do not *)
| RecvEmpty                          (* no value, or no bytes *)
| RecvRaises (e : exn).              (* StopAsyncIteration at the end of the stream *)

Inductive loop_ctl : Type := Continue | Break.

Inductive task_outcome : Type := Exited | Awaiting.

Section Dispatcher.

(** [base64.b64decode] on a [str]; [None] is [binascii.Error]. *)
Variable b64decode : string -> option bytes.

(** Lines 344-358, for [content_start = json_data['event']['contentStart']] *)
Definition on_content_start (content_start : value) : M unit :=
  debug_print "Content start detected" ;;
  r <- lift_result (py_getitem content_start "role") ;;
  modify (set_role r) ;;
  has_fields <- lift_result (py_in "additionalModelFields" content_start) ;;
  when has_fields
    (fields <- lift_result (py_getitem content_start "additionalModelFields") ;;
     match fields with
     | JStr text =>
         match json_loads text with
         | None => debug_print "Error parsing additionalModelFields"
         | Some (JObj additional_fields) =>
             if match dict_get "generationStage" additional_fields with
                | Some stage => is_str "SPECULATIVE" stage
                | None => false
                end
             then
               debug_print "Speculative content detected" ;;
               modify (set_display_assistant_text true)
             else modify (set_display_assistant_text false)
         | Some _ => raise AttributeError
         end
     | _ => raise TypeError
     end).

(** Lines 362-372 *)
Definition on_text_output (event : value) : M unit :=
  text_output <- lift_result (py_getitem event "textOutput") ;;
  text_content <- lift_result (py_getitem text_output "content") ;;
  interrupted <- lift_result (py_in INTERRUPTED_MARKER text_content) ;;
  s <- get ;;
  when interrupted
    (when (DEBUG (cfg s))
       (log (Print "Barge-in detected. Stopping audio output.")) ;;
     modify (set_barge_in true)) ;;
  if is_str "ASSISTANT" (role s) && display_assistant_text s then
    log (PrintVal "Assistant: " text_content)
  else if is_str "USER" (role s) then log (PrintVal "User: " text_content)
  else ret tt.

(** Lines 378-380 *)
Definition on_audio_output (event : value) : M unit :=
  audio_output <- lift_result (py_getitem event "audioOutput") ;;
  audio_content <- lift_result (py_getitem audio_output "content") ;;
  match audio_content with
  | JStr content =>
      match b64decode content with
      | Some audio_bytes =>
          modify (fun s => set_audio_output_queue
                             (audio_output_queue s ++ [audio_bytes]) s)
      | None => raise Base64Error
      end
  | _ => raise TypeError
  end.

(** Lines 342-382, for a decoded [json_data] *)
Definition handle_json (json_data : value) : M unit :=
  has_event <- lift_result (py_in "event" json_data) ;;
  when has_event
    (event <- lift_result (py_getitem json_data "event") ;;
     is_start <- lift_result (py_in "contentStart" event) ;;
     if is_start then
       content_start <- lift_result (py_getitem event "contentStart") ;;
       on_content_start content_start
     else
       is_end <- lift_result (py_in "contentEnd" event) ;;
       if is_end then debug_print "Content end detected"
       else
         is_text <- lift_result (py_in "textOutput" event) ;;
         if is_text then on_text_output event
         else
           is_audio <- lift_result (py_in "audioOutput" event) ;;
           if is_audio then on_audio_output event else ret tt) ;;
  output_on_next json_data.

(** The two [except] clauses of the loop body (lines 385-391) *)
Definition receive_except (e : exn) : M loop_ctl :=
  match e with
  | StopAsyncIteration => ret Break
  | _ =>
      log (DebugExc "Error receiving response: " e) ;;
      subject_on_error OutputSubject e ;;
      ret Break
  end.

(** One turn of [while self.is_active] (lines 333-391), for what the
    transport delivers at this turn. *)
Definition response_iteration (r : recv) : M loop_ctl :=
  match r with
  | RecvRaises e => receive_except e
  | RecvEmpty => ret Continue
  | RecvUndecodable => receive_except UnicodeDecodeError
  | RecvText EmptyString => ret Continue
  | RecvText response_data =>
      try_except
        (match json_loads response_data with
         | Some json_data => handle_json json_data
         | None => output_on_next (JObj [("raw_data", JStr response_data)])
         end ;;
         ret Continue)
        receive_except
  end.

(** The [finally] clause, and the end of the task.  (The outer
    [except Exception] of line 392 is never reached: the two clauses of
    the loop body catch every exception of the model.) *)
Definition responses_finally : M unit :=
  s <- get ;;
  when (is_active s) (subject_on_completed OutputSubject) ;;
  modify (set_response_task (Some TaskDone)).

(** [_process_responses] over what the transport delivers; when nothing
    more is delivered the task stays suspended in [receive]. *)
Fixpoint _process_responses (inbound : list recv) : M task_outcome :=
  s <- get ;;
  if is_active s then
    match inbound with
    | [] => ret Awaiting
    | r :: inbound' =>
        ctl <- response_iteration r ;;
        match ctl with
        | Continue => _process_responses inbound'
        | Break => responses_finally ;; ret Exited
        end
    end
  else responses_finally ;; ret Exited.

(** The response task takes one delivery, if it is still running. *)
Definition dispatcher_step (r : recv) : M unit :=
  s <- get ;;
  match response_task s with
  | Some TaskRunning => _process_responses [r] ;; ret tt
  | _ => ret tt
  end.

(** ** Inbound events, for the statements *)

(** An inbound [audioOutput] event whose content decodes to [audio]. *)
Definition audio_message (txt : string) (audio : bytes) : Prop :=
  txt <> EmptyString
  /\ exists top ev body content,
       json_loads txt = Some (JObj top)
       /\ dict_get "event" top = Some (JObj ev)
       /\ dict_get "contentStart" ev = None
       /\ dict_get "contentEnd" ev = None
       /\ dict_get "textOutput" ev = None
       /\ dict_get "audioOutput" ev = Some (JObj body)
       /\ dict_get "content" body = Some (JStr content)
       /\ b64decode content = Some audio.

(** An inbound [textOutput] event whose content holds the marker of an
    interruption. *)
Definition marker_message (txt : string) : Prop :=
  txt <> EmptyString
  /\ exists top ev body content,
       json_loads txt = Some (JObj top)
       /\ dict_get "event" top = Some (JObj ev)
       /\ dict_get "contentStart" ev = None
       /\ dict_get "contentEnd" ev = None
       /\ dict_get "textOutput" ev = Some (JObj body)
       /\ dict_get "content" body = Some (JStr content)
       /\ str_in INTERRUPTED_MARKER content = true.

End Dispatcher.

(** The session is active and the response task is running. *)
Definition listening (m : Manager) : Prop :=
  is_active m = true /\ response_task m = Some TaskRunning.

(** How the end of the stream, or a failure of [receive], reaches the
    observers of [output_subject]. *)
Definition report_of (e : exn) : notification :=
  match e with
  | StopAsyncIteration => OnCompleted
  | _ => OnError e
  end.

(** The value of [display_assistant_text] after a [contentStart] whose
    object is [cs], from its value before. *)
Definition display_after (cs : list (string * value)) (before : bool) : bool :=
  match dict_get "additionalModelFields" cs with
  | Some (JStr text) =>
      match json_loads text with
      | Some (JObj fields) =>
          match dict_get "generationStage" fields with
          | Some stage => is_str "SPECULATIVE" stage
          | None => false
          end
      | _ => before
      end
  | _ => before
  end.

(** ** The outbound events, as the methods build them *)

(** An outbound event with the values put into its template. *)
Inductive wire_event : Type :=
| SessionStart
| PromptStart (promptName voiceId : string)
| ContentStartText (promptName contentName role : string)
| TextInput (promptName contentName content : string)
| ContentStartAudio (promptName contentName : string)
| AudioInput (promptName contentName : string) (audio : bytes)
| ContentEnd (promptName contentName : string)
| PromptEnd (promptName : string)
| SessionEnd.

(** The text sent for an event: [initialize_stream] (lines 200-206),
    [send_audio_content_start_event], [_handle_audio_input],
    [send_audio_content_end_event], [send_prompt_end_event],
    [send_session_end_event]. *)
Definition encode (ev : wire_event) : option string :=
  match ev with
  | SessionStart => Some START_SESSION_EVENT
  | PromptStart p v => format_percent START_PROMPT_EVENT [p; v]
  | ContentStartText p c r => format_percent TEXT_CONTENT_START_EVENT [p; c; r]
  | TextInput p c t => format_percent TEXT_INPUT_EVENT [p; c; t]
  | ContentStartAudio p c => format_percent CONTENT_START_EVENT [p; c]
  | AudioInput p c audio =>
      format_percent AUDIO_EVENT_TEMPLATE [p; c; Base64.b64encode audio]
  | ContentEnd p c => format_percent CONTENT_END_EVENT [p; c]
  | PromptEnd p => format_percent PROMPT_END_EVENT [p]
  | SessionEnd => Some SESSION_END_EVENT
  end.

(** The text values an event puts into its template. *)
Definition text_fields (ev : wire_event) : list string :=
  match ev with
  | SessionStart | SessionEnd => []
  | PromptStart p v => [p; v]
  | ContentStartText p c r => [p; c; r]
  | TextInput p c t => [p; c; t]
  | ContentStartAudio p c | ContentEnd p c | AudioInput p c _ => [p; c]
  | PromptEnd p => [p]
  end.

(** The document of the wire schema that holds the values of an event. *)
Definition document (ev : wire_event) : value :=
  let envelope kind body := JObj [("event", JObj [(kind, JObj body)])] in
  match ev with
  | SessionStart =>
      envelope "sessionStart"
        [("inferenceConfiguration",
          JObj [("maxTokens", JNum "1024"); ("topP", JNum "0.9");
                ("temperature", JNum "0.7")])]
  | PromptStart p v =>
      envelope "promptStart"
        [("promptName", JStr p);
         ("textOutputConfiguration", JObj [("mediaType", JStr "text/plain")]);
         ("audioOutputConfiguration",
          JObj [("mediaType", JStr "audio/lpcm");
                ("sampleRateHertz", JNum "24000");
                ("sampleSizeBits", JNum "16");
                ("channelCount", JNum "1");
                ("voiceId", JStr v);
                ("encoding", JStr "base64");
                ("audioType", JStr "SPEECH")]);
         ("toolUseOutputConfiguration",
          JObj [("mediaType", JStr "application/json")]);
         ("toolConfiguration", JObj [("tools", JArr [])])]
  | ContentStartText p c r =>
      envelope "contentStart"
        [("promptName", JStr p); ("contentName", JStr c); ("role", JStr r);
         ("type", JStr "TEXT"); ("interactive", JBool true);
         ("textInputConfiguration", JObj [("mediaType", JStr "text/plain")])]
  | TextInput p c t =>
      envelope "textInput"
        [("promptName", JStr p); ("contentName", JStr c); ("content", JStr t)]
  | ContentStartAudio p c =>
      envelope "contentStart"
        [("promptName", JStr p); ("contentName", JStr c);
         ("type", JStr "AUDIO"); ("interactive", JBool true);
         ("role", JStr "USER");
         ("audioInputConfiguration",
          JObj [("mediaType", JStr "audio/lpcm");
                ("sampleRateHertz", JNum "16000");
                ("sampleSizeBits", JNum "16");
                ("channelCount", JNum "1");
                ("audioType", JStr "SPEECH");
                ("encoding", JStr "base64")])]
  | AudioInput p c audio =>
      envelope "audioInput"
        [("promptName", JStr p); ("contentName", JStr c);
         ("content", JStr (Base64.b64encode audio))]
  | ContentEnd p c =>
      envelope "contentEnd" [("promptName", JStr p); ("contentName", JStr c)]
  | PromptEnd p => envelope "promptEnd" [("promptName", JStr p)]
  | SessionEnd => envelope "sessionEnd" []
  end.

(** The five initialization events, in the order of the list built at
    line 206. *)
Definition five_events (c : Config) : list wire_event :=
  [SessionStart;
   PromptStart (prompt_name c) (voice_id c);
   ContentStartText (prompt_name c) (content_name c) "SYSTEM";
   TextInput (prompt_name c) (content_name c) (system_prompt c);
   ContentEnd (prompt_name c) (content_name c)].

(** ** Reading the log of the transport *)

(** The event texts handed to [input_stream.send], in order. *)
Fixpoint attempted (w : list wire_record) : list string :=
  match w with
  | [] => []
  | Delivered ev :: w' | Refused ev _ :: w' => ev :: attempted w'
  | _ :: w' => attempted w'
  end.

(** The event texts the transport accepted, in order. *)
Fixpoint delivered (w : list wire_record) : list string :=
  match w with
  | [] => []
  | Delivered ev :: w' => ev :: delivered w'
  | _ :: w' => delivered w'
  end.

(** The records left by sending [events] one after the other when the
    transport answers [replies]. *)
Fixpoint outcomes (events : list string) (replies : list (option exn))
  : list wire_record :=
  match events with
  | [] => []
  | ev :: events' =>
      match replies with
      | Some e :: replies' => Refused ev e :: outcomes events' replies'
      | None :: replies' => Delivered ev :: outcomes events' replies'
      | [] => Delivered ev :: outcomes events' []
      end
  end.

(** What [send_raw_event] hands to [input_subject.on_error] for the
    event [event_json] when the transport answers [reply]: the error of
    the refusal; or, when the event is accepted and [DEBUG] is set, the
    error of the line that prints the type of an event of more than 200
    characters. *)
Definition send_failure (c : Config) (event_json : string) (reply : option exn)
  : option exn :=
  match reply with
  | Some e => Some e
  | None =>
      if DEBUG c && (200 <? py_len event_json)%nat then
        match event_type_keys event_json with
        | Raise e => Some e
        | Ret _ => None
        end
      else None
  end.

(** The first of them when [events] are sent one after the other. *)
Fixpoint first_failure (c : Config) (events : list string)
    (replies : list (option exn)) : option exn :=
  match events with
  | [] => None
  | ev :: events' =>
      match send_failure c ev (hd None replies) with
      | Some e => Some e
      | None => first_failure c events' (tl replies)
      end
  end.

(** What [input_subject] tells about the failure [failure], if there is
    one, from the state [s]: the first error stops the subject, and a
    stopped subject tells nothing more. *)
Definition reported (s : Manager) (failure : option exn)
  : list (subject_id * notification) :=
  match failure with
  | Some e =>
      if is_stopped (input_subject s) then [] else [(InputSubject, OnError e)]
  | None => []
  end.

(** [s'] is [s] after sending [events]: the records are appended to the
    wire, the replies are used up, and the session is as it was. *)
Definition sends (s : Manager) (events : list string) (s' : Manager) : Prop :=
  wire s' = wire s ++ outcomes events (send_replies (env s))
  /\ send_replies (env s') = skipn (length events) (send_replies (env s))
  /\ connect_reply (env s') = connect_reply (env s)
  /\ close_reply (env s') = close_reply (env s)
  /\ cfg s' = cfg s
  /\ stream_response s' = stream_response s
  /\ is_active s' = is_active s
  /\ response_task s' = response_task s.

(** [s'] is [s] but for lines added to the console. *)
Definition quiet (s s' : Manager) : Prop :=
  exists lines, s' = set_console (console s ++ lines) s.

(** A manager as [__init__] leaves it. *)
Definition new_manager (c : Config) (e : Env) : Manager :=
  {| cfg := c;
     bedrock_client := false;
     stream_response := None;
     is_active := false;
     barge_in := false;
     response_task := None;
     audio_output_queue := [];
     display_assistant_text := false;
     role := JNull;
     input_subject := new_subject;
     output_subject := new_subject;
     audio_subject := new_subject;
     env := e;
     wire := [];
     console := [];
     notifications := [] |}.

End Bedrock.

(* ================================================================== *)
(** * [audio_streamer.py]: the playback loop of [AudioStreamer] *)
(* ================================================================== *)

Module Audio.
Import Json Bedrock.
Local Open Scope nat_scope.

Inductive reply (A : Type) : Type :=
| Returns (a : A)
| Raises (e : exn).
Arguments Returns {A} a.
Arguments Raises {A} e.

(** What the output device answers while the playback task runs from one
    suspension to the next: to [output_stream.is_active()] and to
    [output_stream.write(data)].  An exception it raises is one of [exn],
    none of which is [asyncio.TimeoutError]. *)
Record DeviceReply : Type := {
  is_active_reply : reply bool;
  write_reply : reply unit }.

(** Where the task of [play_output_audio] is suspended. *)
Inductive play_pc : Type :=
| AtLoopHead                              (* before the test of [while self.is_streaming] *)
| AwaitGet                                (* in [wait_for(queue.get(), timeout=0.1)] *)
| Writing (audio_data : bytes) (i : nat)  (* in the [for] loop, before the turn of index [i] *)
| Finished.                               (* the loop is left *)

(** The streamer, which holds the manager it shares with the response
    loop; [written] lists the chunks the device accepted. *)
Record AudioStreamer : Type := {
  stream_manager : Manager;
  is_streaming : bool;
  output_stream : option unit;
  written : list bytes;
  playback : play_pc }.

Definition set_stream_manager (x : Manager) (a : AudioStreamer) : AudioStreamer :=
  {| stream_manager := x; is_streaming := is_streaming a;
     output_stream := output_stream a; written := written a;
     playback := playback a |}.

Definition set_written (x : list bytes) (a : AudioStreamer) : AudioStreamer :=
  {| stream_manager := stream_manager a; is_streaming := is_streaming a;
     output_stream := output_stream a; written := x;
     playback := playback a |}.

Definition set_playback (x : play_pc) (a : AudioStreamer) : AudioStreamer :=
  {| stream_manager := stream_manager a; is_streaming := is_streaming a;
     output_stream := output_stream a; written := written a;
     playback := x |}.

Definition print_line (l : line) (a : AudioStreamer) : AudioStreamer :=
  set_stream_manager
    (set_console (console (stream_manager a) ++ [l]) (stream_manager a)) a.

(** Lines 90-94: [get_nowait] until the queue is empty. *)
Fixpoint drain (queue : list bytes) : list bytes :=
  match queue with
  | [] => []
  | _ :: queue' => drain queue'
  end.

(** [audio_data[i:end]] *)
Definition slice (audio_data : bytes) (i j : nat) : bytes :=
  firstn (j - i) (skipn i audio_data).

Section Playback.

(** [config.CHUNK_SIZE] *)
Variable CHUNK_SIZE : nat.

(** Lines 134-138: [except Exception as e] *)
Definition playback_except (e : exn) (a : AudioStreamer) : AudioStreamer :=
  set_playback AtLoopHead
    (if is_streaming a then
       print_line (Traceback e)
         (print_line (PrintExc "Error playing output audio: " e) a)
     else a).

(** After the turn of index [i]: the next index of
    [range(0, len(audio_data), chunk_size)], or the end of the [for]. *)
Definition next_turn (audio_data : bytes) (i : nat) : play_pc :=
  if i + CHUNK_SIZE <? length audio_data then Writing audio_data (i + CHUNK_SIZE)
  else AtLoopHead.

(** The playback task runs from one suspension point to the next. *)
Definition play_step (d : DeviceReply) (a : AudioStreamer) : AudioStreamer :=
  match playback a with
  | Finished => a
  | AtLoopHead =>
      if negb (is_streaming a) then set_playback Finished a
      else if barge_in (stream_manager a) then
        (* lines 88-98 *)
        let m := stream_manager a in
        set_stream_manager
          (set_barge_in false
             (set_audio_output_queue (drain (audio_output_queue m)) m)) a
      else set_playback AwaitGet a
  | AwaitGet =>
      match audio_output_queue (stream_manager a) with
      | [] => set_playback AtLoopHead a   (* asyncio.TimeoutError: continue *)
      | audio_data :: queue' =>
          let a1 :=
            set_stream_manager
              (set_audio_output_queue queue' (stream_manager a)) a in
          (* line 106 *)
          match audio_data, is_streaming a1, output_stream a1 with
          | _ :: _, true, Some _ =>
              match is_active_reply d with
              | Raises e => playback_except e a1
              | Returns false => set_playback AtLoopHead a1
              | Returns true =>
                  if CHUNK_SIZE =? 0 then playback_except ValueError a1
                  else set_playback (Writing audio_data 0) a1
              end
          | _, _, _ => set_playback AtLoopHead a1
          end
      end
  | Writing audio_data i =>
      if negb (is_streaming a) then set_playback AtLoopHead a   (* break *)
      else
        let chunk :=
          slice audio_data i (Nat.min (i + CHUNK_SIZE) (length audio_data)) in
        (* write_chunk *)
        match output_stream a with
        | None => set_playback (next_turn audio_data i) a
        | Some _ =>
            match is_active_reply d with
            | Raises e => playback_except e a
            | Returns false => set_playback (next_turn audio_data i) a
            | Returns true =>
                match write_reply d with
                | Raises e => playback_except e a
                | Returns _ =>
                    set_playback (next_turn audio_data i)
                      (set_written (written a ++ [chunk]) a)
                end
            end
        end
  end.

(** [base64.b64decode], for the response loop *)
Variable b64decode : string -> option bytes.

(** The two tasks take turns: the response loop handles one delivery, or
    the playback task runs to its next suspension. *)
Inductive action : Type :=
| Inbound (r : recv)
| Playback (d : DeviceReply).

Definition sys_step (act : action) (a : AudioStreamer) : AudioStreamer :=
  match act with
  | Inbound r =>
      set_stream_manager
        (state_of (dispatcher_step b64decode r (stream_manager a))) a
  | Playback d => play_step d a
  end.

Fixpoint run (acts : list action) (a : AudioStreamer) : AudioStreamer :=
  match acts with
  | [] => a
  | act :: acts' => run acts' (sys_step act a)
  end.

End Playback.

(** A device that is active and accepts the write. *)
Definition healthy : DeviceReply :=
  {| is_active_reply := Returns true; write_reply := Returns tt |}.

(** The bytes still to be written of the buffer in hand. *)
Definition in_hand (pc : play_pc) : bytes :=
  match pc with
  | Writing audio_data i => skipn i audio_data
  | _ => []
  end.


(** The bytes still to be played: the rest of the buffer in hand, then
    the queue. *)
Definition pending (a : AudioStreamer) : bytes :=
  in_hand (playback a) ++ concat (audio_output_queue (stream_manager a)).

(** Streaming is enabled, the device is open, no interruption is
    signalled and the response loop is running. *)
Definition steady (a : AudioStreamer) : Prop :=
  is_streaming a = true
  /\ output_stream a <> None
  /\ barge_in (stream_manager a) = false
  /\ listening (stream_manager a)
  /\ playback a <> Finished.

(** As [steady], with the interruption signalled and not yet handled by
    the playback loop. *)
Definition flagged (a : AudioStreamer) : Prop :=
  is_streaming a = true
  /\ output_stream a <> None
  /\ barge_in (stream_manager a) = true
  /\ listening (stream_manager a)
  /\ playback a <> Finished.

(** A bound on the turns the playback task takes to be back at the head
    of its loop. *)
Definition head_distance (a : AudioStreamer) : nat :=
  match playback a with
  | AtLoopHead => 0
  | AwaitGet => 2 + length (hd [] (audio_output_queue (stream_manager a)))
  | Writing audio_data i => 1 + (length audio_data - i)
  | Finished => 0
  end.

(** A turn of the two tasks: an [audioOutput] event arrives, or the
    playback task runs on a healthy device. *)
Inductive turn : Type :=
| Arrives (txt : string) (audio : bytes)
| Plays.

(** The action of a turn *)
Definition action_of (t : turn) : action :=
  match t with
  | Arrives txt _ => Inbound (RecvText txt)
  | Plays => Playback healthy
  end.

(** The buffers that arrive in the turns *)
Fixpoint arrivals (ts : list turn) : list bytes :=
  match ts with
  | [] => []
  | Arrives _ audio :: ts' => audio :: arrivals ts'
  | Plays :: ts' => arrivals ts'
  end.

(** A bound on the turns the playback task needs to play what is
    pending. *)
Definition effort (a : AudioStreamer) : nat :=
  match playback a with
  | AtLoopHead => 1
  | AwaitGet => 0
  | Writing audio_data i => 2 + (length audio_data - i)
  | Finished => 0
  end
  + list_sum (map (fun b : bytes => 3 + length b)
                (audio_output_queue (stream_manager a))).

(** The state after an exception [e] is caught while streaming is
    enabled: the error and its traceback are printed, and the loop is at
    its head. *)
Definition caught (e : exn) (a : AudioStreamer) : AudioStreamer :=
  set_playback AtLoopHead
    (print_line (Traceback e)
       (print_line (PrintExc "Error playing output audio: " e) a)).

Section Turns.

Variable CHUNK_SIZE : nat.
Variable b64decode : string -> option bytes.

(** The playback task takes its turns with the device answering
    [replies]. *)
Definition play_steps (replies : list DeviceReply) (a : AudioStreamer)
  : AudioStreamer :=
  fold_left (fun a d => play_step CHUNK_SIZE d a) replies a.

(** An arrival is fair when its text is an [audioOutput] event that
    decodes to its buffer. *)
Definition fair_turn (t : turn) : Prop :=
  match t with
  | Arrives txt audio => audio_message b64decode txt audio
  | Plays => True
  end.

(** The streamer after the turns *)
Definition turns (ts : list turn) (a : AudioStreamer) : AudioStreamer :=
  run CHUNK_SIZE b64decode (map action_of ts) a.

(** The streamer after the turns [pre], then the message [txt] handled by
    the response loop, then the turns [post]. *)
Definition turns_around (pre : list turn) (txt : string) (post : list turn)
    (a : AudioStreamer) : AudioStreamer :=
  turns post
    (sys_step CHUNK_SIZE b64decode (Inbound (RecvText txt)) (turns pre a)).

End Turns.

End Audio.

(* ================================================================== *)
(** * Sample sessions *)
(* ================================================================== *)

Module Samples.
Import PyStr Json Bedrock Audio.

Definition sample_config : Config :=
  {| model_id := "amazon.nova-sonic-v1:0"; region := "us-east-1";
     system_prompt := "hello"; voice_id := "matthew";
     prompt_name := "prompt-1"; content_name := "content-1";
     audio_content_name := "audio-1"; DEBUG := false |}.

(** A transport that accepts everything. *)
Definition calm : Env :=
  {| connect_reply := None; send_replies := []; close_reply := None |}.

(** A transport that refuses the third send. *)
Definition third_send_refused : Env :=
  {| connect_reply := None;
     send_replies := [None; None; Some (TransportError "broken pipe")];
     close_reply := None |}.

(** A session made active by hand: a stream, and [is_active] set. *)
Definition live (c : Config) (e : Env) : Manager :=
  set_is_active true (set_stream_response (Some tt) (new_manager c e)).

(** The decoder of [audioOutput] content used in the samples. *)
Definition sample_b64decode (content : string) : option bytes :=
  Base64.b64decode content.

(** A system prompt that holds double quotes *)
Definition quoted_prompt : string := Eval vm_compute in dq "say 'hi'".

(** An inbound [contentStart] with a role and no [additionalModelFields]. *)
Definition plain_content_start : string :=
  Eval vm_compute in dq "{'event': {'contentStart': {'role': 'ASSISTANT'}}}".

(** An active session that displays the assistant's text. *)
Definition displaying : Manager :=
  set_display_assistant_text true (live sample_config calm).

(** A streamer on an active session, playing. *)
Definition streaming (m : Manager) (pc : play_pc) : AudioStreamer :=
  {| stream_manager := m; is_streaming := true; output_stream := Some tt;
     written := []; playback := pc |}.

(** The device refuses the write. *)
Definition write_fails : DeviceReply :=
  {| is_active_reply := Returns true;
     write_reply := Raises (TransportError "output underflowed") |}.

(** The session after a start on a transport that accepts everything. *)
Definition started : Manager :=
  state_of (initialize_stream (new_manager sample_config calm)).

(** Three inbound [audioOutput] events, of the buffers [01 02], [03] and
    [41 42 43], and a [textOutput] event that holds the marker of an
    interruption. *)
Definition audio_event_A : string :=
  Eval vm_compute in dq "{'event': {'audioOutput': {'content': 'AQI='}}}".

Definition audio_event_B : string :=
  Eval vm_compute in dq "{'event': {'audioOutput': {'content': 'Aw=='}}}".

Definition audio_event_C : string :=
  Eval vm_compute in dq "{'event': {'audioOutput': {'content': 'QUJD'}}}".

Definition marker_event : string :=
  Eval vm_compute in
    dq "{'event': {'textOutput': {'content': '{ \'interrupted\' : true }'}}}".

(** A streamer to which the buffers A and B, then the marker, have been
    delivered before the playback task ran. *)
Definition interrupted : AudioStreamer :=
  run 2 sample_b64decode
    [Inbound (RecvText audio_event_A); Inbound (RecvText audio_event_B);
     Inbound (RecvText marker_event)]
    (streaming started AtLoopHead).

End Samples.

(* ================================================================== *)
(** * Vocabulary for the statements about whole sessions *)
(* ================================================================== *)

Module Frames.
Import PyStr Json Bedrock.

(** [s'] has the transport of [s]: the wire, what the SDK will answer,
    the configuration, the stream, [is_active], and the two subjects on
    the sending side. *)
Definition untouched (s s' : Manager) : Prop :=
  wire s' = wire s
  /\ env s' = env s
  /\ cfg s' = cfg s
  /\ stream_response s' = stream_response s
  /\ is_active s' = is_active s
  /\ input_subject s' = input_subject s
  /\ audio_subject s' = audio_subject s.

(** A computation that leaves the transport alone, whether it returns or
    raises. *)
Definition keeps {A : Type} (m : M A) : Prop :=
  forall s, untouched s (state_of (m s)).

(** [s'] is [s] after the events were handed to the transport, with
    nothing of the receiving side changed. *)
Definition sent (s : Manager) (events : list string) (s' : Manager) : Prop :=
  sends s events s'
  /\ bedrock_client s' = bedrock_client s
  /\ barge_in s' = barge_in s
  /\ audio_output_queue s' = audio_output_queue s
  /\ display_assistant_text s' = display_assistant_text s
  /\ role s' = role s
  /\ output_subject s' = output_subject s
  /\ audio_subject s' = audio_subject s.

(** The manager after [output_subject.on_next(v)] *)
Definition forwarded (v : value) (s : Manager) : Manager :=
  if is_stopped (output_subject s) then s
  else set_notifications (notifications s ++ [(OutputSubject, OnNext v)]) s.

(** The response loop has ended with the error [e]: the task is done, the
    observers of [output_subject] are told, and the session is otherwise
    as it was. *)
Definition ended_with (e : exn) (s s' : Manager) : Prop :=
  response_task s' = Some TaskDone
  /\ notifications s'
     = notifications s
       ++ (if is_stopped (output_subject s) then [] else [(OutputSubject, OnError e)])
  /\ is_active s' = is_active s
  /\ audio_output_queue s' = audio_output_queue s
  /\ barge_in s' = barge_in s
  /\ display_assistant_text s' = display_assistant_text s.

(** The lines a [textOutput] of the text [content] adds to the console *)
Definition text_lines (s : Manager) (content : string) : list line :=
  (if str_in INTERRUPTED_MARKER content && DEBUG (cfg s)
   then [Print "Barge-in detected. Stopping audio output."] else [])
  ++ (if is_str "ASSISTANT" (role s) && display_assistant_text s
      then [PrintVal "Assistant: " (JStr content)]
      else if is_str "USER" (role s)
           then [PrintVal "User: " (JStr content)]
           else []).

(** The session sends audio: it has a stream, is active, and
    [_handle_audio_input] is subscribed to [audio_subject]. *)
Definition on_air (s : Manager) : Prop :=
  stream_response s <> None
  /\ is_active s = true
  /\ is_stopped (audio_subject s) = false
  /\ observed (audio_subject s) = true.

(** [s'] is [s] after the events were handed to the transport, whatever
    else happened to the receiving side in between. *)
Definition transmitted (s : Manager) (events : list string) (s' : Manager) : Prop :=
  wire s' = wire s ++ outcomes events (send_replies (env s))
  /\ send_replies (env s') = skipn (length events) (send_replies (env s))
  /\ close_reply (env s') = close_reply (env s)
  /\ cfg s' = cfg s
  /\ stream_response s' = stream_response s
  /\ is_active s' = is_active s
  /\ audio_subject s' = audio_subject s.

End Frames.

(* ================================================================== *)
(** * [audio_streamer.py]: opening, starting and stopping the streamer *)
(* ================================================================== *)

Module Lifecycle.
Import Json Bedrock Audio.
Local Open Scope nat_scope.

(** The calls made to PyAudio and to its two streams *)
Inductive device_call : Type :=
| NewPyAudio        (* pyaudio.PyAudio() *)
| OpenInput         (* p.open(input=True, ...) *)
| OpenOutput        (* p.open(output=True, ...) *)
| InputIsActive     (* input_stream.is_active() *)
| InputStart        (* input_stream.start_stream() *)
| InputStop         (* input_stream.stop_stream() *)
| InputClose        (* input_stream.close() *)
| OutputIsActive    (* output_stream.is_active() *)
| OutputClose       (* output_stream.close() *)
| Terminate.        (* p.terminate() *)

(** What PyAudio answers to the calls of one method of the streamer; no
    method makes the same call twice. *)
Record PyAudioReply : Type := {
  new_pyaudio : reply unit;
  open_input : reply unit;
  open_output : reply unit;
  input_is_active : reply bool;
  input_start_stream : reply unit;
  input_stop_stream : reply unit;
  input_close : reply unit;
  output_is_active : reply bool;
  output_close : reply unit;
  terminate : reply unit }.

(** The whole object: the part the playback loop works on, the input
    stream, whether [output_task] is set, and the calls made to PyAudio,
    in their order.  [self.p] is the PyAudio instance from [__init__] on.
    [playback] of [core] is read once the task exists. *)
Record Streamer : Type := {
  core : AudioStreamer;
  input_stream : option unit;
  output_task : bool;
  calls : list device_call }.

Definition set_core (x : AudioStreamer) (h : Streamer) : Streamer :=
  {| core := x; input_stream := input_stream h; output_task := output_task h;
     calls := calls h |}.

Definition set_input_stream (x : option unit) (h : Streamer) : Streamer :=
  {| core := core h; input_stream := x; output_task := output_task h;
     calls := calls h |}.

Definition set_output_task (x : bool) (h : Streamer) : Streamer :=
  {| core := core h; input_stream := input_stream h; output_task := x;
     calls := calls h |}.

Definition set_calls (x : list device_call) (h : Streamer) : Streamer :=
  {| core := core h; input_stream := input_stream h;
     output_task := output_task h; calls := x |}.

Definition set_is_streaming (x : bool) (a : AudioStreamer) : AudioStreamer :=
  {| stream_manager := stream_manager a; is_streaming := x;
     output_stream := output_stream a; written := written a;
     playback := playback a |}.

Definition set_output_stream (x : option unit) (a : AudioStreamer) : AudioStreamer :=
  {| stream_manager := stream_manager a; is_streaming := is_streaming a;
     output_stream := x; written := written a; playback := playback a |}.

(** ** The methods run on the streamer and may raise *)

Definition S (A : Type) : Type := Streamer -> result A * Streamer.

Definition pure {A : Type} (a : A) : S A := fun h => (Ret a, h).

Definition throw {A : Type} (e : exn) : S A := fun h => (Raise e, h).

Definition and_then {A B : Type} (m : S A) (k : A -> S B) : S B :=
  fun h =>
    match m h with
    | (Ret a, h') => k a h'
    | (Raise e, h') => (Raise e, h')
    end.

(** [try: m  except Exception as e: handler e] *)
Definition attempt {A : Type} (m : S A) (handler : exn -> S A) : S A :=
  fun h =>
    match m h with
    | (Ret a, h') => (Ret a, h')
    | (Raise e, h') => handler e h'
    end.

Definition self : S Streamer := fun h => (Ret h, h).

Definition update (f : Streamer -> Streamer) : S unit := fun h => (Ret tt, f h).

Declare Scope streamer_scope.
Delimit Scope streamer_scope with streamer.
Notation "x <- m ;; k" := (and_then m (fun x => k))
  (at level 61, m at next level, right associativity) : streamer_scope.
Notation "m ;; k" := (and_then m (fun _ => k))
  (at level 61, right associativity) : streamer_scope.
Local Open Scope streamer_scope.

Definition only_if (b : bool) (m : S unit) : S unit := if b then m else pure tt.

(** A call to PyAudio: it is recorded, and returns or raises as PyAudio
    answers. *)
Definition device {A : Type} (c : device_call) (r : reply A) : S A :=
  fun h =>
    (match r with Returns a => Ret a | Raises e => Raise e end,
     set_calls (calls h ++ [c]) h).

(** A method of the manager, run on [self.stream_manager] *)
Definition on_manager {A : Type} (m : M A) : S A :=
  fun h =>
    let (r, mgr) := m (stream_manager (core h)) in
    (r, set_core (set_stream_manager mgr (core h)) h).

(** [print], [traceback.print_exc] and [debug_print] *)
Definition say (l : line) : S unit := on_manager (log l).

Definition is_some {A : Type} (x : option A) : bool :=
  match x with Some _ => true | None => false end.

Definition nonempty (data : bytes) : bool :=
  match data with [] => false | _ :: _ => true end.

(** Lines 27-62.  [time_it] of the module [utils], which is not part of
    the sources at hand, is taken to call the function it is given and to
    give back its result. *)
Definition _initialize_audio_streams (d : PyAudioReply) : S unit :=
  attempt
    (say (Debug "Opening input audio stream...") ;;
     device OpenInput (open_input d) ;;
     update (set_input_stream (Some tt)) ;;
     say (Debug "Input audio stream opened") ;;
     say (Debug "Opening output audio stream...") ;;
     device OpenOutput (open_output d) ;;
     update (fun h => set_core (set_output_stream (Some tt) (core h)) h) ;;
     say (Debug "Output audio stream opened"))
    (fun e =>
       say (PrintExc "Error initializing audio streams: " e) ;;
       say (Traceback e) ;;
       h <- self ;;
       only_if (is_some (input_stream h)) (device InputClose (input_close d)) ;;
       only_if (is_some (output_stream (core h)))
         (device OutputClose (output_close d)) ;;
       device Terminate (terminate d) ;;
       throw e).

(** The attributes as the first lines of [__init__] set them (lines
    13-24), before PyAudio is called. *)
Definition blank (stream_manager : Manager) : Streamer :=
  {| core := {| stream_manager := stream_manager; is_streaming := false;
                output_stream := None; written := []; playback := Finished |};
     input_stream := None;
     output_task := false;
     calls := [] |}.

(** Lines 12-25 *)
Definition __init__ (stream_manager : Manager) (d : PyAudioReply)
  : result unit * Streamer :=
  (say (Debug "AudioStreamer Initializing PyAudio...") ;;
   device NewPyAudio (new_pyaudio d) ;;
   say (Debug "AudioStreamer PyAudio initialized") ;;
   _initialize_audio_streams d) (blank stream_manager).

(** Lines 74-81; the coroutine is run where the callback schedules it. *)
Definition process_input_audio (audio_data : bytes) : S unit :=
  attempt
    (on_manager (add_audio_chunk audio_data))
    (fun e =>
       h <- self ;;
       only_if (is_streaming (core h))
         (say (PrintExc "Error processing input audio: " e))).

(** Lines 64-72; [in_data] is empty when PyAudio hands over [None] or no
    bytes. *)
Definition input_callback (in_data : bytes) : S unit :=
  h <- self ;;
  only_if (is_streaming (core h) && nonempty in_data)
    (process_input_audio in_data).

(** Lines 184-191 *)
Definition close_input_stream (d : PyAudioReply) : S unit :=
  h <- self ;;
  only_if (is_some (input_stream h))
    (attempt
       (active <- device InputIsActive (input_is_active d) ;;
        only_if active (device InputStop (input_stop_stream d)) ;;
        device InputClose (input_close d) ;;
        say (Debug "Input audio stream closed."))
       (fun e => say (PrintExc "Error closing input stream: " e))).

(** Lines 193-202 *)
Definition close_output_stream (d : PyAudioReply) : S unit :=
  h <- self ;;
  only_if (is_some (output_stream (core h)))
    (attempt
       (device OutputIsActive (output_is_active d) ;;
        device OutputClose (output_close d) ;;
        say (Debug "Output audio stream closed."))
       (fun e => say (PrintExc "Error closing output stream: " e))).

Definition task_done (pc : play_pc) : bool :=
  match pc with Finished => true | _ => false end.

Definition outcome {A : Type} (p : result A * Streamer) : result A := fst p.
Definition after {A : Type} (p : result A * Streamer) : Streamer := snd p.

(** What happens while [start_streaming] waits for the Enter key, or
    [stop_streaming] for the cancelled task: PyAudio hands over captured
    audio, the response loop handles a delivery, the playback task runs
    to its next suspension. *)
Inductive event : Type :=
| Captured (in_data : bytes)
| Scheduled (act : action).

Section Streaming.

(** [config.CHUNK_SIZE], and [base64.b64decode] for the response loop *)
Variable CHUNK_SIZE : nat.
Variable b64decode : string -> option bytes.

Definition stream_step (ev : event) (h : Streamer) : Streamer :=
  match ev with
  | Captured in_data => after (input_callback in_data h)
  | Scheduled act => set_core (sys_step CHUNK_SIZE b64decode act (core h)) h
  end.

Definition stream_run (evs : list event) (h : Streamer) : Streamer :=
  fold_left (fun h ev => stream_step ev h) evs h.

(** Lines 166-211.  While [gather] waits for the cancelled task, the
    response loop handles the deliveries [during]; the task is done when
    [gather] returns. *)
Definition stop_streaming (d : PyAudioReply) (during : list recv) : S unit :=
  h <- self ;;
  if negb (is_streaming (core h)) then pure tt
  else
    update (fun h => set_core (set_is_streaming false (core h)) h) ;;
    say (Print "Stopping audio streaming...") ;;
    h <- self ;;
    only_if (output_task h && negb (task_done (playback (core h))))
      (update (stream_run (map (fun r => Scheduled (Inbound r)) during)) ;;
       update (fun h => set_core (set_playback Finished (core h)) h)) ;;
    close_input_stream d ;;
    close_output_stream d ;;
    device Terminate (terminate d) ;;
    say (Debug "PyAudio terminated.") ;;
    on_manager close ;;
    say (Debug "Bedrock stream manager closed.").

(** Lines 145-158: from the two lines printed to the creation of the
    playback task.  [time_it_async], of the module [utils], is taken to
    await the coroutine it is given. *)
Definition begin_streaming (d : PyAudioReply) : S unit :=
  say (Print "Starting audio streaming. Speak into your microphone...") ;;
  say (Print "Press Enter to stop streaming...") ;;
  on_manager send_audio_content_start_event ;;
  update (fun h => set_core (set_is_streaming true (core h)) h) ;;
  h <- self ;;
  only_if (is_some (input_stream h))
    (active <- device InputIsActive (input_is_active d) ;;
     only_if (negb active) (device InputStart (input_start_stream d))) ;;
  update (fun h => set_output_task true
                     (set_core (set_playback AtLoopHead (core h)) h)).

(** Lines 140-164.  While [input] waits for the Enter key the events
    [waiting] take place; [enter] is what [input] then does: it returns,
    or raises (at the end of the standard input). *)
Definition start_streaming
    (d_start : PyAudioReply) (waiting : list event) (enter : reply unit)
    (d_stop : PyAudioReply) (during : list recv) : S unit :=
  h <- self ;;
  if is_streaming (core h) then pure tt
  else
    begin_streaming d_start ;;
    update (stream_run waiting) ;;
    match enter with
    | Returns _ => stop_streaming d_stop during
    | Raises e => throw e
    end.

End Streaming.

(** The chunks of the captures that are not empty, in their order *)
Fixpoint captured (evs : list event) : list bytes :=
  match evs with
  | [] => []
  | Captured (b :: in_data) :: evs' => (b :: in_data) :: captured evs'
  | _ :: evs' => captured evs'
  end.

(** PyAudio answers every call normally; its streams say they are
    active. *)
Definition obliging : PyAudioReply :=
  {| new_pyaudio := Returns tt; open_input := Returns tt;
     open_output := Returns tt; input_is_active := Returns true;
     input_start_stream := Returns tt; input_stop_stream := Returns tt;
     input_close := Returns tt; output_is_active := Returns true;
     output_close := Returns tt; terminate := Returns tt |}.

(** [h'] is [h] but for lines on the console, calls to PyAudio, and what
    the response loop did to the manager, whose transport is as it was. *)
Definition undisturbed (h h' : Streamer) : Prop :=
  Frames.untouched (stream_manager (core h)) (stream_manager (core h'))
  /\ is_streaming (core h') = is_streaming (core h)
  /\ output_stream (core h') = output_stream (core h)
  /\ written (core h') = written (core h)
  /\ playback (core h') = playback (core h)
  /\ input_stream h' = input_stream h
  /\ output_task h' = output_task h.

(** The input stream, if there is one, is active or lets itself be
    started: lines 154-155 raise nothing. *)
Definition microphone_starts (d : PyAudioReply) (h : Streamer) : Prop :=
  match input_stream h with
  | None => True
  | Some _ =>
      match input_is_active d with
      | Returns true => True
      | Returns false => exists u, input_start_stream d = Returns u
      | Raises _ => False
      end
  end.

End Lifecycle.

(* ================================================================== *)
(** * More sample sessions *)
(* ================================================================== *)

Module Cases.
Import PyStr Json Bedrock Audio Samples Lifecycle.

(** A transport that refuses the first send. *)
Definition refusing : Env :=
  {| connect_reply := None;
     send_replies := [Some (TransportError "broken pipe")];
     close_reply := None |}.

(** A configuration with [DEBUG] set, names as [uuid.uuid4] gives them,
    and a system prompt that holds double quotes *)
Definition debug_config : Config :=
  {| model_id := "amazon.nova-sonic-v1:0"; region := "us-east-1";
     system_prompt := quoted_prompt; voice_id := "matthew";
     prompt_name := "7b0c1e4e-0d0b-4b66-9c1c-2f1d3a5e8f10";
     content_name := "a3f1c2d4-5e6f-4a7b-8c9d-0e1f2a3b4c5d";
     audio_content_name := "0f9e8d7c-6b5a-4c3d-9e2f-1a0b9c8d7e6f";
     DEBUG := true |}.

(** The [textInput] event of that system prompt, as [initialize_stream]
    builds it: it is longer than 200 characters and it is not JSON. *)
Definition quoted_text_input : string :=
  Eval vm_compute in
    match format_percent TEXT_INPUT_EVENT
            [prompt_name debug_config; content_name debug_config;
             system_prompt debug_config] with
    | Some event => event
    | None => EmptyString
    end.

(** Inbound messages: one that is not JSON, an event the loop has no
    branch for, a [contentStart] without a role, an [audioOutput] whose
    content is incorrectly padded, and a [textOutput]. *)
Definition raw_message : string := "not json".

Definition usage_event : string :=
  Eval vm_compute in dq "{'event': {'usageEvent': {'totalTokens': 12}}}".

Definition roleless_content_start : string :=
  Eval vm_compute in dq "{'event': {'contentStart': {'type': 'TEXT'}}}".

Definition bad_audio_event : string :=
  Eval vm_compute in dq "{'event': {'audioOutput': {'content': 'QUJ'}}}".

Definition text_event : string :=
  Eval vm_compute in dq "{'event': {'textOutput': {'content': 'hello'}}}".

(** A device that says it is not active *)
Definition silent : DeviceReply :=
  {| is_active_reply := Returns false; write_reply := Returns tt |}.

(** A streamer on a session made active by hand, not streaming, with two
    buffers on the queue *)
Definition idle_with_queue (pc : play_pc) : AudioStreamer :=
  {| stream_manager :=
       set_audio_output_queue [[Byte.x01; Byte.x02]; [Byte.x03]]
         (live sample_config calm);
     is_streaming := false; output_stream := Some tt;
     written := []; playback := pc |}.

(** The same, streaming *)
Definition playing_with_queue : AudioStreamer :=
  {| stream_manager :=
       set_audio_output_queue [[Byte.x01; Byte.x02]; [Byte.x03]]
         (live sample_config calm);
     is_streaming := true; output_stream := Some tt;
     written := []; playback := AtLoopHead |}.

(** PyAudio fails to terminate; the microphone cannot be asked whether
    it is active. *)
Definition stuck_terminate : PyAudioReply :=
  {| new_pyaudio := Returns tt; open_input := Returns tt;
     open_output := Returns tt; input_is_active := Returns true;
     input_start_stream := Returns tt; input_stop_stream := Returns tt;
     input_close := Returns tt; output_is_active := Returns true;
     output_close := Returns tt;
     terminate := Raises (TransportError "PortAudio not initialized") |}.

Definition dead_microphone : PyAudioReply :=
  {| new_pyaudio := Returns tt; open_input := Returns tt;
     open_output := Returns tt;
     input_is_active := Raises (TransportError "Stream closed");
     input_start_stream := Returns tt; input_stop_stream := Returns tt;
     input_close := Returns tt; output_is_active := Returns true;
     output_close := Returns tt; terminate := Returns tt |}.

(** The streamer that [__init__] builds on the started session, and the
    same once [start_streaming] waits for the Enter key. *)
Definition studio : Streamer := after (__init__ started obliging).

Definition on_the_air : Streamer := after (begin_streaming obliging studio).

End Cases.

(* ================================================================== *)
(** * Properties of the codec *)
(* ================================================================== *)

Module CodecFacts.
Import PyStr Json Bedrock Samples.

Lemma append_assoc (a b c : string) :
  ((a ++ b) ++ c)%string = (a ++ (b ++ c))%string.
Proof. induction a as [|x a IH]; simpl; [reflexivity | now rewrite IH]. Qed.

Lemma append_empty_r (a : string) : (a ++ EmptyString)%string = a.
Proof. induction a as [|x a IH]; simpl; [reflexivity | now rewrite IH]. Qed.

(** [fill] succeeds when there is one segment more than there are
    arguments. *)
Lemma fill_total (segs args : list string) :
  length segs = S (length args) -> exists r, fill segs args = Some r.
Proof.
  revert args. induction segs as [|seg segs IH]; intros args H; [discriminate|].
  destruct args as [|a args]; simpl in *.
  - destruct segs; [eauto | discriminate].
  - destruct segs as [|seg' segs]; [discriminate|].
    destruct (IH args) as [r Hr]; [simpl in *; lia|].
    rewrite Hr. simpl. eauto.
Qed.

Lemma percent_ok (tmpl : string) (segs args : list string) :
  template_segments tmpl = Some segs ->
  length segs = S (length args) ->
  exists r, format_percent tmpl args = Some r
            /\ forall s, percent tmpl args s = (Ret r, s).
Proof.
  intros Hs Hl. destruct (fill_total segs args Hl) as [r Hr].
  exists r. unfold percent, format_percent. rewrite Hs, Hr. split; reflexivity.
Qed.

(** Scanning a concatenation is scanning its parts in turn. *)
Lemma lex_run_app (m : mode) (s1 s2 : string) (out : list token) :
  lex_run m (s1 ++ s2) out =
  match lex_run m s1 out with
  | Some (m', out') => lex_run m' s2 out'
  | None => None
  end.
Proof.
  revert m out. induction s1 as [|c s1 IH]; intros m out; simpl.
  - reflexivity.
  - destruct (lex_char m c) as [[m' toks]|]; [apply IH | reflexivity].
Qed.

Lemma string_char_plain (acc : string) (c : ascii) :
  plain_char c = true -> string_char acc c = Some (InStr (snoc acc c) None, []).
Proof.
  unfold plain_char, string_char. intros H.
  apply andb_true_iff in H as [H H3]. apply andb_true_iff in H as [H1 H2].
  apply negb_true_iff in H1, H2. rewrite H1, H2.
  apply N.leb_le in H3. apply N.ltb_ge in H3. now rewrite H3.
Qed.

(** Inside a string literal, plain text is taken as it stands. *)
Lemma lex_run_plain (f : string) : forall (acc : string) (out : list token),
  plain f = true ->
  lex_run (InStr acc None) f out = Some (InStr (acc ++ f) None, out).
Proof.
  induction f as [|c f IH]; intros acc out H; simpl in *.
  - now rewrite append_empty_r.
  - apply andb_true_iff in H as [Hc Hf].
    rewrite (string_char_plain acc c Hc). simpl.
    rewrite (IH _ _ Hf). unfold snoc. now rewrite append_assoc.
Qed.

Lemma plain_get (s : string) (k : nat) (c : ascii) :
  plain s = true -> String.get k s = Some c -> plain_char c = true.
Proof.
  revert k. induction s as [|x s IH]; intros k Hs Hg; [discriminate|].
  simpl in Hs. apply andb_true_iff in Hs as [Hx Hs].
  destruct k as [|k]; simpl in Hg.
  - now inversion Hg; subst.
  - eauto.
Qed.

Lemma sextet_plain (n : N) : plain_char (Base64.sextet n) = true.
Proof.
  unfold Base64.sextet.
  destruct (String.get (N.to_nat n) Base64.alphabet) as [c|] eqn:E.
  - eapply plain_get; [|exact E]. reflexivity.
  - reflexivity.
Qed.

(** Base64 text needs no escaping. *)
Lemma b64encode_plain (bs : list Byte.byte) : plain (Base64.b64encode bs) = true.
Proof.
  assert (H : forall n (l : list Byte.byte), length l < n ->
                plain (Base64.b64encode l) = true).
  { induction n as [|n IH]; intros l Hl; [lia|].
    destruct l as [|a [|b [|c r]]]; simpl; rewrite ?sextet_plain; simpl; auto.
    apply IH. simpl in Hl. lia. }
  apply (H (S (length bs))). lia.
Qed.

Ltac segments_of tmpl :=
  unfold format_percent;
  let v := eval vm_compute in (template_segments tmpl) in
  replace (template_segments tmpl) with v by (vm_compute; reflexivity);
  cbn [fill option_map]; reflexivity.

Ltac lex_closed :=
  match goal with
  | |- context [lex_run ?m ?p ?o] =>
      lazymatch p with
      | String _ _ =>
          let v := eval vm_compute in (lex_run m p o) in
          replace (lex_run m p o) with v by (vm_compute; reflexivity)
      end
  end.

Ltac decode_template :=
  unfold json_loads, tokenize;
  repeat (rewrite lex_run_app;
          first [ lex_closed | rewrite lex_run_plain by assumption ];
          cbv iota beta);
  try lex_closed; cbv iota beta;
  vm_compute; reflexivity.

Ltac roundtrip tmpl :=
  intros; eexists; split; [ segments_of tmpl | decode_template ].

Lemma prompt_start_roundtrip (p v : string) :
  plain p = true -> plain v = true ->
  exists w, encode (PromptStart p v) = Some w
            /\ json_loads w = Some (document (PromptStart p v)).
Proof. unfold encode. roundtrip START_PROMPT_EVENT. Qed.

Lemma content_start_text_roundtrip (p c r : string) :
  plain p = true -> plain c = true -> plain r = true ->
  exists w, encode (ContentStartText p c r) = Some w
            /\ json_loads w = Some (document (ContentStartText p c r)).
Proof. unfold encode. roundtrip TEXT_CONTENT_START_EVENT. Qed.

Lemma text_input_roundtrip (p c t : string) :
  plain p = true -> plain c = true -> plain t = true ->
  exists w, encode (TextInput p c t) = Some w
            /\ json_loads w = Some (document (TextInput p c t)).
Proof. unfold encode. roundtrip TEXT_INPUT_EVENT. Qed.

Lemma content_start_audio_roundtrip (p c : string) :
  plain p = true -> plain c = true ->
  exists w, encode (ContentStartAudio p c) = Some w
            /\ json_loads w = Some (document (ContentStartAudio p c)).
Proof. unfold encode. roundtrip CONTENT_START_EVENT. Qed.

Lemma audio_input_roundtrip (p c : string) (audio : bytes) :
  plain p = true -> plain c = true ->
  exists w, encode (AudioInput p c audio) = Some w
            /\ json_loads w = Some (document (AudioInput p c audio)).
Proof.
  intros Hp Hc. pose proof (b64encode_plain audio) as Hb.
  unfold encode, document.
  generalize dependent (Base64.b64encode audio). intros blob Hb.
  eexists; split; [ segments_of AUDIO_EVENT_TEMPLATE | decode_template ].
Qed.

Lemma content_end_roundtrip (p c : string) :
  plain p = true -> plain c = true ->
  exists w, encode (ContentEnd p c) = Some w
            /\ json_loads w = Some (document (ContentEnd p c)).
Proof. unfold encode. roundtrip CONTENT_END_EVENT. Qed.

Lemma prompt_end_roundtrip (p : string) :
  plain p = true ->
  exists w, encode (PromptEnd p) = Some w
            /\ json_loads w = Some (document (PromptEnd p)).
Proof. unfold encode. roundtrip PROMPT_END_EVENT. Qed.

(** C4, as amended.  For every outbound event whose text fields hold no
    double quote, no backslash and no control character, the text the
    templates produce is decoded by [json.loads] to the document that
    holds exactly the values put in, so every required field is
    recovered. *)
Theorem encode_decode_plain_fields (ev : wire_event) :
  forallb plain (text_fields ev) = true ->
  exists w, encode ev = Some w /\ json_loads w = Some (document ev).
Proof.
  destruct ev; simpl; intros H;
    repeat (apply andb_true_iff in H; destruct H as [? H]).
  - eexists; split; [reflexivity | vm_compute; reflexivity].
  - now apply prompt_start_roundtrip.
  - now apply content_start_text_roundtrip.
  - now apply text_input_roundtrip.
  - now apply content_start_audio_roundtrip.
  - now apply audio_input_roundtrip.
  - now apply content_end_roundtrip.
  - now apply prompt_end_roundtrip.
  - eexists; split; [reflexivity | vm_compute; reflexivity].
Qed.

Lemma encode_decode_plain_fields_witness :
  exists w, encode (TextInput "p1" "c1" "hello") = Some w
            /\ json_loads w = Some (document (TextInput "p1" "c1" "hello")).
Proof. apply (encode_decode_plain_fields (TextInput "p1" "c1" "hello")). reflexivity. Defined.

(** C4 fails as stated: a system prompt that holds a double quote is put
    into the template as it is, and the text sent is not JSON at all; one
    that holds the two characters backslash and n is decoded to a line
    feed. *)
Lemma encode_decode_counterexample :
  (exists w, encode (TextInput "p1" "c1" quoted_prompt) = Some w
             /\ json_loads w = None)
  /\ (exists w, encode (TextInput "p1" "c1" "a\nb") = Some w
                /\ json_loads w <> Some (document (TextInput "p1" "c1" "a\nb"))).
Proof.
  split; eexists; (split; [vm_compute; reflexivity|]).
  - vm_compute. reflexivity.
  - vm_compute. discriminate.
Qed.



(** ** Base64 *)

Lemma sextet_value_sextet (n : N) : (n < 64)%N -> Base64.sextet_value (Base64.sextet n) = Some n.
Proof.
  intros H.
  assert (E : forall k, (k < 64)%nat -> Base64.sextet_value (Base64.sextet (N.of_nat k)) = Some (N.of_nat k)).
  { intros k Hk. do 64 (destruct k as [|k]; [reflexivity|]). lia. }
  rewrite <- (N2Nat.id n). apply E. lia.
Qed.

Lemma byte_of_to_N (b : Byte.byte) : Base64.byte_of (Byte.to_N b) = b.
Proof. unfold Base64.byte_of. now rewrite Byte.of_to_N. Qed.

Ltac euclid := zify; Z.to_euclidean_division_equations; lia.

(** Decoding the base64 text of a buffer gives the buffer back. *)
Lemma b64_roundtrip (bs : list Byte.byte) : Base64.b64decode_strict (Base64.b64encode bs) = Some bs.
Proof.
  assert (H : forall n (l : list Byte.byte), (length l < n)%nat ->
                Base64.b64decode_strict (Base64.b64encode l) = Some l).
  { induction n as [|n IH]; intros l Hl; [lia|].
    destruct l as [|a [|b [|c r]]].
    - reflexivity.
    - cbn [Base64.b64encode Base64.b64decode_strict].
      pose proof (Byte.to_N_bounded a) as Ha.
      set (x := Byte.to_N a) in *.
      rewrite !sextet_value_sextet by euclid.
      cbn.
      replace ((x mod 4 * 16) mod 16 =? 0)%N with true by (symmetry; apply N.eqb_eq; euclid).
      replace (x / 4 * 4 + x mod 4 * 16 / 16)%N with x by euclid.
      unfold x. now rewrite byte_of_to_N.
    - cbn [Base64.b64encode Base64.b64decode_strict].
      pose proof (Byte.to_N_bounded a) as Ha. pose proof (Byte.to_N_bounded b) as Hb.
      set (x := Byte.to_N a) in *. set (y := Byte.to_N b) in *.
      rewrite !sextet_value_sextet by euclid.
      cbn.
      replace ((y mod 16 * 4) mod 4 =? 0)%N with true by (symmetry; apply N.eqb_eq; euclid).
      replace (x / 4 * 4 + (x mod 4 * 16 + y / 16) / 16)%N with x by euclid.
      replace ((x mod 4 * 16 + y / 16) mod 16 * 16 + y mod 16 * 4 / 4)%N with y by euclid.
      unfold x, y. now rewrite !byte_of_to_N.
    - cbn [Base64.b64encode Base64.b64decode_strict].
      pose proof (Byte.to_N_bounded a) as Ha. pose proof (Byte.to_N_bounded b) as Hb.
      pose proof (Byte.to_N_bounded c) as Hc.
      set (x := Byte.to_N a) in *. set (y := Byte.to_N b) in *. set (z := Byte.to_N c) in *.
      rewrite !sextet_value_sextet by euclid.
      rewrite IH by (simpl in Hl; lia). cbn [option_map].
      replace (x / 4 * 4 + (x mod 4 * 16 + y / 16) / 16)%N with x by euclid.
      replace ((x mod 4 * 16 + y / 16) mod 16 * 16 + (y mod 16 * 4 + z / 64) / 4)%N with y by euclid.
      replace ((y mod 16 * 4 + z / 64) mod 4 * 64 + z mod 64)%N with z by euclid.
      unfold x, y, z. now rewrite !byte_of_to_N. }
  apply (H (S (length bs))). lia.
Qed.

(** ** The fuel of the parser *)

Section ParserFuel.
Local Open Scope nat_scope.

Lemma parse_unfold_value (f : nat) (ts : list token) :
  parse_value (S f) ts =
      match ts with
      | TString s :: r => Some (JStr s, r)
      | TNumber n :: r => Some (JNum n, r)
      | TTrue :: r => Some (JBool true, r)
      | TFalse :: r => Some (JBool false, r)
      | TNull :: r => Some (JNull, r)
      | TLBrack :: TRBrack :: r => Some (JArr [], r)
      | TLBrack :: r => parse_items f r []
      | TLBrace :: TRBrace :: r => Some (JObj [], r)
      | TLBrace :: r => parse_members f r []
      | _ => None
      end.
Proof. reflexivity. Qed.

Lemma parse_unfold_items (f : nat) (ts : list token) (acc : list value) :
  parse_items (S f) ts acc =
      match parse_value f ts with
      | Some (v, TComma :: r) => parse_items f r (v :: acc)
      | Some (v, TRBrack :: r) => Some (JArr (rev (v :: acc)), r)
      | _ => None
      end.
Proof. reflexivity. Qed.

Lemma parse_unfold_members (f : nat) (ts : list token)
    (acc : list (string * value)) :
  parse_members (S f) ts acc =
      match ts with
      | TString k :: TColon :: r =>
          match parse_value f r with
          | Some (v, TComma :: r') => parse_members f r' (dict_set k v acc)
          | Some (v, TRBrace :: r') => Some (JObj (dict_set k v acc), r')
          | _ => None
          end
      | _ => None
      end.
Proof. reflexivity. Qed.

(** Every parser consumes at least one token. *)
Lemma parse_consumes (f : nat) :
  (forall ts v rest, parse_value f ts = Some (v, rest) -> length rest < length ts)
  /\ (forall ts acc v rest, parse_items f ts acc = Some (v, rest) -> length rest < length ts)
  /\ (forall ts acc v rest, parse_members f ts acc = Some (v, rest) -> length rest < length ts).
Proof.
  induction f as [|f (IHv & IHi & IHm)]; [repeat split; intros; discriminate|].
  repeat split.
  - intros ts v rest H. rewrite parse_unfold_value in H.
    destruct ts as [|[] ts]; try discriminate;
      try (injection H as <- <-; simpl; lia).
    + destruct ts as [|[] ts]; try (apply IHm in H; simpl in *; lia).
      injection H as <- <-; simpl; lia.
    + destruct ts as [|[] ts]; try (apply IHi in H; simpl in *; lia).
      injection H as <- <-; simpl; lia.
  - intros ts acc v rest H. rewrite parse_unfold_items in H.
    destruct (parse_value f ts) as [[v' [|[] r]]|] eqn:E; try discriminate;
      apply IHv in E; simpl in E.
    + injection H as <- <-. lia.
    + apply IHi in H. lia.
  - intros ts acc v rest H. rewrite parse_unfold_members in H.
    destruct ts as [|[] [|[] r]]; try discriminate.
    destruct (parse_value f r) as [[v' [|[] r']]|] eqn:E; try discriminate;
      apply IHv in E; simpl in *.
    + injection H as <- <-. lia.
    + apply IHm in H. lia.
Qed.

Lemma parse_stable (f : nat) :
  (forall ts f', 2 * length ts + 1 <= f -> f <= f' -> parse_value f' ts = parse_value f ts)
  /\ (forall ts acc f', 2 * length ts + 2 <= f -> f <= f' -> parse_items f' ts acc = parse_items f ts acc)
  /\ (forall ts acc f', 2 * length ts + 2 <= f -> f <= f' -> parse_members f' ts acc = parse_members f ts acc).
Proof.
  induction f as [|f (IHv & IHi & IHm)]; [repeat split; intros; lia|].
  destruct (parse_consumes f) as (Cv & Ci & Cm).
  repeat split.
  - intros ts f' Hb Hle. destruct f' as [|f']; [lia|].
    rewrite !parse_unfold_value.
    destruct ts as [|[] ts]; try reflexivity.
    + destruct ts as [|[] ts]; try reflexivity; apply IHm; simpl in *; lia.
    + destruct ts as [|[] ts]; try reflexivity; apply IHi; simpl in *; lia.
  - intros ts acc f' Hb Hle. destruct f' as [|f']; [lia|].
    rewrite !parse_unfold_items.
    rewrite (IHv ts f') by lia.
    destruct (parse_value f ts) as [[v' [|[] r]]|] eqn:E; try reflexivity.
    apply Cv in E. simpl in E. apply IHi; lia.
  - intros ts acc f' Hb Hle. destruct f' as [|f']; [lia|].
    rewrite !parse_unfold_members.
    destruct ts as [|[] [|[] r]]; try reflexivity.
    rewrite (IHv r f') by (simpl in *; lia).
    destruct (parse_value f r) as [[v' [|[] r']]|] eqn:E; try reflexivity.
    apply Cv in E. simpl in *. apply IHm; lia.
Qed.

(** The fuel [json_loads] gives is enough: more fuel changes nothing. *)
Lemma parse_fuel_enough (ts : list token) (f : nat) :
  2 * length ts + 2 <= f ->
  parse_value f ts = parse_value (2 * length ts + 2) ts.
Proof.
  intros H. apply (proj1 (parse_stable (2 * length ts + 2))); lia.
Qed.

End ParserFuel.

End CodecFacts.

(* ================================================================== *)
(** * Properties of the stream manager *)
(* ================================================================== *)

Module ManagerFacts.
Import PyStr Json Bedrock Samples CodecFacts.

Lemma set_console_id (s : Manager) : set_console (console s) s = s.
Proof. destruct s; reflexivity. Qed.

Lemma quiet_refl (s : Manager) : quiet s s.
Proof. exists []. rewrite app_nil_r. now rewrite set_console_id. Qed.

Lemma quiet_log (s : Manager) (l : line) :
  quiet s (set_console (console s ++ [l]) s).
Proof. now exists [l]. Qed.

Lemma quiet_trans (s1 s2 s3 : Manager) : quiet s1 s2 -> quiet s2 s3 -> quiet s1 s3.
Proof.
  intros [l1 H1] [l2 H2]. exists (l1 ++ l2). subst.
  destruct s1; simpl. now rewrite app_assoc.
Qed.

Lemma quiet_wire (s s' : Manager) : quiet s s' -> wire s' = wire s.
Proof. intros [l ->]. reflexivity. Qed.

(** ** Sending on a session that is not active *)

Lemma send_raw_event_inactive (ev : string) (s : Manager) :
  stream_response s = None \/ is_active s = false ->
  send_raw_event ev s
  = (Ret tt,
     set_console (console s ++ [Debug "Stream not initialized or closed"]) s).
Proof.
  intros H. unfold send_raw_event, bind, get.
  destruct H as [H|H]; rewrite H; simpl.
  - reflexivity.
  - destruct (stream_response s); reflexivity.
Qed.

Lemma content_start_text (a b : string) :
  exists r, encode (ContentStartAudio a b) = Some r
            /\ forall s, percent CONTENT_START_EVENT [a; b] s = (Ret r, s).
Proof. eapply percent_ok; [vm_compute; reflexivity | reflexivity]. Qed.

Lemma audio_event_text (a b c : string) :
  exists r, format_percent AUDIO_EVENT_TEMPLATE [a; b; c] = Some r
            /\ forall s, percent AUDIO_EVENT_TEMPLATE [a; b; c] s = (Ret r, s).
Proof. eapply percent_ok; [vm_compute; reflexivity | reflexivity]. Qed.

Lemma start_event_silent (s : Manager) :
  is_active s = false ->
  result_of (send_audio_content_start_event s) = Ret tt
  /\ quiet s (state_of (send_audio_content_start_event s)).
Proof.
  intros H. unfold send_audio_content_start_event, bind, get.
  destruct (content_start_text (prompt_name (cfg s)) (audio_content_name (cfg s)))
    as [r [_ Hr]].
  rewrite Hr, send_raw_event_inactive by auto.
  split; [reflexivity | apply quiet_log].
Qed.

Lemma handle_audio_silent (audio : bytes) (s : Manager) :
  is_active s = false ->
  result_of (_handle_audio_input audio s) = Ret tt
  /\ quiet s (state_of (_handle_audio_input audio s)).
Proof.
  intros H. unfold _handle_audio_input. destruct audio as [|b audio].
  - split; [reflexivity | apply quiet_log].
  - set (bs := b :: audio).
    unfold try_except, bind, get, log, modify.
    destruct (audio_event_text (prompt_name (cfg s)) (audio_content_name (cfg s))
                (Base64.b64encode bs)) as [r [_ Hr]].
    cbn [cfg set_console]. rewrite Hr, send_raw_event_inactive by auto.
    split; [reflexivity|]. simpl.
    eapply quiet_trans; apply quiet_log.
Qed.

Lemma add_chunk_silent (audio : bytes) (s : Manager) :
  is_active s = false ->
  result_of (add_audio_chunk audio s) = Ret tt
  /\ quiet s (state_of (add_audio_chunk audio s)).
Proof.
  intros H. unfold add_audio_chunk, bind, get, when.
  destruct (is_stopped (audio_subject s)); [split; [reflexivity | apply quiet_refl]|].
  destruct (observed (audio_subject s)); [now apply handle_audio_silent|].
  split; [reflexivity | apply quiet_refl].
Qed.

Lemma end_events_silent (s : Manager) :
  is_active s = false ->
  Forall (fun op : M unit => result_of (op s) = Ret tt /\ quiet s (state_of (op s)))
    [send_audio_content_end_event; send_prompt_end_event; send_session_end_event].
Proof.
  intros H.
  repeat (apply Forall_cons; [split|]); try apply Forall_nil;
    unfold send_audio_content_end_event, send_prompt_end_event,
      send_session_end_event, bind, get; rewrite H; simpl;
    first [reflexivity | apply quiet_log].
Qed.

(** C9.  When the stream is not initialized or the session is not active,
    [send_raw_event] returns normally, hands nothing to the transport and
    changes nothing but the console; so on a session that is not active
    every send operation (content start, audio chunk, the three end
    events) is such a silent no-op. *)
Theorem inactive_session_sends_nothing (s : Manager) :
  (forall ev, stream_response s = None \/ is_active s = false ->
              result_of (send_raw_event ev s) = Ret tt
              /\ quiet s (state_of (send_raw_event ev s))
              /\ wire (state_of (send_raw_event ev s)) = wire s)
  /\ (is_active s = false ->
      forall audio,
        Forall (fun op : M unit =>
                  result_of (op s) = Ret tt
                  /\ quiet s (state_of (op s))
                  /\ wire (state_of (op s)) = wire s)
          [send_audio_content_start_event; _handle_audio_input audio;
           add_audio_chunk audio; send_audio_content_end_event;
           send_prompt_end_event; send_session_end_event]).
Proof.
  assert (W : forall (op : M unit),
             result_of (op s) = Ret tt /\ quiet s (state_of (op s)) ->
             result_of (op s) = Ret tt /\ quiet s (state_of (op s))
             /\ wire (state_of (op s)) = wire s).
  { intros op [H1 H2]. repeat split; auto. now apply quiet_wire. }
  split.
  - intros ev H. apply (W (send_raw_event ev)).
    rewrite send_raw_event_inactive by assumption.
    split; [reflexivity | apply quiet_log].
  - intros H audio.
    pose proof (end_events_silent s H) as E.
    inversion_clear E as [|? ? E1 E']. inversion_clear E' as [|? ? E2 E''].
    inversion_clear E'' as [|? ? E3 _].
    repeat (apply Forall_cons; [apply W|]); try apply Forall_nil;
      auto using start_event_silent, handle_audio_silent, add_chunk_silent.
Qed.

Lemma inactive_session_sends_nothing_witness :
  (result_of (send_raw_event SESSION_END_EVENT (new_manager sample_config calm))
   = Ret tt
   /\ quiet (new_manager sample_config calm)
        (state_of (send_raw_event SESSION_END_EVENT
                     (new_manager sample_config calm)))
   /\ wire (state_of (send_raw_event SESSION_END_EVENT
                        (new_manager sample_config calm)))
      = wire (new_manager sample_config calm))
  /\ Forall (fun op : M unit =>
               result_of (op (new_manager sample_config calm)) = Ret tt
               /\ quiet (new_manager sample_config calm)
                    (state_of (op (new_manager sample_config calm)))
               /\ wire (state_of (op (new_manager sample_config calm)))
                  = wire (new_manager sample_config calm))
       [send_audio_content_start_event; _handle_audio_input [Byte.x01];
        add_audio_chunk [Byte.x01]; send_audio_content_end_event;
        send_prompt_end_event; send_session_end_event].
Proof.
  split.
  - apply (proj1 (inactive_session_sends_nothing (new_manager sample_config calm))).
    right. reflexivity.
  - apply (proj2 (inactive_session_sends_nothing (new_manager sample_config calm))).
    reflexivity.
Defined.


(** ** [close] *)

Ltac run_close :=
  unfold close, send_audio_content_end_event, send_prompt_end_event,
    send_session_end_event, input_stream_close, subject_on_completed,
    debug_print, log, notify, when, bind, get, modify, ret, raise;
  cbn.

Lemma close_inactive (s : Manager) : is_active s = false -> close s = (Ret tt, s).
Proof. intros H. unfold close, bind, get. now rewrite H. Qed.

Lemma close_deactivates (s : Manager) : is_active (state_of (close s)) = false.
Proof.
  destruct (is_active s) eqn:Ha; [|now rewrite close_inactive].
  destruct s as [c bc sr ia bi rt q da ro [ist iex iob] osub [ast aex aob]
                   [cr srs clr] w co no].
  simpl in Ha. subst ia. run_close.
  destruct ist, ast, rt as [[| |]|], sr as [u|], clr as [e|]; reflexivity.
Qed.

(** What [close] leaves on the wire of a session that was active: the
    record of [input_stream.close()], and nothing else. *)
Lemma close_wire (s : Manager) :
  is_active s = true ->
  wire (state_of (close s))
  = wire s ++ match stream_response s with
              | None => []
              | Some _ => [match close_reply (env s) with
                           | None => InputClosed
                           | Some e => CloseFailed e
                           end]
              end
  /\ console (state_of (close s))
     = console s ++ [Debug "Stream is not active"; Debug "Stream is not active";
                     Debug "Stream is not active"].
Proof.
  intros Ha.
  destruct s as [c bc sr ia bi rt q da ro [ist iex iob] osub [ast aex aob]
                   [cr srs clr] w co no].
  simpl in Ha. subst ia. run_close.
  destruct ist, ast, rt as [[| |]|], sr as [u|], clr as [e|]; cbn;
    rewrite <- ?app_assoc, ?app_nil_r; split; reflexivity.
Qed.

Lemma attempted_app (w1 w2 : list wire_record) :
  attempted (w1 ++ w2) = attempted w1 ++ attempted w2.
Proof.
  induction w1 as [|[ev|ev e| |e] w1 IH]; simpl; rewrite ?IH; reflexivity.
Qed.

Lemma delivered_app (w1 w2 : list wire_record) :
  delivered (w1 ++ w2) = delivered w1 ++ delivered w2.
Proof.
  induction w1 as [|[ev|ev e| |e] w1 IH]; simpl; rewrite ?IH; reflexivity.
Qed.

(** C2, what the code does.  [close] on an active session sets
    [is_active] to false before it calls the three senders of the end
    events; each of them returns at its guard (the console gets the three
    notices), and no event is handed to the transport: the only record
    added to the wire is that of [input_stream.close()]. *)
Theorem close_transmits_no_end_event (s : Manager) :
  is_active s = true ->
  attempted (wire (state_of (close s))) = attempted (wire s)
  /\ console (state_of (close s))
     = console s ++ [Debug "Stream is not active"; Debug "Stream is not active";
                     Debug "Stream is not active"]
  /\ is_active (state_of (close s)) = false.
Proof.
  intros Ha. destruct (close_wire s Ha) as [Hw Hc].
  repeat split; [|exact Hc|apply close_deactivates].
  rewrite Hw, attempted_app.
  destruct (stream_response s); [destruct (close_reply (env s))|];
    simpl; apply app_nil_r.
Qed.

(** C6.  A second [close] does nothing: it returns normally and leaves
    the manager, the wire, the console and the subjects exactly as the
    first call left them; and [close] on a session that is not active
    performs no action at all. *)
Theorem close_twice_is_close_once (s : Manager) :
  close (state_of (close s)) = (Ret tt, state_of (close s))
  /\ (is_active s = false -> close s = (Ret tt, s)).
Proof.
  split; [|apply close_inactive].
  apply close_inactive, close_deactivates.
Qed.

(** ** Sending on an active session *)

Lemma outcomes_app (a b : list string) (r : list (option exn)) :
  outcomes (a ++ b) r = outcomes a r ++ outcomes b (skipn (length a) r).
Proof.
  revert r. induction a as [|x a IH]; intros r; simpl.
  - reflexivity.
  - destruct r as [|[e|] r]; simpl; rewrite IH; try reflexivity.
    now rewrite skipn_nil.
Qed.

Lemma sends_nil (s : Manager) : sends s [] s.
Proof. unfold sends. simpl. rewrite app_nil_r. repeat split; reflexivity. Qed.

Lemma sends_app (s s1 s2 : Manager) (a b : list string) :
  sends s a s1 -> sends s1 b s2 -> sends s (a ++ b) s2.
Proof.
  unfold sends.
  intros (W1 & R1 & C1 & L1 & G1 & S1 & A1 & T1) (W2 & R2 & C2 & L2 & G2 & S2 & A2 & T2).
  repeat split; try congruence.
  - rewrite W2, W1, R1, outcomes_app, app_assoc. reflexivity.
  - rewrite R2, R1, skipn_skipn, length_app. f_equal. lia.
Qed.

(** On an active session with a stream, [send_raw_event] hands the event
    to the transport and returns normally whatever the transport
    answers. *)
Lemma send_raw_event_active (ev : string) (s : Manager) :
  stream_response s <> None -> is_active s = true ->
  exists s', send_raw_event ev s = (Ret tt, s') /\ sends s [ev] s'.
Proof.
  intros Hs Ha.
  destruct s as [c bc sr ia bi rt q da ro isub osub asub [cr srs clr] w co no].
  simpl in *. subst ia. destruct sr as [u|]; [|congruence]. clear Hs.
  unfold send_raw_event, try_except, input_stream_send, bind, get.
  cbn -[event_type_keys py_len Nat.ltb].
  destruct srs as [|[e|] srs]; cbn -[event_type_keys py_len Nat.ltb].
  all: unfold when, lift_result, log, subject_on_error, bind, get, modify,
         when, notify, observer_on_error, log, modify, ret;
       cbn -[event_type_keys py_len Nat.ltb].
  all: destruct (DEBUG c); cbn -[event_type_keys py_len Nat.ltb].
  all: try destruct (200 <? py_len ev)%nat; cbn -[event_type_keys py_len Nat.ltb].
  all: try destruct (event_type_keys ev); cbn -[event_type_keys py_len Nat.ltb].
  all: try (destruct isub as [st ex ob]; destruct st; destruct ob;
            cbn -[event_type_keys py_len Nat.ltb]).
  all: eexists; split; [reflexivity|]; unfold sends; cbn; repeat split; reflexivity.
Qed.

Lemma for_each_sends (evs : list string) : forall (s : Manager),
  stream_response s <> None -> is_active s = true ->
  exists s', for_each evs send_raw_event s = (Ret tt, s') /\ sends s evs s'.
Proof.
  induction evs as [|ev evs IH]; intros s Hs Ha.
  - exists s. split; [reflexivity | apply sends_nil].
  - destruct (send_raw_event_active ev s Hs Ha) as (s1 & E1 & S1).
    assert (Hs1 : stream_response s1 <> None)
      by (destruct S1 as (_ & _ & _ & _ & _ & -> & _); exact Hs).
    assert (Ha1 : is_active s1 = true)
      by (destruct S1 as (_ & _ & _ & _ & _ & _ & -> & _); exact Ha).
    destruct (IH s1 Hs1 Ha1) as (s2 & E2 & S2).
    exists s2. split.
    + simpl. unfold bind. now rewrite E1.
    + apply (sends_app s s1 s2 [ev] evs); assumption.
Qed.

(** C7, as amended.  On an active session a second call of
    [send_audio_content_start_event] with no end of the audio content in
    between hands the same content-start event to the transport again and
    returns normally, as the first did: no error is signalled. *)
Theorem content_start_is_resent (s : Manager) :
  stream_response s <> None -> is_active s = true ->
  exists ev s1 s2,
    encode (ContentStartAudio (prompt_name (cfg s)) (audio_content_name (cfg s)))
    = Some ev
    /\ send_audio_content_start_event s = (Ret tt, s1)
    /\ send_audio_content_start_event s1 = (Ret tt, s2)
    /\ wire s2 = wire s ++ outcomes [ev; ev] (send_replies (env s)).
Proof.
  intros Hs Ha.
  destruct (content_start_text (prompt_name (cfg s)) (audio_content_name (cfg s)))
    as (ev & Hev & Hp).
  destruct (send_raw_event_active ev s Hs Ha) as (s1 & E1 & S1).
  pose proof S1 as (_ & _ & _ & _ & G1 & R1 & A1 & _).
  assert (Hs1 : stream_response s1 <> None) by now rewrite R1.
  assert (Ha1 : is_active s1 = true) by now rewrite A1.
  destruct (send_raw_event_active ev s1 Hs1 Ha1) as (s2 & E2 & S2).
  exists ev, s1, s2. repeat split.
  - exact Hev.
  - unfold send_audio_content_start_event, bind, get. now rewrite Hp.
  - unfold send_audio_content_start_event, bind, get. now rewrite G1, Hp.
  - pose proof (sends_app s s1 s2 [ev] [ev] S1 S2) as (W & _). exact W.
Qed.

Lemma content_start_is_resent_witness :
  exists ev s1 s2,
    encode (ContentStartAudio "prompt-1" "audio-1") = Some ev
    /\ send_audio_content_start_event (live sample_config calm) = (Ret tt, s1)
    /\ send_audio_content_start_event s1 = (Ret tt, s2)
    /\ wire s2 = [] ++ outcomes [ev; ev] [].
Proof.
  apply (content_start_is_resent (live sample_config calm)).
  - discriminate.
  - reflexivity.
Defined.

(** C7 fails as stated: the second call returns normally and the
    transport gets the content-start event twice. *)
Lemma content_start_twice_counterexample :
  result_of (send_audio_content_start_event
               (state_of (send_audio_content_start_event (live sample_config calm))))
  = Ret tt
  /\ exists ev,
       encode (ContentStartAudio "prompt-1" "audio-1") = Some ev
       /\ wire (state_of (send_audio_content_start_event
                            (state_of (send_audio_content_start_event
                                         (live sample_config calm)))))
          = [Delivered ev; Delivered ev].
Proof.
  split; [vm_compute; reflexivity|].
  eexists. split; vm_compute; reflexivity.
Qed.

(** ** [initialize_stream] *)

Lemma init_events_ok (c : Config) :
  exists evs, map encode (five_events c) = map Some evs
              /\ forall s, init_events c s = (Ret evs, s).
Proof.
  destruct (percent_ok START_PROMPT_EVENT _ [prompt_name c; voice_id c]
              ltac:(vm_compute; reflexivity) eq_refl) as (e2 & F2 & P2).
  destruct (percent_ok TEXT_CONTENT_START_EVENT _
              [prompt_name c; content_name c; "SYSTEM"]
              ltac:(vm_compute; reflexivity) eq_refl) as (e3 & F3 & P3).
  destruct (percent_ok TEXT_INPUT_EVENT _
              [prompt_name c; content_name c; system_prompt c]
              ltac:(vm_compute; reflexivity) eq_refl) as (e4 & F4 & P4).
  destruct (percent_ok CONTENT_END_EVENT _ [prompt_name c; content_name c]
              ltac:(vm_compute; reflexivity) eq_refl) as (e5 & F5 & P5).
  exists [START_SESSION_EVENT; e2; e3; e4; e5]. split.
  - unfold five_events, encode. cbn [map]. now rewrite F2, F3, F4, F5.
  - intros s. unfold init_events, bind. now rewrite P2, P3, P4, P5.
Qed.

(** The end of [initialize_stream], after the sends (lines 212-232). *)
Lemma after_sends (s : Manager) :
  exists s',
    (modify (set_response_task (Some TaskRunning)) ;;
     subject_subscribe InputSubject ;;
     subject_subscribe AudioSubject ;;
     debug_print "Stream initialized successfully") s = (Ret tt, s')
    /\ wire s' = wire s /\ is_active s' = is_active s
    /\ response_task s' = Some TaskRunning.
Proof.
  destruct s as [c bc sr ia bi rt q da ro [ist iex iob] osub [ast aex aob]
                   ev w co no].
  unfold subject_subscribe, observer_on_error, debug_print, log, bind, get,
    modify, ret. cbn.
  destruct ist, ast, iex as [e1|], aex as [e2|]; cbn;
    eexists; (split; [reflexivity|]); repeat split; reflexivity.
Qed.

(** What [send_raw_event] tells [input_subject], on an active session
    with a stream. *)
Lemma send_raw_event_report (ev : string) (s : Manager) :
  stream_response s <> None -> is_active s = true ->
  exists s',
    send_raw_event ev s = (Ret tt, s')
    /\ sends s [ev] s'
    /\ notifications s'
       = notifications s
         ++ reported s (send_failure (cfg s) ev (hd None (send_replies (env s))))
    /\ is_stopped (input_subject s')
       = (is_stopped (input_subject s)
          || match send_failure (cfg s) ev (hd None (send_replies (env s))) with
             | Some _ => true
             | None => false
             end).
Proof.
  intros Hs Ha.
  destruct s as [c bc sr ia bi rt q da ro isub osub asub [cr srs clr] w co no].
  simpl in *. subst ia. destruct sr as [u|]; [|congruence]. clear Hs.
  unfold send_raw_event, try_except, input_stream_send, reported, send_failure,
    bind, get.
  cbn -[event_type_keys py_len Nat.ltb].
  destruct srs as [|[e|] srs]; cbn -[event_type_keys py_len Nat.ltb].
  all: unfold when, lift_result, log, subject_on_error, bind, get, modify,
         when, notify, observer_on_error, log, modify, ret;
       cbn -[event_type_keys py_len Nat.ltb].
  all: destruct (DEBUG c); cbn -[event_type_keys py_len Nat.ltb].
  all: try destruct (200 <? py_len ev)%nat; cbn -[event_type_keys py_len Nat.ltb].
  all: try destruct (event_type_keys ev); cbn -[event_type_keys py_len Nat.ltb].
  all: try (destruct isub as [st ex ob]; destruct st; destruct ob;
            cbn -[event_type_keys py_len Nat.ltb]).
  all: eexists; split; [reflexivity|]; unfold sends; cbn;
       rewrite ?app_nil_r, ?orb_false_r, ?orb_true_r;
       repeat split; reflexivity.
Qed.

Lemma for_each_report (evs : list string) : forall (s : Manager),
  stream_response s <> None -> is_active s = true ->
  exists s',
    for_each evs send_raw_event s = (Ret tt, s')
    /\ sends s evs s'
    /\ notifications s'
       = notifications s
         ++ reported s (first_failure (cfg s) evs (send_replies (env s)))
    /\ is_stopped (input_subject s')
       = (is_stopped (input_subject s)
          || match first_failure (cfg s) evs (send_replies (env s)) with
             | Some _ => true
             | None => false
             end).
Proof.
  induction evs as [|ev evs IH]; intros s Hs Ha.
  - exists s. split; [reflexivity|]. split; [apply sends_nil|].
    cbn. now rewrite app_nil_r, orb_false_r.
  - destruct (send_raw_event_report ev s Hs Ha) as (s1 & E1 & S1 & N1 & T1).
    pose proof S1 as (_ & R1 & _ & _ & G1 & SR1 & A1 & _).
    assert (Hs1 : stream_response s1 <> None) by now rewrite SR1.
    assert (Ha1 : is_active s1 = true) by now rewrite A1.
    destruct (IH s1 Hs1 Ha1) as (s2 & E2 & S2 & N2 & T2).
    exists s2. split; [simpl; unfold bind; now rewrite E1|].
    split; [apply (sends_app s s1 s2 [ev] evs); assumption|].
    assert (R1' : send_replies (env s1) = tl (send_replies (env s)))
      by (rewrite R1; destruct (send_replies (env s)); reflexivity).
    rewrite G1, R1' in N2, T2. cbn [first_failure].
    destruct (send_failure (cfg s) ev (hd None (send_replies (env s)))) as [e|].
    + rewrite orb_true_r in T1. split.
      * rewrite N2, N1. unfold reported at 2. rewrite T1.
        destruct (first_failure (cfg s) evs (tl (send_replies (env s))));
          cbn; now rewrite app_nil_r.
      * rewrite T2, T1. now rewrite orb_true_r.
    + rewrite orb_false_r in T1. cbn [reported] in N1. rewrite app_nil_r in N1.
      split.
      * rewrite N2, N1. unfold reported. now rewrite T1.
      * rewrite T2, T1. reflexivity.
Qed.

(** A refusal among the first replies is a failure. *)
Lemma refusal_is_failure (c : Config) (evs : list string) :
  forall (replies : list (option exn)) (k : nat) (e : exn),
  k < length evs -> nth_error replies k = Some (Some e) ->
  first_failure c evs replies <> None.
Proof.
  induction evs as [|ev evs IH]; intros replies k e Hk Hn; [inversion Hk|].
  cbn [first_failure].
  destruct k as [|k].
  - destruct replies as [|r replies]; [discriminate|].
    cbn in Hn. injection Hn as ->. cbn. discriminate.
  - destruct replies as [|r replies]; [discriminate|].
    cbn [hd tl]. cbn in Hn.
    destruct (send_failure c ev r); [discriminate|].
    apply (IH replies k e); [cbn in Hk; lia | exact Hn].
Qed.

(** The end of [initialize_stream] tells the subjects nothing and stops
    none. *)
Lemma after_sends_quiet (s : Manager) :
  exists s',
    (modify (set_response_task (Some TaskRunning)) ;;
     subject_subscribe InputSubject ;;
     subject_subscribe AudioSubject ;;
     debug_print "Stream initialized successfully") s = (Ret tt, s')
    /\ wire s' = wire s /\ is_active s' = is_active s
    /\ response_task s' = Some TaskRunning
    /\ notifications s' = notifications s
    /\ is_stopped (input_subject s') = is_stopped (input_subject s).
Proof.
  destruct s as [c bc sr ia bi rt q da ro [ist iex iob] osub [ast aex aob]
                   ev w co no].
  unfold subject_subscribe, observer_on_error, debug_print, log, bind, get,
    modify, ret. cbn.
  destruct ist, ast, iex as [e1|], aex as [e2|]; cbn;
    eexists; (split; [reflexivity|]); repeat split; reflexivity.
Qed.



(** ** The response loop *)

Section ResponseLoop.

Variable b64decode : string -> option bytes.

(** C5, as amended.  When [receive] raises while the session is active
    (StopAsyncIteration at the end of the stream, or any other error), the
    response loop exits and its task is done; [is_active] is left as it
    was, true; a receive error is given to [output_subject.on_error], and
    the end of the stream is given as [on_completed], not as an error
    (nothing is notified if the subject had stopped before). *)
Theorem stream_end_exits_loop (s : Manager) (e : exn) (inbound : list recv) :
  is_active s = true ->
  result_of (_process_responses b64decode (RecvRaises e :: inbound) s) = Ret Exited
  /\ is_active (state_of (_process_responses b64decode (RecvRaises e :: inbound) s))
     = true
  /\ response_task (state_of (_process_responses b64decode (RecvRaises e :: inbound) s))
     = Some TaskDone
  /\ notifications (state_of (_process_responses b64decode (RecvRaises e :: inbound) s))
     = notifications s
       ++ (if is_stopped (output_subject s) then []
           else [(OutputSubject, report_of e)]).
Proof.
  intros Ha.
  destruct s as [c bc sr ia bi rt q da ro isub [ost oex oob] asub ev w co no].
  simpl in Ha. subst ia.
  unfold _process_responses, response_iteration, receive_except,
    responses_finally, subject_on_error, subject_on_completed,
    observer_on_error, log, notify, when, bind, get, modify, ret.
  destruct e, ost, oob; cbn; rewrite ?app_nil_r; repeat split; reflexivity.
Qed.

End ResponseLoop.

Lemma stream_end_exits_loop_witness :
  result_of (_process_responses sample_b64decode [RecvRaises StopAsyncIteration]
               (live sample_config calm)) = Ret Exited
  /\ is_active (state_of (_process_responses sample_b64decode
                            [RecvRaises StopAsyncIteration]
                            (live sample_config calm))) = true
  /\ response_task (state_of (_process_responses sample_b64decode
                                [RecvRaises StopAsyncIteration]
                                (live sample_config calm))) = Some TaskDone
  /\ notifications (state_of (_process_responses sample_b64decode
                                [RecvRaises StopAsyncIteration]
                                (live sample_config calm)))
     = [] ++ [(OutputSubject, OnCompleted)].
Proof.
  apply (stream_end_exits_loop sample_b64decode (live sample_config calm)
           StopAsyncIteration []).
  reflexivity.
Defined.

(** C5 fails as stated: at the end of the stream the loop exits with
    [is_active] still true, and the observers are told the stream is
    completed, not that it failed. *)
Lemma stream_end_counterexample :
  is_active (state_of (_process_responses sample_b64decode
                         [RecvRaises StopAsyncIteration]
                         (live sample_config calm))) = true
  /\ notifications (state_of (_process_responses sample_b64decode
                                [RecvRaises StopAsyncIteration]
                                (live sample_config calm)))
     = [(OutputSubject, OnCompleted)]
  /\ is_active (state_of (_process_responses sample_b64decode
                            [RecvRaises (TransportError "connection reset")]
                            (live sample_config calm))) = true.
Proof. repeat split; vm_compute; reflexivity. Qed.

Section ContentStart.

Variable b64decode : string -> option bytes.

Lemma response_iteration_text (txt : string) :
  txt <> EmptyString ->
  response_iteration b64decode (RecvText txt)
  = try_except
      (match json_loads txt with
       | Some json_data => handle_json b64decode json_data
       | None => output_on_next (JObj [("raw_data", JStr txt)])
       end ;; ret Continue)
      receive_except.
Proof. destruct txt; [congruence | reflexivity]. Qed.

Lemma content_start_effect (s : Manager) (txt : string)
    (top ev cs : list (string * value)) (r : value) :
  txt <> EmptyString ->
  json_loads txt = Some (JObj top) ->
  dict_get "event" top = Some (JObj ev) ->
  dict_get "contentStart" ev = Some (JObj cs) ->
  dict_get "role" cs = Some r ->
  display_assistant_text (state_of (response_iteration b64decode (RecvText txt) s))
  = display_after cs (display_assistant_text s)
  /\ role (state_of (response_iteration b64decode (RecvText txt) s)) = r.
Proof.
  intros Hne Hj He Hc Hr.
  rewrite response_iteration_text by assumption. rewrite Hj.
  unfold display_after.
  destruct s as [c bc sr ia bi rt q da ro isub [ost oex oob] asub en w co no].
  unfold handle_json, on_content_start, try_except, receive_except,
    output_on_next, subject_on_error, observer_on_error, debug_print, log,
    notify, when, lift_result, py_in, py_getitem, bind, get, modify, ret, raise.
  rewrite He. cbn -[json_loads]. rewrite Hc. cbn -[json_loads].
  rewrite Hr. cbn -[json_loads].
  destruct (dict_get "additionalModelFields" cs) as [[| | | text | |]|];
    cbn -[json_loads];
    try (destruct ost, oob; cbn; split; reflexivity).
  destruct (json_loads text) as [[| | | | | fields]|]; cbn -[json_loads];
    try (destruct ost, oob; cbn; split; reflexivity).
  destruct (dict_get "generationStage" fields) as [stage|]; cbn;
    [destruct (is_str "SPECULATIVE" stage)|];
    destruct ost, oob; cbn; split; reflexivity.
Qed.

Lemma is_str_spec (text : string) (v : value) :
  is_str text v = true <-> v = JStr text.
Proof.
  destruct v; simpl; try (split; [discriminate | intros H; discriminate H]).
  rewrite String.eqb_eq. split; [now intros -> | now intros [= ->]].
Qed.

(** What the response loop does with a [contentStart]: how the turn of
    the loop ends, and the display flag and the role after it. *)
Lemma content_start_anatomy (s : Manager) (txt : string)
    (top ev : list (string * value)) (content_start : value) :
  txt <> EmptyString ->
  json_loads txt = Some (JObj top) ->
  dict_get "event" top = Some (JObj ev) ->
  dict_get "contentStart" ev = Some content_start ->
  (result_of (response_iteration b64decode (RecvText txt) s),
   display_assistant_text (state_of (response_iteration b64decode (RecvText txt) s)),
   role (state_of (response_iteration b64decode (RecvText txt) s)))
  = match content_start with
    | JObj cs =>
        match dict_get "role" cs with
        | None => (Ret Break, display_assistant_text s, role s)
        | Some r =>
            match dict_get "additionalModelFields" cs with
            | None => (Ret Continue, display_assistant_text s, r)
            | Some (JStr text) =>
                match json_loads text with
                | None => (Ret Continue, display_assistant_text s, r)
                | Some (JObj fields) =>
                    (Ret Continue,
                     match dict_get "generationStage" fields with
                     | Some stage => is_str "SPECULATIVE" stage
                     | None => false
                     end, r)
                | Some _ => (Ret Break, display_assistant_text s, r)
                end
            | Some _ => (Ret Break, display_assistant_text s, r)
            end
        end
    | _ => (Ret Break, display_assistant_text s, role s)
    end.
Proof.
  intros Hne Hj He Hc.
  rewrite response_iteration_text by assumption. rewrite Hj.
  destruct s as [c bc sr ia bi rt q da ro isub [ost oex oob] asub en w co no].
  unfold handle_json, on_content_start, try_except, receive_except,
    output_on_next, subject_on_error, observer_on_error, debug_print, log,
    notify, when, lift_result, py_in, py_getitem, bind, get, modify, ret, raise.
  rewrite He. cbn -[json_loads]. rewrite Hc. cbn -[json_loads].
  destruct content_start as [| | | |items|cs]; cbn -[json_loads];
    try (destruct ost, oob; reflexivity).
  destruct (dict_get "role" cs) as [r|]; cbn -[json_loads];
    [|destruct ost, oob; reflexivity].
  destruct (dict_get "additionalModelFields" cs) as [[| | | text | |]|];
    cbn -[json_loads];
    try (destruct ost, oob; reflexivity).
  destruct (json_loads text) as [[| | | | | fields]|]; cbn -[json_loads];
    try (destruct ost, oob; reflexivity).
  destruct (dict_get "generationStage" fields) as [stage|]; cbn;
    [destruct (is_str "SPECULATIVE" stage)|];
    destruct ost, oob; reflexivity.
Qed.

(** C8, as amended.  For an inbound [contentStart] event whose text, and
    the text of whose [additionalModelFields], are within the limits of
    [json.loads]:
    - when the [contentStart] is not an object or has no [role], the
      [KeyError] (or [TypeError]) ends the loop before the field is
      looked at: the display flag and the role are as they were;
    - otherwise the role is recorded, and the flag
      - is left as it was when there is no [additionalModelFields], or
        when it is a text that does not decode as JSON (the loop goes
        on), and when it is not a text or decodes to something that is
        not an object (the error ends the loop);
      - is set to true when the decoded object holds a [generationStage]
        equal to SPECULATIVE;
      - is set to false when the decoded object holds another
        [generationStage], or none. *)
Theorem content_start_sets_display (s : Manager) (txt : string)
    (top ev : list (string * value)) (content_start : value) :
  txt <> EmptyString ->
  within_limits txt = true ->
  json_loads txt = Some (JObj top) ->
  dict_get "event" top = Some (JObj ev) ->
  dict_get "contentStart" ev = Some content_start ->
  ((forall cs, content_start = JObj cs -> dict_get "role" cs = None) ->
   result_of (response_iteration b64decode (RecvText txt) s) = Ret Break
   /\ display_assistant_text (state_of (response_iteration b64decode (RecvText txt) s))
      = display_assistant_text s
   /\ role (state_of (response_iteration b64decode (RecvText txt) s)) = role s)
  /\ (forall cs r,
        content_start = JObj cs ->
        dict_get "role" cs = Some r ->
        role (state_of (response_iteration b64decode (RecvText txt) s)) = r
        /\ (dict_get "additionalModelFields" cs = None ->
            result_of (response_iteration b64decode (RecvText txt) s) = Ret Continue
            /\ display_assistant_text
                 (state_of (response_iteration b64decode (RecvText txt) s))
               = display_assistant_text s)
        /\ (forall v,
              dict_get "additionalModelFields" cs = Some v ->
              (forall text, v <> JStr text) ->
              result_of (response_iteration b64decode (RecvText txt) s) = Ret Break
              /\ display_assistant_text
                   (state_of (response_iteration b64decode (RecvText txt) s))
                 = display_assistant_text s)
        /\ (forall text,
              dict_get "additionalModelFields" cs = Some (JStr text) ->
              within_limits text = true ->
              json_loads text = None ->
              result_of (response_iteration b64decode (RecvText txt) s) = Ret Continue
              /\ display_assistant_text
                   (state_of (response_iteration b64decode (RecvText txt) s))
                 = display_assistant_text s)
        /\ (forall text v,
              dict_get "additionalModelFields" cs = Some (JStr text) ->
              within_limits text = true ->
              json_loads text = Some v ->
              (forall fields, v <> JObj fields) ->
              result_of (response_iteration b64decode (RecvText txt) s) = Ret Break
              /\ display_assistant_text
                   (state_of (response_iteration b64decode (RecvText txt) s))
                 = display_assistant_text s)
        /\ (forall text fields,
              dict_get "additionalModelFields" cs = Some (JStr text) ->
              within_limits text = true ->
              json_loads text = Some (JObj fields) ->
              dict_get "generationStage" fields = Some (JStr "SPECULATIVE") ->
              result_of (response_iteration b64decode (RecvText txt) s) = Ret Continue
              /\ display_assistant_text
                   (state_of (response_iteration b64decode (RecvText txt) s))
                 = true)
        /\ (forall text fields,
              dict_get "additionalModelFields" cs = Some (JStr text) ->
              within_limits text = true ->
              json_loads text = Some (JObj fields) ->
              dict_get "generationStage" fields <> Some (JStr "SPECULATIVE") ->
              result_of (response_iteration b64decode (RecvText txt) s) = Ret Continue
              /\ display_assistant_text
                   (state_of (response_iteration b64decode (RecvText txt) s))
                 = false)).
Proof.
  intros Hne _ Hj He Hc.
  pose proof (content_start_anatomy s txt top ev content_start Hne Hj He Hc) as A.
  split.
  - intros Hno.
    destruct content_start as [| | | |items|cs];
      try (injection A as A1 A2 A3; repeat split; assumption).
    rewrite (Hno cs eq_refl) in A.
    injection A as A1 A2 A3. repeat split; assumption.
  - intros cs r -> Hr. rewrite Hr in A.
    split; [|split; [|split; [|split; [|split; [|split]]]]].
    + destruct (dict_get "additionalModelFields" cs) as [[| | | text | |]|];
        try (injection A as _ _ A3; exact A3).
      destruct (json_loads text) as [[| | | | | fields]|];
        injection A as _ _ A3; exact A3.
    + intros Hf. rewrite Hf in A. injection A as A1 A2 _. now split.
    + intros v Hf Hv. rewrite Hf in A.
      destruct v as [| | |text| |]; try (injection A as A1 A2 _; now split).
      now destruct (Hv text).
    + intros text Hf _ Hl. rewrite Hf, Hl in A. injection A as A1 A2 _. now split.
    + intros text v Hf _ Hl Hv. rewrite Hf, Hl in A.
      destruct v as [| | | | |fields]; try (injection A as A1 A2 _; now split).
      now destruct (Hv fields).
    + intros text fields Hf _ Hl Hg. rewrite Hf, Hl, Hg in A.
      injection A as A1 A2 _. now split.
    + intros text fields Hf _ Hl Hg. rewrite Hf, Hl in A.
      injection A as A1 A2 _. split; [exact A1|].
      etransitivity; [exact A2|].
      destruct (dict_get "generationStage" fields) as [stage|]; [|reflexivity].
      destruct (is_str "SPECULATIVE" stage) eqn:E; [|reflexivity].
      apply is_str_spec in E. congruence.
Qed.

End ContentStart.

Lemma content_start_sets_display_witness :
  role (state_of (response_iteration sample_b64decode
                    (RecvText plain_content_start) displaying))
  = JStr "ASSISTANT"
  /\ display_assistant_text
       (state_of (response_iteration sample_b64decode
                    (RecvText plain_content_start) displaying))
     = display_assistant_text displaying.
Proof.
  destruct (content_start_sets_display sample_b64decode displaying
              plain_content_start
              [("event", JObj [("contentStart", JObj [("role", JStr "ASSISTANT")])])]
              [("contentStart", JObj [("role", JStr "ASSISTANT")])]
              (JObj [("role", JStr "ASSISTANT")]))
    as (_ & H).
  - discriminate.
  - vm_compute. reflexivity.
  - vm_compute. reflexivity.
  - reflexivity.
  - reflexivity.
  - destruct (H [("role", JStr "ASSISTANT")] (JStr "ASSISTANT") eq_refl eq_refl)
      as (Hr & Hd & _).
    split; [exact Hr | apply Hd; reflexivity].
Defined.

(** C8 fails as stated: a [contentStart] without the field leaves
    [display_assistant_text] true when it was true. *)
Lemma content_start_counterexample :
  display_assistant_text displaying = true
  /\ display_assistant_text
       (state_of (response_iteration sample_b64decode
                    (RecvText plain_content_start) displaying))
     = true.
Proof. split; vm_compute; reflexivity. Qed.

Lemma close_transmits_no_end_event_witness :
  attempted (wire (state_of (close started))) = attempted (wire started)
  /\ console (state_of (close started))
     = console started
       ++ [Debug "Stream is not active"; Debug "Stream is not active";
           Debug "Stream is not active"]
  /\ is_active (state_of (close started)) = false.
Proof.
  apply (close_transmits_no_end_event started).
  vm_compute. reflexivity.
Defined.

(** On the wire of the sample session: the five initialization events,
    then nothing but the close of the stream. *)
Example close_wire_of_started_session :
  length (delivered (wire started)) = 5
  /\ wire (state_of (close started)) = wire started ++ [InputClosed].
Proof. split; vm_compute; reflexivity. Qed.

Lemma close_twice_is_close_once_witness :
  close (state_of (close (live sample_config calm)))
  = (Ret tt, state_of (close (live sample_config calm)))
  /\ close (new_manager sample_config calm)
     = (Ret tt, new_manager sample_config calm).
Proof.
  split.
  - apply (proj1 (close_twice_is_close_once (live sample_config calm))).
  - apply (proj2 (close_twice_is_close_once (new_manager sample_config calm))).
    reflexivity.
Defined.
End ManagerFacts.

(* ================================================================== *)
(** * Properties of the playback loop *)
(* ================================================================== *)

Module AudioFacts.
Import PyStr Json Bedrock Audio Samples CodecFacts ManagerFacts.
Local Open Scope nat_scope.

Section PlaybackErrors.

Variable CHUNK_SIZE : nat.

Local Abbreviation play_steps := (Audio.play_steps CHUNK_SIZE).

Lemma playback_except_pc (e : exn) (a : AudioStreamer) :
  playback (playback_except e a) = AtLoopHead
  /\ is_streaming (playback_except e a) = is_streaming a.
Proof.
  unfold playback_except.
  destruct (is_streaming a) eqn:E; split; cbn; congruence.
Qed.

Lemma next_turn_not_finished (audio_data : bytes) (i : nat) :
  next_turn CHUNK_SIZE audio_data i <> Finished.
Proof.
  unfold next_turn. destruct (i + CHUNK_SIZE <? length audio_data); discriminate.
Qed.

(** While streaming is enabled no step of the loop leaves it. *)
Lemma play_step_goes_on (d : DeviceReply) (a : AudioStreamer) :
  is_streaming a = true -> playback a <> Finished ->
  playback (play_step CHUNK_SIZE d a) <> Finished
  /\ is_streaming (play_step CHUNK_SIZE d a) = true.
Proof.
  intros Hs Hp. unfold play_step.
  destruct (playback a) as [| |audio_data i|] eqn:Epc; [| | |congruence].
  - rewrite Hs. cbn. destruct (barge_in (stream_manager a)); cbn;
      split; try discriminate; try assumption.
    rewrite Epc. discriminate.
  - destruct (audio_output_queue (stream_manager a)) as [|audio_data q];
      [cbn; split; [discriminate | assumption]|].
    cbn [is_streaming set_stream_manager output_stream]. rewrite Hs.
    destruct audio_data as [|b audio_data], (output_stream a) as [u|];
      try (cbn; split; [discriminate | assumption]).
    destruct (is_active_reply d) as [[|]|e];
      [destruct (CHUNK_SIZE =? 0)| |];
      try (cbn; split; [discriminate | assumption]);
      (split; [now rewrite (proj1 (playback_except_pc _ _))
              | now rewrite (proj2 (playback_except_pc _ _))]).
  - rewrite Hs. cbn [negb].
    destruct (output_stream a) as [u|];
      [destruct (is_active_reply d) as [[|]|e];
       [destruct (write_reply d) as [u'|e]| |]|];
      try (cbn; split; [apply next_turn_not_finished | assumption]);
      (split; [now rewrite (proj1 (playback_except_pc _ _))
              | now rewrite (proj2 (playback_except_pc _ _))]).
Qed.

Lemma play_steps_go_on (replies : list DeviceReply) : forall (a : AudioStreamer),
  is_streaming a = true -> playback a <> Finished ->
  playback (play_steps replies a) <> Finished
  /\ is_streaming (play_steps replies a) = true.
Proof.
  induction replies as [|d replies IH]; intros a Hs Hp; [now split|].
  destruct (play_step_goes_on d a Hs Hp) as [Hp' Hs'].
  apply (IH _ Hs' Hp').
Qed.

(** C10.  While [is_streaming] is true, an exception raised while a
    buffer is played is caught, printed with its traceback, and the loop
    is back at its head for its next iteration: an exception of
    [output_stream.write] or of [output_stream.is_active()] while the
    chunks are written, and one of [output_stream.is_active()] or of
    [range] (a zero chunk size) when the buffer has just been taken from
    the queue.  And whatever the device answers, no turn of the loop
    leaves it as long as [is_streaming] is true. *)
Theorem playback_error_does_not_stop_loop
    (d : DeviceReply) (a : AudioStreamer) (e : exn) :
  is_streaming a = true ->
  output_stream a <> None ->
  (forall audio_data i,
     playback a = Writing audio_data i ->
     is_active_reply d = Raises e
     \/ (is_active_reply d = Returns true /\ write_reply d = Raises e) ->
     play_step CHUNK_SIZE d a = caught e a)
  /\ (forall audio_data queue,
        playback a = AwaitGet ->
        audio_output_queue (stream_manager a) = audio_data :: queue ->
        audio_data <> [] ->
        is_active_reply d = Raises e
        \/ (is_active_reply d = Returns true /\ CHUNK_SIZE = 0 /\ e = ValueError) ->
        play_step CHUNK_SIZE d a
        = caught e (set_stream_manager
                      (set_audio_output_queue queue (stream_manager a)) a))
  /\ (playback a <> Finished ->
      forall replies,
        playback (play_steps (d :: replies) a) <> Finished
        /\ is_streaming (play_steps (d :: replies) a) = true).
Proof.
  intros Hs Ho. split; [|split].
  - intros audio_data i Hp Hd.
    unfold play_step, caught. rewrite Hp, Hs. cbn [negb].
    destruct (output_stream a) as [u|]; [|congruence].
    destruct Hd as [Hd | [Hd Hw]]; rewrite Hd; [|rewrite Hw];
      unfold playback_except; now rewrite Hs.
  - intros audio_data queue Hp Hq Hne Hd.
    unfold play_step, caught. rewrite Hp, Hq.
    cbn [is_streaming set_stream_manager output_stream]. rewrite Hs.
    destruct (output_stream a) as [u|]; [|congruence].
    destruct audio_data as [|b audio_data]; [congruence|].
    destruct Hd as [Hd | (Hd & Hc & He)]; rewrite Hd.
    + unfold playback_except. cbn [is_streaming set_stream_manager]. now rewrite Hs.
    + subst CHUNK_SIZE e. cbn [Nat.eqb].
      unfold playback_except. cbn [is_streaming set_stream_manager]. now rewrite Hs.
  - intros Hp replies. now apply play_steps_go_on.
Qed.

End PlaybackErrors.

Lemma playback_error_does_not_stop_loop_witness :
  play_step 512 write_fails
    (streaming (live sample_config calm) (Writing [Byte.x01; Byte.x02] 0))
  = caught (TransportError "output underflowed")
      (streaming (live sample_config calm) (Writing [Byte.x01; Byte.x02] 0))
  /\ playback (play_steps 512 [write_fails; healthy; healthy]
                 (streaming (live sample_config calm)
                    (Writing [Byte.x01; Byte.x02] 0))) <> Finished.
Proof.
  destruct (playback_error_does_not_stop_loop 512 write_fails
              (streaming (live sample_config calm) (Writing [Byte.x01; Byte.x02] 0))
              (TransportError "output underflowed"))
    as (Hw & _ & Hg).
  - reflexivity.
  - discriminate.
  - split.
    + apply (Hw [Byte.x01; Byte.x02] 0); [reflexivity|].
      right. split; reflexivity.
    + apply Hg. discriminate.
Defined.


Section BargeIn.

Variable CHUNK_SIZE : nat.
Variable b64decode : string -> option bytes.

Local Abbreviation audio_message := (Bedrock.audio_message b64decode).
Local Abbreviation fair_turn := (Audio.fair_turn b64decode).
Local Abbreviation turns := (Audio.turns CHUNK_SIZE b64decode).

Ltac run_dispatch :=
  unfold dispatcher_step, _process_responses, responses_finally, handle_json,
    on_audio_output, on_text_output, try_except, receive_except,
    output_on_next, subject_on_error, subject_on_completed, observer_on_error,
    debug_print, log, notify, when, lift_result, py_in, py_getitem, bind, get,
    modify, ret, raise.

Lemma dispatch_audio (txt : string) (audio : bytes) (m : Manager) :
  listening m -> audio_message txt audio ->
  audio_output_queue (state_of (dispatcher_step b64decode (RecvText txt) m))
  = audio_output_queue m ++ [audio]
  /\ barge_in (state_of (dispatcher_step b64decode (RecvText txt) m)) = barge_in m
  /\ listening (state_of (dispatcher_step b64decode (RecvText txt) m)).
Proof.
  intros [Ha Ht] (Hne & top & ev & body & content & Hj & He & H1 & H2 & H3 & H4 & H5 & H6).
  destruct m as [c bc sr ia bi rt q da ro isub [ost oex oob] asub en w co no].
  simpl in Ha, Ht. subst ia rt.
  unfold dispatcher_step, _process_responses, bind at 1, get at 1.
  cbn [response_task is_active]. 
  unfold bind at 1. unfold bind at 1. unfold get at 1. cbn [is_active].
  unfold bind at 1.
  rewrite response_iteration_text by assumption. rewrite Hj.
  run_dispatch. rewrite He. cbn -[json_loads]. rewrite H1. cbn. rewrite H2. cbn. rewrite H3. cbn.
  rewrite H4. cbn. rewrite H5. cbn. rewrite H6. cbn.
  unfold listening. destruct ost; cbn; repeat split; reflexivity.
Qed.

Lemma dispatch_marker (txt : string) (m : Manager) :
  listening m -> marker_message txt ->
  audio_output_queue (state_of (dispatcher_step b64decode (RecvText txt) m))
  = audio_output_queue m
  /\ barge_in (state_of (dispatcher_step b64decode (RecvText txt) m)) = true
  /\ listening (state_of (dispatcher_step b64decode (RecvText txt) m)).
Proof.
  intros [Ha Ht] (Hne & top & ev & body & content & Hj & He & H1 & H2 & H3 & H4 & H5).
  destruct m as [c bc sr ia bi rt q da ro isub [ost oex oob] asub en w co no].
  simpl in Ha, Ht. subst ia rt.
  unfold dispatcher_step, _process_responses, bind at 1, get at 1.
  cbn [response_task is_active]. 
  unfold bind at 1. unfold bind at 1. unfold get at 1. cbn [is_active].
  unfold bind at 1.
  rewrite response_iteration_text by assumption. rewrite Hj.
  run_dispatch. rewrite He. cbn -[json_loads INTERRUPTED_MARKER str_in]. rewrite H1. cbn -[INTERRUPTED_MARKER str_in]. rewrite H2. cbn -[INTERRUPTED_MARKER str_in].
  rewrite H3. cbn -[INTERRUPTED_MARKER str_in]. rewrite H4. cbn -[INTERRUPTED_MARKER str_in]. rewrite H5. cbn -[INTERRUPTED_MARKER str_in].
  unfold listening.
  destruct (DEBUG c), (is_str "ASSISTANT" ro && da), (is_str "USER" ro), ost; cbn; repeat split; reflexivity.
Qed.

Lemma drain_empty (q : list bytes) : drain q = [].
Proof. induction q; simpl; auto. Qed.

Lemma arrives_step (txt : string) (audio : bytes) (a : AudioStreamer) :
  steady a -> audio_message txt audio ->
  steady (sys_step CHUNK_SIZE b64decode (Inbound (RecvText txt)) a)
  /\ written (sys_step CHUNK_SIZE b64decode (Inbound (RecvText txt)) a) = written a
  /\ pending (sys_step CHUNK_SIZE b64decode (Inbound (RecvText txt)) a)
     = pending a ++ audio.
Proof.
  intros (Hs & Ho & Hb & Hl & Hp) Hm.
  destruct (dispatch_audio txt audio (stream_manager a) Hl Hm) as (Hq & Hb' & Hl').
  unfold steady, pending, sys_step.
  cbn [stream_manager set_stream_manager is_streaming output_stream playback written].
  rewrite Hq, Hb'.
  repeat split; try assumption; try (apply Hl').
  rewrite concat_app. cbn. rewrite app_nil_r, app_assoc. reflexivity.
Qed.

Lemma slice_next (audio_data : bytes) (i : nat) :
  0 < CHUNK_SIZE ->
  slice audio_data i (Nat.min (i + CHUNK_SIZE) (length audio_data))
  ++ in_hand (next_turn CHUNK_SIZE audio_data i)
  = skipn i audio_data.
Proof.
  intros Hc. unfold slice, next_turn.
  destruct (i + CHUNK_SIZE <? length audio_data) eqn:E.
  - apply Nat.ltb_lt in E. rewrite Nat.min_l by lia.
    replace (i + CHUNK_SIZE - i) with CHUNK_SIZE by lia.
    cbn [in_hand]. rewrite Nat.add_comm, <- skipn_skipn. apply firstn_skipn.
  - apply Nat.ltb_ge in E. rewrite Nat.min_r by lia. cbn [in_hand].
    rewrite app_nil_r. apply firstn_all2. rewrite length_skipn. lia.
Qed.

Lemma plays_step (a : AudioStreamer) :
  0 < CHUNK_SIZE -> steady a ->
  steady (play_step CHUNK_SIZE healthy a)
  /\ concat (written (play_step CHUNK_SIZE healthy a))
     ++ pending (play_step CHUNK_SIZE healthy a)
     = concat (written a) ++ pending a.
Proof.
  intros Hc (Hs & Ho & Hb & [Hl1 Hl2] & Hp).
  unfold steady, pending, play_step.
  destruct (playback a) as [| |audio_data i|] eqn:Epc; [| | |congruence].
  - rewrite Hs, Hb. cbn. repeat split; auto; discriminate.
  - destruct (audio_output_queue (stream_manager a)) as [|audio_data q] eqn:Eq.
    + cbn. rewrite Eq. repeat split; auto; discriminate.
    + cbn [is_streaming set_stream_manager output_stream]. rewrite Hs.
      destruct (output_stream a) as [u|] eqn:Eo; [|congruence].
      destruct audio_data as [|b audio_data].
      * cbn. rewrite Eo. repeat split; auto; discriminate.
      * cbn [healthy is_active_reply].
        destruct (CHUNK_SIZE =? 0) eqn:E0; [apply Nat.eqb_eq in E0; lia|].
        cbn. rewrite Eo. repeat split; auto; discriminate.
  - rewrite Hs. cbn [negb]. destruct (output_stream a) as [u|] eqn:Eo; [|congruence].
    cbn [healthy is_active_reply write_reply].
    cbn [playback set_playback written set_written stream_manager is_streaming output_stream].
    rewrite Eo. repeat split; auto; try discriminate.
    + apply next_turn_not_finished.
    + rewrite concat_app. cbn [concat]. rewrite app_nil_r, <- !app_assoc.
      f_equal. rewrite app_assoc. f_equal. now apply slice_next.
Qed.

Lemma run_app (x y : list action) (a : AudioStreamer) :
  run CHUNK_SIZE b64decode (x ++ y) a
  = run CHUNK_SIZE b64decode y (run CHUNK_SIZE b64decode x a).
Proof. revert a. induction x as [|act x IH]; intros a; simpl; auto. Qed.

(** After any fair turns nothing is lost and nothing is added: what was
    written and what is pending is what it was, then the arrivals. *)
Lemma turns_keep_stream (ts : list turn) : forall (a : AudioStreamer),
  0 < CHUNK_SIZE -> steady a -> Forall fair_turn ts ->
  steady (turns ts a)
  /\ concat (written (turns ts a)) ++ pending (turns ts a)
     = concat (written a) ++ pending a ++ concat (arrivals ts).
Proof.
  induction ts as [|t ts IH]; intros a Hc Hs Hf.
  - cbn. rewrite app_nil_r. auto.
  - inversion_clear Hf as [|? ? Ht Hf'].
    destruct t as [txt audio|]; unfold Audio.turns; cbn [map action_of run arrivals].
    + destruct (arrives_step txt audio a Hs Ht) as (Hs' & Hw & Hp).
      destruct (IH _ Hc Hs' Hf') as (Hs'' & E).
      split; [exact Hs''|]. unfold Audio.turns in E. rewrite E, Hw, Hp.
      cbn [concat]. now rewrite <- !app_assoc.
    + destruct (plays_step a Hc Hs) as (Hs' & E').
      destruct (IH _ Hc Hs' Hf') as (Hs'' & E).
      split; [exact Hs''|]. unfold Audio.turns in E. cbn [sys_step].
      rewrite E, app_assoc, E'. now rewrite <- app_assoc.
Qed.

Lemma plays_less_effort (a : AudioStreamer) :
  0 < CHUNK_SIZE -> steady a -> pending a <> [] ->
  effort (play_step CHUNK_SIZE healthy a) < effort a.
Proof.
  intros Hc (Hs & Ho & Hb & [Hl1 Hl2] & Hp) Hpend.
  unfold effort, pending, play_step in *.
  destruct (playback a) as [| |audio_data i|] eqn:Epc; [| | |congruence].
  - rewrite Hs, Hb. cbn. lia.
  - destruct (audio_output_queue (stream_manager a)) as [|audio_data q] eqn:Eq;
      [cbn in Hpend; congruence|].
    cbn [is_streaming set_stream_manager output_stream]. rewrite Hs.
    destruct (output_stream a) as [u|] eqn:Eo; [|congruence].
    destruct audio_data as [|b audio_data].
    + cbn. lia.
    + cbn [healthy is_active_reply].
      destruct (CHUNK_SIZE =? 0) eqn:E0; [apply Nat.eqb_eq in E0; lia|].
      cbn. lia.
  - rewrite Hs. cbn [negb]. destruct (output_stream a) as [u|] eqn:Eo; [|congruence].
    cbn [healthy is_active_reply write_reply].
    cbn [playback set_playback written set_written stream_manager].
    unfold next_turn. destruct (i + CHUNK_SIZE <? length audio_data) eqn:E.
    + apply Nat.ltb_lt in E. lia.
    + lia.
Qed.

(** Left to itself on a healthy device, the playback task plays all that
    is pending. *)
Lemma plays_until_done (n : nat) : forall (a : AudioStreamer),
  0 < CHUNK_SIZE -> steady a -> effort a < n ->
  exists k, pending (turns (repeat Plays k) a) = [].
Proof.
  induction n as [|n IH]; intros a Hc Hs Hn; [lia|].
  destruct (pending a) as [|b rest] eqn:Ep.
  - exists 0. exact Ep.
  - assert (Hne : pending a <> []) by (rewrite Ep; discriminate).
    pose proof (plays_less_effort a Hc Hs Hne) as Hlt.
    destruct (plays_step a Hc Hs) as (Hs' & _).
    destruct (IH (play_step CHUNK_SIZE healthy a) Hc Hs') as (k & Hk); [lia|].
    exists (S k). exact Hk.
Qed.

Lemma arrivals_plays (k : nat) : arrivals (repeat Plays k) = [].
Proof. induction k; simpl; auto. Qed.

Lemma arrivals_app (x y : list turn) : arrivals (x ++ y) = arrivals x ++ arrivals y.
Proof.
  induction x as [|[txt audio|] x IH]; simpl; rewrite ?IH; reflexivity.
Qed.

Lemma turns_app (x y : list turn) (a : AudioStreamer) :
  turns (x ++ y) a = turns y (turns x a).
Proof. unfold Audio.turns. rewrite map_app. apply run_app. Qed.

Lemma fair_plays (k : nat) : Forall fair_turn (repeat Plays k).
Proof. induction k; simpl; constructor; simpl; auto. Qed.

Local Abbreviation turns_around := (Audio.turns_around CHUNK_SIZE b64decode).

Lemma steady_flag (a : AudioStreamer) :
  steady a -> barge_in (stream_manager a) = false.
Proof. intros (_ & _ & H & _). exact H. Qed.

Lemma flagged_flag (a : AudioStreamer) :
  flagged a -> barge_in (stream_manager a) = true.
Proof. intros (_ & _ & H & _). exact H. Qed.

(** The marker: the flag is set, and nothing else that matters to the
    playback task changes. *)
Lemma marker_step (txt : string) (a : AudioStreamer) :
  steady a -> marker_message txt ->
  flagged (sys_step CHUNK_SIZE b64decode (Inbound (RecvText txt)) a)
  /\ audio_output_queue
       (stream_manager (sys_step CHUNK_SIZE b64decode (Inbound (RecvText txt)) a))
     = audio_output_queue (stream_manager a)
  /\ written (sys_step CHUNK_SIZE b64decode (Inbound (RecvText txt)) a) = written a
  /\ playback (sys_step CHUNK_SIZE b64decode (Inbound (RecvText txt)) a) = playback a.
Proof.
  intros (Hs & Ho & Hb & Hl & Hp) Hm.
  destruct (dispatch_marker txt (stream_manager a) Hl Hm) as (Hq & Hb' & Hl').
  unfold flagged, sys_step.
  cbn [stream_manager set_stream_manager is_streaming output_stream playback written].
  repeat split; try assumption; apply Hl'.
Qed.

Lemma arrives_flagged (txt : string) (audio : bytes) (a : AudioStreamer) :
  flagged a -> audio_message txt audio ->
  flagged (sys_step CHUNK_SIZE b64decode (Inbound (RecvText txt)) a)
  /\ written (sys_step CHUNK_SIZE b64decode (Inbound (RecvText txt)) a) = written a
  /\ pending (sys_step CHUNK_SIZE b64decode (Inbound (RecvText txt)) a)
     = pending a ++ audio.
Proof.
  intros (Hs & Ho & Hb & Hl & Hp) Hm.
  destruct (dispatch_audio txt audio (stream_manager a) Hl Hm) as (Hq & Hb' & Hl').
  unfold flagged, pending, sys_step.
  cbn [stream_manager set_stream_manager is_streaming output_stream playback written].
  rewrite Hq, Hb'.
  repeat split; try assumption; try (apply Hl').
  rewrite concat_app. cbn. rewrite app_nil_r, app_assoc. reflexivity.
Qed.

(** Away from the head of its loop the playback task does not look at the
    flag: it goes on with the buffer in hand, or takes the next one. *)
Lemma plays_flagged (a : AudioStreamer) :
  0 < CHUNK_SIZE -> flagged a -> playback a <> AtLoopHead ->
  flagged (play_step CHUNK_SIZE healthy a)
  /\ concat (written (play_step CHUNK_SIZE healthy a))
     ++ pending (play_step CHUNK_SIZE healthy a)
     = concat (written a) ++ pending a
  /\ head_distance (play_step CHUNK_SIZE healthy a) < head_distance a.
Proof.
  intros Hc (Hs & Ho & Hb & [Hl1 Hl2] & Hp) Hh.
  unfold flagged, pending, head_distance, play_step.
  destruct (playback a) as [| |audio_data i|] eqn:Epc; [congruence| | |congruence].
  - destruct (audio_output_queue (stream_manager a)) as [|audio_data q] eqn:Eq.
    + cbn. rewrite Eq. repeat split; auto; try discriminate; try lia.
    + cbn [is_streaming set_stream_manager output_stream]. rewrite Hs.
      destruct (output_stream a) as [u|] eqn:Eo; [|congruence].
      destruct audio_data as [|b audio_data].
      * cbn. rewrite Eo. repeat split; auto; try discriminate; try lia.
      * cbn [healthy is_active_reply].
        destruct (CHUNK_SIZE =? 0) eqn:E0; [apply Nat.eqb_eq in E0; lia|].
        cbn. rewrite Eo. repeat split; auto; try discriminate; try lia.
  - rewrite Hs. cbn [negb]. destruct (output_stream a) as [u|] eqn:Eo; [|congruence].
    cbn [healthy is_active_reply write_reply].
    cbn [playback set_playback written set_written stream_manager is_streaming
         output_stream].
    rewrite Eo. repeat split; auto; try discriminate.
    + apply next_turn_not_finished.
    + rewrite concat_app. cbn [concat]. rewrite app_nil_r, <- !app_assoc.
      f_equal. rewrite app_assoc. f_equal. now apply slice_next.
    + unfold next_turn. destruct (i + CHUNK_SIZE <? length audio_data) eqn:E.
      * apply Nat.ltb_lt in E. lia.
      * lia.
Qed.

(** The flush: lines 88-98, whatever the device answers. *)
Lemma flush_step (d : DeviceReply) (a : AudioStreamer) :
  flagged a -> playback a = AtLoopHead ->
  steady (play_step CHUNK_SIZE d a)
  /\ audio_output_queue (stream_manager (play_step CHUNK_SIZE d a)) = []
  /\ written (play_step CHUNK_SIZE d a) = written a
  /\ pending (play_step CHUNK_SIZE d a) = [].
Proof.
  intros (Hs & Ho & Hb & [Hl1 Hl2] & Hp) Hh.
  unfold steady, listening, pending, play_step. rewrite Hh, Hs, Hb.
  cbn. rewrite Hh, drain_empty. repeat split; auto; discriminate.
Qed.

Lemma turns_cons_plays (ts : list turn) (a : AudioStreamer) :
  turns (Plays :: ts) a = turns ts (play_step CHUNK_SIZE healthy a).
Proof. reflexivity. Qed.

Lemma turns_cons_arrives (txt : string) (audio : bytes) (ts : list turn)
    (a : AudioStreamer) :
  turns (Arrives txt audio :: ts) a
  = turns ts (sys_step CHUNK_SIZE b64decode (Inbound (RecvText txt)) a).
Proof. reflexivity. Qed.

(** A run after the marker: either the flag is still set and nothing has
    been discarded, or the playback task has been at the head of its loop
    with the flag set, and the flush was its next turn. *)
Lemma flagged_run (ts : list turn) : forall (b : AudioStreamer),
  0 < CHUNK_SIZE -> flagged b -> Forall fair_turn ts ->
  (flagged (turns ts b)
   /\ concat (written (turns ts b)) ++ pending (turns ts b)
      = concat (written b) ++ pending b ++ concat (arrivals ts))
  \/ (exists mid rest,
        ts = mid ++ Plays :: rest
        /\ flagged (turns mid b)
        /\ playback (turns mid b) = AtLoopHead
        /\ steady (turns ts b)).
Proof.
  induction ts as [|t ts IH]; intros b Hc Hb Hf.
  - left. split; [exact Hb|]. cbn. now rewrite app_nil_r.
  - inversion_clear Hf as [|? ? Ht Hf'].
    destruct t as [txt audio|].
    + rewrite turns_cons_arrives.
      destruct (arrives_flagged txt audio b Hb Ht) as (Hb' & Hw & Hp).
      destruct (IH _ Hc Hb' Hf') as [(F & E) | (mid & rest & -> & F & H & S)].
      * left. split; [exact F|]. rewrite E, Hw, Hp.
        cbn [arrivals concat]. now rewrite <- !app_assoc.
      * right. exists (Arrives txt audio :: mid), rest.
        split; [reflexivity|]. split; [exact F|]. split; [exact H | exact S].
    + rewrite turns_cons_plays.
      destruct (playback b) as [| |audio_data i|] eqn:Epc.
      * right. exists [], ts. split; [reflexivity|]. split; [exact Hb|].
        split; [exact Epc|].
        destruct (flush_step healthy b Hb Epc) as (S & _).
        apply (turns_keep_stream ts _ Hc S Hf').
      * assert (Hh : playback b <> AtLoopHead) by (rewrite Epc; discriminate).
        destruct (plays_flagged b Hc Hb Hh) as (Hb' & E' & _).
        destruct (IH _ Hc Hb' Hf') as [(F & E) | (mid & rest & -> & F & H & S)].
        -- left. split; [exact F|]. cbn [arrivals].
           rewrite E, app_assoc, E'. now rewrite <- app_assoc.
        -- right. exists (Plays :: mid), rest.
           split; [reflexivity|]. split; [exact F|]. split; [exact H | exact S].
      * assert (Hh : playback b <> AtLoopHead) by (rewrite Epc; discriminate).
        destruct (plays_flagged b Hc Hb Hh) as (Hb' & E' & _).
        destruct (IH _ Hc Hb' Hf') as [(F & E) | (mid & rest & -> & F & H & S)].
        -- left. split; [exact F|]. cbn [arrivals].
           rewrite E, app_assoc, E'. now rewrite <- app_assoc.
        -- right. exists (Plays :: mid), rest.
           split; [reflexivity|]. split; [exact F|]. split; [exact H | exact S].
      * destruct Hb as (_ & _ & _ & _ & Hp). congruence.
Qed.

(** Left to itself on a healthy device, the playback task is back at the
    head of its loop after finitely many turns. *)
Lemma reaches_head (n : nat) : forall (b : AudioStreamer),
  0 < CHUNK_SIZE -> flagged b -> head_distance b < n ->
  exists k,
    flagged (turns (repeat Plays k) b)
    /\ playback (turns (repeat Plays k) b) = AtLoopHead.
Proof.
  induction n as [|n IH]; intros b Hc Hb Hn; [lia|].
  destruct (playback b) as [| |audio_data i|] eqn:Epc.
  - exists 0. split; [exact Hb | exact Epc].
  - assert (Hh : playback b <> AtLoopHead) by (rewrite Epc; discriminate).
    destruct (plays_flagged b Hc Hb Hh) as (Hb' & _ & Hlt).
    destruct (IH _ Hc Hb') as (k & Hk); [lia|].
    exists (S k). exact Hk.
  - assert (Hh : playback b <> AtLoopHead) by (rewrite Epc; discriminate).
    destruct (plays_flagged b Hc Hb Hh) as (Hb' & _ & Hlt).
    destruct (IH _ Hc Hb') as (k & Hk); [lia|].
    exists (S k). exact Hk.
  - destruct Hb as (_ & _ & _ & _ & Hp). congruence.
Qed.

Lemma flag_set_is_flagged (ts : list turn) (b : AudioStreamer) :
  0 < CHUNK_SIZE -> flagged b -> Forall fair_turn ts ->
  barge_in (stream_manager (turns ts b)) = true ->
  flagged (turns ts b)
  /\ concat (written (turns ts b)) ++ pending (turns ts b)
     = concat (written b) ++ pending b ++ concat (arrivals ts).
Proof.
  intros Hc Hb Hf Ht.
  destruct (flagged_run ts b Hc Hb Hf) as [H | (mid & rest & _ & _ & _ & S)];
    [exact H|].
  apply steady_flag in S. congruence.
Qed.

End BargeIn.

Lemma audio_event_C_fair :
  audio_message sample_b64decode audio_event_C [Byte.x41; Byte.x42; Byte.x43].
Proof.
  split; [discriminate|].
  exists [("event", JObj [("audioOutput", JObj [("content", JStr "QUJD")])])],
         [("audioOutput", JObj [("content", JStr "QUJD")])],
         [("content", JStr "QUJD")], "QUJD"%string.
  repeat split; vm_compute; reflexivity.
Defined.

Lemma marker_event_is_marker : marker_message marker_event.
Proof.
  split; [discriminate|].
  do 4 eexists.
  split; [vm_compute; reflexivity|].
  split; [vm_compute; reflexivity|].
  split; [vm_compute; reflexivity|].
  split; [vm_compute; reflexivity|].
  split; [vm_compute; reflexivity|].
  split; [vm_compute; reflexivity|].
  vm_compute. reflexivity.
Defined.

Lemma streaming_started_steady : steady (streaming started AtLoopHead).
Proof.
  split; [reflexivity|]. split; [discriminate|].
  split; [vm_compute; reflexivity|].
  split; [split; vm_compute; reflexivity | discriminate].
Defined.



(** The scenario of the specification: the buffers A and B are queued,
    the marker arrives before the playback task takes them; the flush
    drops both and clears the flag, and the buffer C that arrives next is
    written to the device, in chunks of two bytes. *)
Example barge_in_scenario :
  written
    (run 2 sample_b64decode
       [Playback healthy; Inbound (RecvText audio_event_C); Playback healthy;
        Playback healthy; Playback healthy; Playback healthy]
       interrupted)
  = [[Byte.x41; Byte.x42]; [Byte.x43]]
  /\ barge_in
       (stream_manager
          (run 2 sample_b64decode
             [Playback healthy; Inbound (RecvText audio_event_C);
              Playback healthy; Playback healthy; Playback healthy;
              Playback healthy]
             interrupted))
     = false.
Proof. split; vm_compute; reflexivity. Qed.

End AudioFacts.

(* ================================================================== *)
(** * More properties of [BedrockStreamManager] *)
(* ================================================================== *)

Module SessionFacts.
Import PyStr Json Bedrock Audio Samples Frames Lifecycle Cases.
Import CodecFacts ManagerFacts.

(** ** What leaves the transport alone *)

Lemma untouched_refl s : untouched s s.
Proof. repeat split. Qed.

Lemma untouched_trans s1 s2 s3 : untouched s1 s2 -> untouched s2 s3 -> untouched s1 s3.
Proof.
  unfold untouched. intros (A1 & A2 & A3 & A4 & A5 & A6 & A7) (B1 & B2 & B3 & B4 & B5 & B6 & B7).
  repeat split; congruence.
Qed.

Lemma keeps_ret {A} (a : A) : keeps (ret a).
Proof. intros s. apply untouched_refl. Qed.
Lemma keeps_raise {A} e : keeps (@raise A e).
Proof. intros s. apply untouched_refl. Qed.
Lemma keeps_lift {A} (r : result A) : keeps (lift_result r).
Proof. intros s. apply untouched_refl. Qed.
Lemma keeps_get : keeps get.
Proof. intros s. apply untouched_refl. Qed.

Lemma keeps_bind {A B} (m : M A) (k : A -> M B) :
  keeps m -> (forall a, keeps (k a)) -> keeps (bind m k).
Proof.
  intros Hm Hk s. unfold bind. specialize (Hm s).
  destruct (m s) as [[a|e] s'] eqn:E; cbn in *.
  - eapply untouched_trans; [exact Hm|]. apply Hk.
  - exact Hm.
Qed.

Lemma keeps_try {A} (m : M A) (h : exn -> M A) :
  keeps m -> (forall e, keeps (h e)) -> keeps (try_except m h).
Proof.
  intros Hm Hh s. unfold try_except. specialize (Hm s).
  destruct (m s) as [[a|e] s'] eqn:E; cbn in *.
  - exact Hm.
  - eapply untouched_trans; [exact Hm|]. apply Hh.
Qed.

Lemma keeps_when b (m : M unit) : keeps m -> keeps (when b m).
Proof. intros H. destruct b; [exact H | apply keeps_ret]. Qed.

Lemma keeps_modify (f : Manager -> Manager) :
  (forall s, untouched s (f s)) -> keeps (modify f).
Proof. intros H s. apply H. Qed.

Ltac frame_setter := intros [] ; repeat split.

Lemma keeps_log l : keeps (log l).
Proof. apply keeps_modify. frame_setter. Qed.

Lemma keeps_notify n : keeps (notify OutputSubject n).
Proof. apply keeps_modify. frame_setter. Qed.

Ltac keeps_step :=
  lazymatch goal with
  | |- keeps (ret _) => apply keeps_ret
  | |- keeps (raise _) => apply keeps_raise
  | |- keeps (lift_result _) => apply keeps_lift
  | |- keeps get => apply keeps_get
  | |- keeps (log _) => apply keeps_log
  | |- keeps (debug_print _) => apply keeps_log
  | |- keeps (notify OutputSubject _) => apply keeps_notify
  | |- keeps (when _ _) => apply keeps_when
  | |- keeps (bind _ _) => apply keeps_bind; [|intros ?]
  | |- keeps (try_except _ _) => apply keeps_try; [|intros ?]
  | |- keeps (modify _) => apply keeps_modify; frame_setter
  | |- keeps (match ?x with _ => _ end) => destruct x
  | |- keeps (let _ := _ in _) => cbv zeta
  end.

Ltac keeps_all := repeat keeps_step.

Lemma keeps_output_error e : keeps (subject_on_error OutputSubject e).
Proof. unfold subject_on_error, observer_on_error. cbn [get_subject set_subject]. keeps_all. Qed.

Lemma keeps_output_completed : keeps (subject_on_completed OutputSubject).
Proof. unfold subject_on_completed. cbn [get_subject set_subject]. keeps_all. Qed.

Lemma keeps_output_next v : keeps (output_on_next v).
Proof. unfold output_on_next. keeps_all. Qed.

Section Loop.
Variable b64decode : string -> option bytes.

Lemma keeps_content_start cs : keeps (on_content_start cs).
Proof. unfold on_content_start, debug_print. keeps_all. Qed.

Lemma keeps_text_output ev : keeps (on_text_output ev).
Proof. unfold on_text_output. keeps_all. Qed.

Lemma keeps_audio_output ev : keeps (on_audio_output b64decode ev).
Proof. unfold on_audio_output. keeps_all. Qed.

Lemma keeps_handle_json j : keeps (handle_json b64decode j).
Proof.
  unfold handle_json, debug_print.
  repeat first [ apply keeps_content_start | apply keeps_text_output
               | apply keeps_audio_output | apply keeps_output_next | keeps_step ].
Qed.

Lemma keeps_receive_except e : keeps (receive_except e).
Proof.
  unfold receive_except.
  destruct e; repeat first [apply keeps_output_error | keeps_step].
Qed.

Lemma keeps_iteration r : keeps (response_iteration b64decode r).
Proof.
  destruct r as [[|c t]| | |e]; cbn [response_iteration];
    repeat first [ apply keeps_receive_except | apply keeps_handle_json
                 | apply keeps_output_next | keeps_step ].
Qed.

Lemma keeps_finally : keeps responses_finally.
Proof.
  unfold responses_finally.
  repeat first [apply keeps_output_completed | keeps_step].
Qed.

Lemma keeps_process inbound : keeps (_process_responses b64decode inbound).
Proof.
  induction inbound as [|r inbound IH]; cbn [_process_responses];
    repeat first [ apply keeps_iteration | apply keeps_finally | exact IH | keeps_step ].
Qed.
End Loop.

(** ** Sending *)

Lemma sent_nil (s : Manager) : sent s [] s.
Proof. split; [apply sends_nil | repeat split]. Qed.

Lemma sent_app (s s1 s2 : Manager) (a b : list string) :
  sent s a s1 -> sent s1 b s2 -> sent s (a ++ b) s2.
Proof.
  intros (S1 & A1 & A2 & A3 & A4 & A5 & A6 & A7) (S2 & B1 & B2 & B3 & B4 & B5 & B6 & B7).
  split; [eapply sends_app; eassumption|]. repeat split; congruence.
Qed.

Lemma sent_log (s s' : Manager) (evs : list string) (l : line) :
  sent s evs s' -> sent s evs (set_console (console s' ++ [l]) s').
Proof. intros H. destruct s'. exact H. Qed.

Lemma send_raw_event_sent (ev : string) (s : Manager) :
  stream_response s <> None -> is_active s = true ->
  exists s', send_raw_event ev s = (Ret tt, s') /\ sent s [ev] s'.
Proof.
  intros Hs Ha.
  destruct s as [c bc sr ia bi rt q da ro isub osub asub [cr srs clr] w co no].
  simpl in *. subst ia. destruct sr as [u|]; [|congruence]. clear Hs.
  unfold send_raw_event, try_except, input_stream_send, bind, get.
  cbn -[event_type_keys py_len Nat.ltb].
  destruct srs as [|[e|] srs]; cbn -[event_type_keys py_len Nat.ltb].
  all: unfold when, lift_result, log, subject_on_error, bind, get, modify,
         when, notify, observer_on_error, log, modify, ret;
       cbn -[event_type_keys py_len Nat.ltb].
  all: destruct (DEBUG c); cbn -[event_type_keys py_len Nat.ltb].
  all: try destruct (200 <? py_len ev)%nat; cbn -[event_type_keys py_len Nat.ltb].
  all: try destruct (event_type_keys ev); cbn -[event_type_keys py_len Nat.ltb].
  all: try (destruct isub as [st ex ob]; destruct st; destruct ob;
            cbn -[event_type_keys py_len Nat.ltb]).
  all: eexists; split; [reflexivity|]; unfold sent, sends; cbn; repeat split; reflexivity.
Qed.





(** ** The end events *)

Lemma content_end_text (a b : string) :
  exists r, encode (ContentEnd a b) = Some r
            /\ forall s, percent CONTENT_END_EVENT [a; b] s = (Ret r, s).
Proof. eapply percent_ok; [vm_compute; reflexivity | reflexivity]. Qed.

Lemma prompt_end_text (a : string) :
  exists r, encode (PromptEnd a) = Some r
            /\ forall s, percent PROMPT_END_EVENT [a] s = (Ret r, s).
Proof. eapply percent_ok; [vm_compute; reflexivity | reflexivity]. Qed.

Lemma audio_end_active (s : Manager) :
  stream_response s <> None -> is_active s = true ->
  exists ev s',
    encode (ContentEnd (prompt_name (cfg s)) (audio_content_name (cfg s))) = Some ev
    /\ send_audio_content_end_event s = (Ret tt, s') /\ sent s [ev] s'.
Proof.
  intros Hs Ha.
  destruct (content_end_text (prompt_name (cfg s)) (audio_content_name (cfg s)))
    as (ev & He & Hp).
  destruct (send_raw_event_sent ev s Hs Ha) as (s1 & E1 & S1).
  exists ev, (set_console (console s1 ++ [Debug "Audio ended"]) s1).
  split; [exact He|]. split; [|now apply sent_log].
  unfold send_audio_content_end_event, bind, get. rewrite Ha. cbn [negb].
  rewrite Hp, E1. reflexivity.
Qed.

Lemma prompt_end_active (s : Manager) :
  stream_response s <> None -> is_active s = true ->
  exists ev s',
    encode (PromptEnd (prompt_name (cfg s))) = Some ev
    /\ send_prompt_end_event s = (Ret tt, s') /\ sent s [ev] s'.
Proof.
  intros Hs Ha.
  destruct (prompt_end_text (prompt_name (cfg s))) as (ev & He & Hp).
  destruct (send_raw_event_sent ev s Hs Ha) as (s1 & E1 & S1).
  exists ev, (set_console (console s1 ++ [Debug "Prompt ended"]) s1).
  split; [exact He|]. split; [|now apply sent_log].
  unfold send_prompt_end_event, bind, get. rewrite Ha. cbn [negb].
  rewrite Hp, E1. reflexivity.
Qed.

Lemma session_end_active (s : Manager) :
  stream_response s <> None -> is_active s = true ->
  exists s',
    send_session_end_event s = (Ret tt, s')
    /\ wire s' = wire s ++ outcomes [SESSION_END_EVENT] (send_replies (env s))
    /\ is_active s' = false
    /\ cfg s' = cfg s.
Proof.
  intros Hs Ha.
  destruct (send_raw_event_sent SESSION_END_EVENT s Hs Ha) as (s1 & E1 & S1).
  exists (set_console (console (set_is_active false s1) ++ [Debug "Session ended"])
            (set_is_active false s1)).
  split.
  - unfold send_session_end_event, bind, get. rewrite Ha. cbn [negb].
    rewrite E1. reflexivity.
  - destruct S1 as ((W & _ & _ & _ & G & _) & _). destruct s1. cbn in *.
    repeat split; assumption.
Qed.

(** X3.  Called one after the other on an active session,
    [send_audio_content_end_event], [send_prompt_end_event] and
    [send_session_end_event] hand the contentEnd of the audio content,
    the promptEnd and the sessionEnd to the transport, in that order and
    whatever the transport answers to each; all three return normally,
    and the session is then not active. *)
Theorem end_events_in_order_then_inactive (s : Manager) :
  stream_response s <> None ->
  is_active s = true ->
  exists e1 e2 s',
    encode (ContentEnd (prompt_name (cfg s)) (audio_content_name (cfg s))) = Some e1
    /\ encode (PromptEnd (prompt_name (cfg s))) = Some e2
    /\ (send_audio_content_end_event ;; send_prompt_end_event ;;
        send_session_end_event) s = (Ret tt, s')
    /\ wire s' = wire s ++ outcomes [e1; e2; SESSION_END_EVENT] (send_replies (env s))
    /\ is_active s' = false.
Proof.
  intros Hs Ha.
  destruct (audio_end_active s Hs Ha) as (e1 & s1 & He1 & E1 & S1).
  pose proof S1 as ((W1 & R1 & _ & _ & G1 & SR1 & A1 & _) & _).
  assert (Hs1 : stream_response s1 <> None) by now rewrite SR1.
  assert (Ha1 : is_active s1 = true) by now rewrite A1.
  destruct (prompt_end_active s1 Hs1 Ha1) as (e2 & s2 & He2 & E2 & S2).
  pose proof S2 as ((W2 & R2 & _ & _ & G2 & SR2 & A2 & _) & _).
  assert (Hs2 : stream_response s2 <> None) by now rewrite SR2.
  assert (Ha2 : is_active s2 = true) by now rewrite A2.
  destruct (session_end_active s2 Hs2 Ha2) as (s3 & E3 & W3 & A3 & G3).
  exists e1, e2, s3. rewrite G1 in He2.
  split; [exact He1|]. split; [exact He2|]. split; [|split; [|exact A3]].
  - unfold bind. now rewrite E1, E2, E3.
  - rewrite W3, W2, W1, R2, R1, <- !app_assoc. f_equal.
    change [e1; e2; SESSION_END_EVENT] with ([e1] ++ [e2] ++ [SESSION_END_EVENT]).
    rewrite !outcomes_app, skipn_skipn. reflexivity.
Qed.

Lemma end_events_in_order_then_inactive_witness :
  exists e1 e2 s',
    encode (ContentEnd (prompt_name (cfg (live sample_config calm)))
              (audio_content_name (cfg (live sample_config calm)))) = Some e1
    /\ encode (PromptEnd (prompt_name (cfg (live sample_config calm)))) = Some e2
    /\ (send_audio_content_end_event ;; send_prompt_end_event ;;
        send_session_end_event) (live sample_config calm) = (Ret tt, s')
    /\ wire s'
       = wire (live sample_config calm)
         ++ outcomes [e1; e2; SESSION_END_EVENT]
              (send_replies (env (live sample_config calm)))
    /\ is_active s' = false.
Proof.
  apply (end_events_in_order_then_inactive (live sample_config calm)).
  - discriminate.
  - reflexivity.
Defined.

(** ** Audio chunks *)

(** X4.  On an active session [_handle_audio_input] sends a chunk that
    is not empty as one audioInput event and returns normally, whatever
    the transport answers.  When the prompt name and the content name
    need no escaping, the event is JSON whose content is the base64 text
    of the chunk, and decoding that text gives the chunk back. *)
Theorem audio_chunk_is_sent_as_base64 (audio : bytes) (s : Manager) :
  stream_response s <> None ->
  is_active s = true ->
  audio <> [] ->
  plain (prompt_name (cfg s)) = true ->
  plain (audio_content_name (cfg s)) = true ->
  exists w,
    result_of (_handle_audio_input audio s) = Ret tt
    /\ wire (state_of (_handle_audio_input audio s))
       = wire s ++ outcomes [w] (send_replies (env s))
    /\ is_active (state_of (_handle_audio_input audio s)) = true
    /\ json_loads w
       = Some (document (AudioInput (prompt_name (cfg s))
                           (audio_content_name (cfg s)) audio))
    /\ Base64.b64decode_strict (Base64.b64encode audio) = Some audio.
Proof.
  intros Hs Ha Hne Hp Hc.
  destruct (audio_input_roundtrip _ _ audio Hp Hc) as (w & Hw & Hj).
  exists w.
  assert (P : forall t, percent AUDIO_EVENT_TEMPLATE
                [prompt_name (cfg s); audio_content_name (cfg s);
                 Base64.b64encode audio] t = (Ret w, t)).
  { intros t. unfold percent. cbn [encode] in Hw. now rewrite Hw. }
  set (s0 := set_console
               (console s ++ [DebugLen "Processing audio chunk of size (bytes): "
                                (length audio)]) s).
  assert (Hs0 : stream_response s0 <> None) by (destruct s; exact Hs).
  assert (Ha0 : is_active s0 = true) by (destruct s; exact Ha).
  destruct (send_raw_event_sent w s0 Hs0 Ha0) as (s1 & E1 & S1).
  assert (R : _handle_audio_input audio s = (Ret tt, s1)).
  { destruct audio as [|b audio]; [congruence|].
    unfold _handle_audio_input, try_except, bind at 1, get at 1.
    unfold bind at 1. unfold log, modify. fold s0.
    unfold bind. rewrite P, E1. reflexivity. }
  rewrite R. cbn [result_of state_of fst snd].
  destruct S1 as ((W & _ & _ & _ & _ & _ & A & _) & _).
  split; [reflexivity|]. split; [|split; [|split]].
  - rewrite W. destruct s; reflexivity.
  - rewrite A. exact Ha0.
  - exact Hj.
  - apply b64_roundtrip.
Qed.

Lemma audio_chunk_is_sent_as_base64_witness :
  exists w,
    result_of (_handle_audio_input [Byte.x01; Byte.x02] (live sample_config calm))
    = Ret tt
    /\ wire (state_of (_handle_audio_input [Byte.x01; Byte.x02]
                         (live sample_config calm)))
       = wire (live sample_config calm)
         ++ outcomes [w] (send_replies (env (live sample_config calm)))
    /\ is_active (state_of (_handle_audio_input [Byte.x01; Byte.x02]
                              (live sample_config calm)))
       = true
    /\ json_loads w
       = Some (document (AudioInput (prompt_name (cfg (live sample_config calm)))
                           (audio_content_name (cfg (live sample_config calm)))
                           [Byte.x01; Byte.x02]))
    /\ Base64.b64decode_strict (Base64.b64encode [Byte.x01; Byte.x02])
       = Some [Byte.x01; Byte.x02].
Proof.
  apply (audio_chunk_is_sent_as_base64 [Byte.x01; Byte.x02] (live sample_config calm)).
  - discriminate.
  - reflexivity.
  - discriminate.
  - vm_compute. reflexivity.
  - vm_compute. reflexivity.
Defined.

(** X5.  Audio is only sent between [initialize_stream] and [close].
    After [close] on an active session [audio_subject] is stopped, and
    on a manager fresh from [__init__] nothing is subscribed to it: in
    both cases [add_audio_chunk] returns normally and changes nothing,
    so the chunk is dropped without a line on the console. *)
Theorem audio_chunk_is_dropped_without_subscription (audio : bytes) (s : Manager) :
  is_active s = true ->
  add_audio_chunk audio (state_of (close s)) = (Ret tt, state_of (close s))
  /\ forall c e, add_audio_chunk audio (new_manager c e) = (Ret tt, new_manager c e).
Proof.
  intros Ha. split.
  - assert (H : is_stopped (audio_subject (state_of (close s))) = true).
    { destruct s as [c bc sr ia bi rt q da ro [ist iex iob] osub [ast aex aob]
                       [cr srs clr] w co no].
      simpl in Ha. subst ia. run_close.
      destruct ist, ast, rt as [[| |]|], sr as [u|], clr as [e|]; reflexivity. }
    unfold add_audio_chunk, bind, get. now rewrite H.
  - intros c e. reflexivity.
Qed.

Lemma audio_chunk_is_dropped_without_subscription_witness :
  add_audio_chunk [Byte.x01] (state_of (close (live sample_config calm)))
  = (Ret tt, state_of (close (live sample_config calm)))
  /\ forall c e, add_audio_chunk [Byte.x01] (new_manager c e) = (Ret tt, new_manager c e).
Proof.
  apply (audio_chunk_is_dropped_without_subscription [Byte.x01]
           (live sample_config calm)).
  reflexivity.
Defined.

(** ** [close] *)

(** X6.  [close] on an active session raises only what
    [input_stream.close()] raises, and only when there is a stream; in
    every case [input_subject] and [audio_subject] are stopped, the
    response task is no longer running, and [stream_response] is kept
    as it was (it is not reset). *)
Theorem close_result_and_released (s : Manager) :
  is_active s = true ->
  result_of (close s)
  = match stream_response s, close_reply (env s) with
    | Some _, Some e => Raise e
    | _, _ => Ret tt
    end
  /\ is_stopped (input_subject (state_of (close s))) = true
  /\ is_stopped (audio_subject (state_of (close s))) = true
  /\ response_task (state_of (close s)) <> Some TaskRunning
  /\ stream_response (state_of (close s)) = stream_response s.
Proof.
  intros Ha.
  destruct s as [c bc sr ia bi rt q da ro [ist iex iob] osub [ast aex aob]
                   [cr srs clr] w co no].
  simpl in Ha. subst ia. run_close.
  destruct ist, ast, rt as [[| |]|], sr as [u|], clr as [e|]; cbn;
    repeat split; try reflexivity; discriminate.
Qed.

Lemma close_result_and_released_witness :
  result_of (close (live sample_config calm))
  = match stream_response (live sample_config calm),
          close_reply (env (live sample_config calm)) with
    | Some _, Some e => Raise e
    | _, _ => Ret tt
    end
  /\ is_stopped (input_subject (state_of (close (live sample_config calm)))) = true
  /\ is_stopped (audio_subject (state_of (close (live sample_config calm)))) = true
  /\ response_task (state_of (close (live sample_config calm))) <> Some TaskRunning
  /\ stream_response (state_of (close (live sample_config calm)))
     = stream_response (live sample_config calm).
Proof.
  apply (close_result_and_released (live sample_config calm)).
  reflexivity.
Defined.

(** ** The response loop *)

Section LoopMore.

Variable b64decode : string -> option bytes.

Lemma process_step (r : recv) (inbound : list recv) (s : Manager) :
  is_active s = true ->
  _process_responses b64decode (r :: inbound) s
  = (ctl <- response_iteration b64decode r ;;
     match ctl with
     | Continue => _process_responses b64decode inbound
     | Break => responses_finally ;; ret Exited
     end) s.
Proof.
  intros Ha. cbn [_process_responses]. unfold bind at 1, get at 1. now rewrite Ha.
Qed.

Lemma output_on_next_forwarded (v : value) (s : Manager) :
  output_on_next v s = (Ret tt, forwarded v s).
Proof.
  unfold output_on_next, forwarded, notify, bind, get, modify.
  destruct (is_stopped (output_subject s)); reflexivity.
Qed.

(** X7.  A message within the limits of [json.loads] that is not JSON
    does not end the response loop: it is forwarded to [output_subject]
    as the object with the one key [raw_data] (when the subject is not
    stopped), nothing else changes, and the loop goes on with what
    follows. *)
Theorem undecodable_message_is_forwarded_raw
    (txt : string) (inbound : list recv) (s : Manager) :
  txt <> EmptyString ->
  within_limits txt = true ->
  json_loads txt = None ->
  is_active s = true ->
  _process_responses b64decode (RecvText txt :: inbound) s
  = _process_responses b64decode inbound
      (forwarded (JObj [("raw_data", JStr txt)]) s).
Proof.
  intros Hne _ Hj Ha. rewrite process_step by assumption.
  unfold bind at 1. rewrite response_iteration_text by assumption. rewrite Hj.
  unfold try_except, bind. rewrite output_on_next_forwarded. reflexivity.
Qed.

(** X8.  A JSON object, in a message within the limits of [json.loads],
    without the key [event], or whose [event] has none of the keys
    [contentStart], [contentEnd], [textOutput] and [audioOutput], is only
    forwarded to [output_subject]: the loop goes on and the session is
    otherwise as it was. *)
Theorem unknown_event_is_only_forwarded
    (txt : string) (top : list (string * value)) (s : Manager) :
  txt <> EmptyString ->
  within_limits txt = true ->
  json_loads txt = Some (JObj top) ->
  (dict_get "event" top = None
   \/ exists ev,
        dict_get "event" top = Some (JObj ev)
        /\ dict_get "contentStart" ev = None
        /\ dict_get "contentEnd" ev = None
        /\ dict_get "textOutput" ev = None
        /\ dict_get "audioOutput" ev = None) ->
  response_iteration b64decode (RecvText txt) s
  = (Ret Continue, forwarded (JObj top) s).
Proof.
  intros Hne _ Hj H. rewrite response_iteration_text by assumption. rewrite Hj.
  unfold try_except, handle_json, output_on_next, forwarded, notify, when,
    lift_result, py_in, py_getitem, bind, get, modify, ret.
  destruct H as [H | (ev & H & H1 & H2 & H3 & H4)]; rewrite H; cbn.
  - destruct (is_stopped (output_subject s)); reflexivity.
  - rewrite H1. cbn. rewrite H2. cbn. rewrite H3. cbn. rewrite H4. cbn.
    destruct (is_stopped (output_subject s)); reflexivity.
Qed.





(** X13.  Whatever is delivered to it, and however it ends, the
    response loop sends nothing: the wire, the answers the transport
    still owes, the configuration, the stream, [is_active],
    [input_subject] and [audio_subject] are as they were. *)
Theorem response_loop_leaves_transport_alone (inbound : list recv) (s : Manager) :
  untouched s (state_of (_process_responses b64decode inbound s)).
Proof. apply keeps_process. Qed.

(** X14.  On a session that is not active the response loop reads no
    message: the task is done at once, and [output_subject] is not
    completed. *)
Theorem response_loop_does_not_run_on_inactive_session
    (inbound : list recv) (s : Manager) :
  is_active s = false ->
  _process_responses b64decode inbound s
  = (Ret Exited, set_response_task (Some TaskDone) s).
Proof.
  intros Ha. destruct inbound; cbn [_process_responses];
    unfold responses_finally, when, bind, get, modify, ret;
    rewrite Ha; cbn; rewrite ?Ha; reflexivity.
Qed.

End LoopMore.

Lemma undecodable_message_is_forwarded_raw_witness :
  _process_responses sample_b64decode [RecvText raw_message] (live sample_config calm)
  = _process_responses sample_b64decode []
      (forwarded (JObj [("raw_data", JStr raw_message)]) (live sample_config calm)).
Proof.
  apply (undecodable_message_is_forwarded_raw sample_b64decode raw_message []
           (live sample_config calm)).
  - discriminate.
  - vm_compute. reflexivity.
  - vm_compute. reflexivity.
  - reflexivity.
Defined.

Lemma unknown_event_is_only_forwarded_witness :
  response_iteration sample_b64decode (RecvText usage_event) (live sample_config calm)
  = (Ret Continue,
     forwarded
       (JObj [("event", JObj [("usageEvent", JObj [("totalTokens", JNum "12")])])])
       (live sample_config calm)).
Proof.
  apply (unknown_event_is_only_forwarded sample_b64decode usage_event
           [("event", JObj [("usageEvent", JObj [("totalTokens", JNum "12")])])]
           (live sample_config calm)).
  - discriminate.
  - vm_compute. reflexivity.
  - vm_compute. reflexivity.
  - right. exists [("usageEvent", JObj [("totalTokens", JNum "12")])].
    repeat split; reflexivity.
Defined.




Lemma audio_event_A_decodes :
  audio_message sample_b64decode audio_event_A [Byte.x01; Byte.x02].
Proof.
  split; [discriminate|].
  exists [("event", JObj [("audioOutput", JObj [("content", JStr "AQI=")])])],
         [("audioOutput", JObj [("content", JStr "AQI=")])],
         [("content", JStr "AQI=")], "AQI="%string.
  repeat split; vm_compute; reflexivity.
Defined.

Lemma audio_event_B_decodes :
  audio_message sample_b64decode audio_event_B [Byte.x03].
Proof.
  split; [discriminate|].
  exists [("event", JObj [("audioOutput", JObj [("content", JStr "Aw==")])])],
         [("audioOutput", JObj [("content", JStr "Aw==")])],
         [("content", JStr "Aw==")], "Aw=="%string.
  repeat split; vm_compute; reflexivity.
Defined.


Lemma response_loop_does_not_run_on_inactive_session_witness :
  _process_responses sample_b64decode [RecvText audio_event_A]
    (new_manager sample_config calm)
  = (Ret Exited, set_response_task (Some TaskDone) (new_manager sample_config calm)).
Proof.
  apply (response_loop_does_not_run_on_inactive_session sample_b64decode
           [RecvText audio_event_A] (new_manager sample_config calm)).
  reflexivity.
Defined.

(** ** No sender raises *)

Lemma send_raw_event_returns (ev : string) (s : Manager) :
  exists s', send_raw_event ev s = (Ret tt, s').
Proof.
  destruct (stream_response s) as [u|] eqn:Hs.
  - destruct (is_active s) eqn:Ha.
    + destruct (send_raw_event_sent ev s) as (s' & E & _);
        [rewrite Hs; discriminate | exact Ha | now exists s'].
    + eexists. unfold send_raw_event, bind, get. rewrite Hs, Ha. reflexivity.
  - eexists. unfold send_raw_event, bind, get. rewrite Hs. reflexivity.
Qed.

Lemma handle_audio_returns (audio : bytes) (s : Manager) :
  exists s', _handle_audio_input audio s = (Ret tt, s').
Proof.
  destruct audio as [|b audio]; [eexists; reflexivity|].
  destruct (audio_event_text (prompt_name (cfg s)) (audio_content_name (cfg s))
              (Base64.b64encode (b :: audio))) as (w & _ & P).
  set (s0 := set_console
               (console s ++ [DebugLen "Processing audio chunk of size (bytes): "
                                (length (b :: audio))]) s).
  destruct (send_raw_event_returns w s0) as (s1 & E1).
  exists s1.
  unfold _handle_audio_input, try_except, bind at 1, get at 1.
  unfold bind at 1. unfold log, modify. fold s0.
  unfold bind. assert (G : cfg s0 = cfg s) by (destruct s; reflexivity).
  rewrite P, E1. reflexivity.
Qed.

Lemma content_start_returns (s : Manager) :
  exists s', send_audio_content_start_event s = (Ret tt, s').
Proof.
  destruct (content_start_text (prompt_name (cfg s)) (audio_content_name (cfg s)))
    as (w & _ & P).
  destruct (send_raw_event_returns w s) as (s' & E).
  exists s'. unfold send_audio_content_start_event, bind, get. now rewrite P, E.
Qed.


(** ** A chunk of audio on a session that is on air *)

(** [_handle_audio_input] on an active session *)
Lemma handle_audio_sent (audio : bytes) (s : Manager) :
  stream_response s <> None -> is_active s = true -> audio <> [] ->
  exists w s',
    encode (AudioInput (prompt_name (cfg s)) (audio_content_name (cfg s)) audio)
    = Some w
    /\ _handle_audio_input audio s = (Ret tt, s')
    /\ sent s [w] s'.
Proof.
  intros Hs Ha Hne.
  destruct (audio_event_text (prompt_name (cfg s)) (audio_content_name (cfg s))
              (Base64.b64encode audio)) as (w & F & P).
  set (s0 := set_console
               (console s ++ [DebugLen "Processing audio chunk of size (bytes): "
                                (length audio)]) s).
  assert (Hs0 : stream_response s0 <> None) by (destruct s; exact Hs).
  assert (Ha0 : is_active s0 = true) by (destruct s; exact Ha).
  destruct (send_raw_event_sent w s0 Hs0 Ha0) as (s1 & E1 & S1).
  exists w, s1. split; [exact F|]. split.
  - destruct audio as [|b audio]; [congruence|].
    unfold _handle_audio_input, try_except, bind at 1, get at 1.
    unfold bind at 1. unfold log, modify. fold s0.
    unfold bind. rewrite P, E1. reflexivity.
  - destruct s; exact S1.
Qed.

Lemma add_audio_chunk_sent (audio : bytes) (s : Manager) :
  on_air s -> audio <> [] ->
  exists w s',
    encode (AudioInput (prompt_name (cfg s)) (audio_content_name (cfg s)) audio)
    = Some w
    /\ add_audio_chunk audio s = (Ret tt, s')
    /\ sent s [w] s'.
Proof.
  intros (Hs & Ha & Hst & Hob) Hne.
  destruct (handle_audio_sent audio s Hs Ha Hne) as (w & s' & F & E & S).
  exists w, s'. split; [exact F|]. split; [|exact S].
  unfold add_audio_chunk, when, bind, get. now rewrite Hst, Hob.
Qed.


End SessionFacts.

(* ================================================================== *)
(** * More properties of the playback loop *)
(* ================================================================== *)

Module PlaybackFacts.
Import PyStr Json Bedrock Audio Samples Frames Lifecycle Cases.
Import CodecFacts ManagerFacts AudioFacts.
Local Open Scope nat_scope.

Section Loop.

Variable CHUNK_SIZE : nat.

Local Abbreviation play_step := (Audio.play_step CHUNK_SIZE).
Local Abbreviation play_steps := (Audio.play_steps CHUNK_SIZE).

Lemma playback_except_written (e : exn) (a : AudioStreamer) :
  written (playback_except e a) = written a.
Proof. unfold playback_except, print_line. destruct (is_streaming a); reflexivity. Qed.

Ltac by_cases :=
  repeat (match goal with
          | |- context [match ?x with _ => _ end] => destruct x eqn:?
          end; cbn).

Lemma play_step_frame (d : DeviceReply) (a : AudioStreamer) :
  untouched (stream_manager a) (stream_manager (play_step d a))
  /\ is_streaming (play_step d a) = is_streaming a
  /\ output_stream (play_step d a) = output_stream a.
Proof.
  unfold Audio.play_step, playback_except, print_line.
  destruct a as [m st os wr pc].
  destruct m as [c bc sr ia bi rt q da ro isub osub asub en w co no].
  cbn. by_cases; repeat split.
Qed.

Lemma slice_length (audio_data : bytes) (i : nat) :
  length (slice audio_data i (Nat.min (i + CHUNK_SIZE) (length audio_data)))
  <= CHUNK_SIZE.
Proof.
  unfold slice. rewrite length_firstn. lia.
Qed.

(** X17.  Whatever the device answers, the playback task sends nothing
    and changes neither [is_streaming] nor [output_stream]: a turn of
    the loop leaves the wire, the answers the transport still owes, the
    configuration, the stream, [is_active] and the two sending subjects
    of the manager as they were. *)
Theorem playback_leaves_transport_alone (d : DeviceReply) (a : AudioStreamer) :
  untouched (stream_manager a) (stream_manager (play_step d a))
  /\ is_streaming (play_step d a) = is_streaming a
  /\ output_stream (play_step d a) = output_stream a.
Proof. apply play_step_frame. Qed.

(** X18.  From one suspension to the next the playback task writes
    nothing or exactly one chunk.  It writes only in the [for] loop,
    while [is_streaming] is set and the device says it is active; the
    chunk is the slice of the buffer in hand at the current index, and
    it has at most [CHUNK_SIZE] bytes. *)
Theorem a_turn_writes_at_most_one_chunk (d : DeviceReply) (a : AudioStreamer) :
  written (play_step d a) = written a
  \/ exists audio_data i chunk,
       playback a = Writing audio_data i
       /\ is_streaming a = true
       /\ is_active_reply d = Returns true
       /\ chunk = slice audio_data i (Nat.min (i + CHUNK_SIZE) (length audio_data))
       /\ length chunk <= CHUNK_SIZE
       /\ written (play_step d a) = written a ++ [chunk].
Proof.
  unfold Audio.play_step.
  destruct (playback a) as [| |audio_data i|] eqn:Hp.
  - left. destruct (is_streaming a); cbn [negb]; [|reflexivity].
    destruct (barge_in (stream_manager a)); reflexivity.
  - left. destruct (audio_output_queue (stream_manager a)) as [|audio_data q];
      [reflexivity|].
    cbn [is_streaming set_stream_manager output_stream].
    destruct audio_data as [|b audio_data], (is_streaming a), (output_stream a);
      try reflexivity.
    destruct (is_active_reply d) as [[|]|e];
      [destruct (CHUNK_SIZE =? 0)| |]; try reflexivity;
      now rewrite playback_except_written.
  - destruct (is_streaming a) eqn:Hs; cbn [negb]; [|left; reflexivity].
    destruct (output_stream a) as [u|]; [|left; reflexivity].
    destruct (is_active_reply d) as [[|]|e] eqn:Hd;
      [destruct (write_reply d) as [u'|e]| |];
      try (left; reflexivity); try (left; apply playback_except_written).
    right. exists audio_data, i, (slice audio_data i (Nat.min (i + CHUNK_SIZE) (length audio_data))).
    repeat split. apply slice_length.
  - left. reflexivity.
Qed.

(** A turn of the loop once [is_streaming] is cleared *)
Lemma idle_step (d : DeviceReply) (a : AudioStreamer) :
  is_streaming a = false ->
  is_streaming (play_step d a) = false
  /\ written (play_step d a) = written a
  /\ (playback (play_step d a) = Finished
      \/ (playback (play_step d a) = AtLoopHead
          /\ playback a <> AtLoopHead /\ playback a <> Finished)).
Proof.
  intros Hs. unfold Audio.play_step.
  destruct (playback a) as [| |audio_data i|] eqn:Hp.
  - rewrite Hs. cbn. auto.
  - destruct (audio_output_queue (stream_manager a)) as [|audio_data q].
    + cbn. repeat split; auto. right. repeat split; congruence.
    + cbn [is_streaming set_stream_manager output_stream]. rewrite Hs.
      destruct audio_data; cbn; repeat split; auto; right; repeat split; congruence.
  - rewrite Hs. cbn. repeat split; auto. right. repeat split; congruence.
  - rewrite Hp. auto.
Qed.

Lemma finished_stays (ds : list DeviceReply) : forall (a : AudioStreamer),
  playback a = Finished -> play_steps ds a = a.
Proof.
  induction ds as [|d ds IH]; intros a Hp; [reflexivity|].
  unfold Audio.play_steps. cbn [fold_left].
  assert (E : play_step d a = a) by (unfold Audio.play_step; now rewrite Hp).
  rewrite E. now apply IH.
Qed.

(** X19.  Once [is_streaming] is cleared the playback loop is left
    within two turns, wherever it was suspended and whatever the device
    answers, and nothing more is written: the rest of a buffer in hand
    is given up, and a buffer taken from the queue in those turns is
    dropped. *)
Theorem cleared_flag_ends_the_loop_without_a_write
    (d1 d2 : DeviceReply) (ds : list DeviceReply) (a : AudioStreamer) :
  is_streaming a = false ->
  playback (play_steps (d1 :: d2 :: ds) a) = Finished
  /\ written (play_steps (d1 :: d2 :: ds) a) = written a.
Proof.
  intros Hs.
  destruct (idle_step d1 a Hs) as (Hs1 & Hw1 & Hp1).
  destruct (idle_step d2 (play_step d1 a) Hs1) as (Hs2 & Hw2 & Hp2).
  assert (Hf : playback (play_step d2 (play_step d1 a)) = Finished).
  { destruct Hp2 as [Hf | (_ & Hn1 & Hn2)]; [exact Hf|].
    destruct Hp1 as [Hf | (Hh & _)]; congruence. }
  unfold Audio.play_steps. cbn [fold_left].
  fold (play_steps ds (play_step d2 (play_step d1 a))).
  rewrite finished_stays by exact Hf.
  split; [exact Hf | congruence].
Qed.

Lemma inactive_takes_one (d1 d2 : DeviceReply) (a : AudioStreamer)
    (audio_data : bytes) (q : list bytes) :
  is_streaming a = true ->
  barge_in (stream_manager a) = false ->
  playback a = AtLoopHead ->
  audio_output_queue (stream_manager a) = audio_data :: q ->
  is_active_reply d2 = Returns false ->
  is_streaming (play_step d2 (play_step d1 a)) = true
  /\ barge_in (stream_manager (play_step d2 (play_step d1 a))) = false
  /\ playback (play_step d2 (play_step d1 a)) = AtLoopHead
  /\ audio_output_queue (stream_manager (play_step d2 (play_step d1 a))) = q
  /\ written (play_step d2 (play_step d1 a)) = written a.
Proof.
  intros Hs Hb Hp Hq Hd.
  assert (E1 : play_step d1 a = set_playback AwaitGet a).
  { unfold Audio.play_step. now rewrite Hp, Hs, Hb. }
  rewrite E1. unfold Audio.play_step.
  cbn [playback set_playback stream_manager is_streaming output_stream].
  rewrite Hq. cbn [is_streaming set_stream_manager output_stream set_playback].
  rewrite Hs, Hd.
  destruct audio_data, (output_stream a); destruct (stream_manager a); cbn in *;
    repeat split; assumption.
Qed.

(** X20.  While the device says it is not active the playback loop
    still takes the buffers from the queue, one every two turns, and
    writes none of them: the queue ends up empty and the buffers are
    lost, not kept for the time the device is active again. *)
Theorem inactive_device_loses_the_queue (q : list bytes) :
  forall (ds : list DeviceReply) (a : AudioStreamer),
  is_streaming a = true ->
  barge_in (stream_manager a) = false ->
  playback a = AtLoopHead ->
  audio_output_queue (stream_manager a) = q ->
  Forall (fun d => is_active_reply d = Returns false) ds ->
  length ds = 2 * length q ->
  audio_output_queue (stream_manager (play_steps ds a)) = []
  /\ written (play_steps ds a) = written a
  /\ playback (play_steps ds a) = AtLoopHead.
Proof.
  induction q as [|audio_data q IH]; intros ds a Hs Hb Hp Hq Hd Hl.
  - destruct ds; [|discriminate]. cbn. auto.
  - destruct ds as [|d1 [|d2 ds]]; cbn in Hl; try lia.
    inversion_clear Hd as [|? ? _ Hd']. inversion_clear Hd' as [|? ? Hd2 Hd''].
    destruct (inactive_takes_one d1 d2 a audio_data q Hs Hb Hp Hq Hd2)
      as (Hs' & Hb' & Hp' & Hq' & Hw').
    unfold Audio.play_steps. cbn [fold_left].
    fold (play_steps ds (play_step d2 (play_step d1 a))).
    destruct (IH ds _ Hs' Hb' Hp' Hq' Hd'') as (Q & W & P);
      [lia|].
    rewrite Q, W, P, Hw'. auto.
Qed.

End Loop.

Lemma cleared_flag_ends_the_loop_without_a_write_witness :
  playback (play_steps 2 [healthy; healthy] (idle_with_queue AwaitGet)) = Finished
  /\ written (play_steps 2 [healthy; healthy] (idle_with_queue AwaitGet))
     = written (idle_with_queue AwaitGet).
Proof.
  apply (cleared_flag_ends_the_loop_without_a_write 2 healthy healthy []
           (idle_with_queue AwaitGet)).
  reflexivity.
Defined.

Lemma inactive_device_loses_the_queue_witness :
  audio_output_queue
    (stream_manager (play_steps 2 [silent; silent; silent; silent] playing_with_queue))
  = []
  /\ written (play_steps 2 [silent; silent; silent; silent] playing_with_queue)
     = written playing_with_queue
  /\ playback (play_steps 2 [silent; silent; silent; silent] playing_with_queue)
     = AtLoopHead.
Proof.
  apply (inactive_device_loses_the_queue 2 [[Byte.x01; Byte.x02]; [Byte.x03]]
           [silent; silent; silent; silent] playing_with_queue).
  - reflexivity.
  - reflexivity.
  - reflexivity.
  - reflexivity.
  - repeat (apply Forall_cons; [reflexivity|]). apply Forall_nil.
  - reflexivity.
Defined.

End PlaybackFacts.

(* ================================================================== *)
(** * Properties of opening, starting and stopping the streamer *)
(* ================================================================== *)

Module StreamerFacts.
Import PyStr Json Bedrock Audio Samples Frames Lifecycle Cases.
Import CodecFacts ManagerFacts AudioFacts SessionFacts PlaybackFacts.
Local Open Scope nat_scope.
Local Open Scope streamer_scope.

Lemma undisturbed_refl (h : Streamer) : undisturbed h h.
Proof. repeat split. Qed.

Lemma undisturbed_trans (h1 h2 h3 : Streamer) :
  undisturbed h1 h2 -> undisturbed h2 h3 -> undisturbed h1 h3.
Proof.
  intros (U1 & A1 & A2 & A3 & A4 & A5 & A6) (U2 & B1 & B2 & B3 & B4 & B5 & B6).
  split; [eapply untouched_trans; eassumption|].
  repeat split; congruence.
Qed.

Lemma say_undisturbed (l : line) (h : Streamer) :
  exists h', say l h = (Ret tt, h') /\ undisturbed h h'.
Proof.
  eexists. split; [reflexivity|].
  destruct h as [[m st os wr pc] ins task cs]. destruct m. repeat split.
Qed.

Lemma and_then_ret {A B : Type} (m : S A) (k : A -> S B) (h h' : Streamer) (a : A) :
  m h = (Ret a, h') -> and_then m k h = k a h'.
Proof. intros E. unfold and_then. now rewrite E. Qed.

Lemma close_input_stream_undisturbed (d : PyAudioReply) (h : Streamer) :
  exists h', close_input_stream d h = (Ret tt, h') /\ undisturbed h h'.
Proof.
  destruct h as [[m st os wr pc] ins task cs]. destruct m.
  destruct d as [d1 d2 d3 d4 d5 d6 d7 d8 d9 d10].
  unfold close_input_stream, attempt, only_if, device, say, on_manager, log,
    modify, and_then, self, pure.
  destruct ins as [u|], d4 as [[|]|e4], d6 as [u6|e6], d7 as [u7|e7]; cbn;
    eexists; (split; [reflexivity|]); repeat split.
Qed.

Lemma close_output_stream_undisturbed (d : PyAudioReply) (h : Streamer) :
  exists h', close_output_stream d h = (Ret tt, h') /\ undisturbed h h'.
Proof.
  destruct h as [[m st os wr pc] ins task cs]. destruct m.
  destruct d as [d1 d2 d3 d4 d5 d6 d7 d8 d9 d10].
  unfold close_output_stream, attempt, only_if, device, say, on_manager, log,
    modify, and_then, self, pure.
  destruct os as [u|], d8 as [[|]|e8], d9 as [u9|e9]; cbn;
    eexists; (split; [reflexivity|]); repeat split.
Qed.

(** The answer of [close] *)
Lemma close_answer (s : Manager) :
  result_of (close s)
  = if is_active s
    then match stream_response s, close_reply (env s) with
         | Some _, Some e => Raise e
         | _, _ => Ret tt
         end
    else Ret tt.
Proof.
  destruct (is_active s) eqn:Ha; [|now rewrite close_inactive].
  destruct s as [c bc sr ia bi rt q da ro [ist iex iob] osub [ast aex aob]
                   [cr srs clr] w co no].
  simpl in Ha. subst ia. run_close.
  destruct ist, ast, rt as [[| |]|], sr as [u|], clr as [e|]; reflexivity.
Qed.

(** The record that [close] adds to the wire *)
Lemma close_wire_any (s : Manager) :
  wire (state_of (close s))
  = wire s ++ (if is_active s
               then match stream_response s with
                    | None => []
                    | Some _ => [match close_reply (env s) with
                                 | None => InputClosed
                                 | Some e => CloseFailed e
                                 end]
                    end
               else []).
Proof.
  destruct (is_active s) eqn:Ha.
  - now apply close_wire.
  - rewrite close_inactive by exact Ha. cbn. now rewrite app_nil_r.
Qed.

(** The end of [stop_streaming], from [p.terminate()] on (lines 205-211) *)
Lemma stop_tail (d : PyAudioReply) (h1 : Streamer) :
  let r := (device Terminate (terminate d) ;;
            say (Debug "PyAudio terminated.") ;;
            on_manager close ;;
            say (Debug "Bedrock stream manager closed.")) h1 in
  let m1 := stream_manager (core h1) in
  is_streaming (core (after r)) = is_streaming (core h1)
  /\ written (core (after r)) = written (core h1)
  /\ playback (core (after r)) = playback (core h1)
  /\ calls (after r) = calls h1 ++ [Terminate]
  /\ match terminate d with
     | Raises e =>
         outcome r = Raise e
         /\ stream_manager (core (after r)) = m1
     | Returns _ =>
         outcome r = result_of (close m1)
         /\ is_active (stream_manager (core (after r))) = false
         /\ wire (stream_manager (core (after r))) = wire (state_of (close m1))
     end.
Proof.
  destruct h1 as [[m st os wr pc] ins task cs].
  cbn zeta. cbn [core stream_manager].
  unfold device, say, on_manager, and_then, log, modify.
  cbn [core stream_manager set_core set_stream_manager set_calls calls
       is_streaming output_stream written playback input_stream output_task].
  destruct (terminate d) as [u|e]; [|cbn; repeat split].
  set (m1 := set_console (console m ++ [Debug "PyAudio terminated."]) m).
  pose proof (close_deactivates m1) as Hd.
  pose proof (close_answer m1) as Hr.
  pose proof (close_wire_any m1) as Hw.
  pose proof (close_answer m) as Hr0.
  pose proof (close_wire_any m) as Hw0.
  assert (F : is_active m1 = is_active m /\ stream_response m1 = stream_response m
              /\ env m1 = env m /\ wire m1 = wire m)
    by (destruct m; repeat split).
  destruct F as (F1 & F2 & F3 & F4).
  rewrite F1, F2, F3 in Hr. rewrite F1, F2, F3, F4 in Hw.
  rewrite <- Hr0 in Hr. rewrite <- Hw0 in Hw.
  destruct (close m1) as [[[]|e] m2]; cbn in *;
    repeat split; try assumption; try (symmetry; assumption).
Qed.

Section Streaming.

Variable CHUNK_SIZE : nat.
Variable b64decode : string -> option bytes.

Local Abbreviation stream_step := (Lifecycle.stream_step CHUNK_SIZE b64decode).
Local Abbreviation stream_run := (Lifecycle.stream_run CHUNK_SIZE b64decode).
Local Abbreviation stop_streaming := (Lifecycle.stop_streaming CHUNK_SIZE b64decode).
Local Abbreviation begin_streaming := (Lifecycle.begin_streaming).
Local Abbreviation start_streaming := (Lifecycle.start_streaming CHUNK_SIZE b64decode).

Lemma keeps_dispatcher (r : recv) : keeps (dispatcher_step b64decode r).
Proof.
  unfold dispatcher_step.
  repeat first [apply keeps_process | keeps_step].
Qed.

Lemma delivery_undisturbed (r : recv) (h : Streamer) :
  undisturbed h (stream_step (Scheduled (Inbound r)) h).
Proof.
  pose proof (keeps_dispatcher r (stream_manager (core h))) as U.
  destruct h as [[m st os wr pc] ins task cs]. cbn in *.
  repeat split; apply U.
Qed.

Lemma deliveries_undisturbed (during : list recv) : forall (h : Streamer),
  undisturbed h (stream_run (map (fun r => Scheduled (Inbound r)) during) h).
Proof.
  induction during as [|r during IH]; intros h; [apply undisturbed_refl|].
  unfold Lifecycle.stream_run. cbn [map fold_left].
  eapply undisturbed_trans; [apply delivery_undisturbed | apply IH].
Qed.

Lemma stop_streaming_prefix (d : PyAudioReply) (during : list recv) (h : Streamer) :
  is_streaming (core h) = true ->
  exists h1,
    stop_streaming d during h
    = (device Terminate (terminate d) ;;
       say (Debug "PyAudio terminated.") ;;
       on_manager close ;;
       say (Debug "Bedrock stream manager closed.")) h1
    /\ untouched (stream_manager (core h)) (stream_manager (core h1))
    /\ is_streaming (core h1) = false
    /\ written (core h1) = written (core h)
    /\ output_stream (core h1) = output_stream (core h)
    /\ input_stream h1 = input_stream h
    /\ output_task h1 = output_task h
    /\ playback (core h1)
       = if output_task h then Finished else playback (core h).
Proof.
  intros Hs.
  set (h0 := set_core (set_is_streaming false (core h)) h).
  destruct (say_undisturbed (Print "Stopping audio streaming...") h0) as (h0' & E0 & U0).
  set (hc := if output_task h0' && negb (task_done (playback (core h0')))
             then set_core (set_playback Finished
                              (core (stream_run
                                       (map (fun r => Scheduled (Inbound r)) during) h0')))
                    (stream_run (map (fun r => Scheduled (Inbound r)) during) h0')
             else h0').
  destruct (close_input_stream_undisturbed d hc) as (h2 & E2 & U2).
  destruct (close_output_stream_undisturbed d h2) as (h3 & E3 & U3).
  exists h3. split.
  - unfold Lifecycle.stop_streaming. unfold and_then at 1, self at 1.
    rewrite Hs. cbn [negb].
    unfold and_then at 1, update at 1. fold h0.
    unfold and_then at 1. rewrite E0.
    unfold and_then at 1, self at 1.
    assert (Ec : only_if (output_task h0' && negb (task_done (playback (core h0'))))
                   (update (stream_run (map (fun r => Scheduled (Inbound r)) during)) ;;
                    update (fun h1 => set_core (set_playback Finished (core h1)) h1))
                   h0' = (Ret tt, hc)).
    { unfold hc.
      destruct (output_task h0' && negb (task_done (playback (core h0'))));
        reflexivity. }
    unfold and_then at 1. rewrite Ec.
    unfold and_then at 1. rewrite E2.
    unfold and_then at 1. rewrite E3. reflexivity.
  - assert (Uc : untouched (stream_manager (core h0')) (stream_manager (core hc))
                 /\ is_streaming (core hc) = is_streaming (core h0')
                 /\ output_stream (core hc) = output_stream (core h0')
                 /\ written (core hc) = written (core h0')
                 /\ input_stream hc = input_stream h0'
                 /\ output_task hc = output_task h0'
                 /\ playback (core hc)
                    = if output_task h0' then Finished else playback (core h0')).
    { unfold hc. clear hc E2 U2.
      destruct (deliveries_undisturbed during h0') as (V1 & V2 & V3 & V4 & V5 & V6 & V7).
      destruct (output_task h0') eqn:Ht; cbn [andb];
        [|split; [apply untouched_refl | repeat split; assumption]].
      destruct (playback (core h0')) eqn:Hp; cbn [task_done negb];
        cbn [core set_core set_playback stream_manager is_streaming output_stream
             written playback input_stream output_task];
        rewrite ?Ht;
        (split; [first [exact V1 | apply untouched_refl]
                | repeat split; try assumption; reflexivity]). }
    destruct Uc as (C1 & C2 & C3 & C4 & C5 & C6 & C7).
    destruct U0 as (A1 & A2 & A3 & A4 & A5 & A6 & A7).
    destruct U2 as (B1 & B2 & B3 & B4 & B5 & B6 & B7).
    destruct U3 as (D1 & D2 & D3 & D4 & D5 & D6 & D7).
    assert (H0 : stream_manager (core h0) = stream_manager (core h)
                 /\ is_streaming (core h0) = false
                 /\ output_stream (core h0) = output_stream (core h)
                 /\ written (core h0) = written (core h)
                 /\ playback (core h0) = playback (core h)
                 /\ input_stream h0 = input_stream h
                 /\ output_task h0 = output_task h)
      by (unfold h0; repeat split).
    destruct H0 as (Z1 & Z2 & Z3 & Z4 & Z5 & Z6 & Z7).
    split; [|repeat split; try congruence].
    + rewrite <- Z1.
      eapply untouched_trans; [exact A1|].
      eapply untouched_trans; [exact C1|].
      eapply untouched_trans; [exact B1 | exact D1].
    + rewrite D5, B5, C7, A7, A5, Z7, Z5. reflexivity.
Qed.

(** ** [stop_streaming] *)

Lemma stop_streaming_idle (d : PyAudioReply) (during : list recv) (h : Streamer) :
  is_streaming (core h) = false -> stop_streaming d during h = (Ret tt, h).
Proof.
  intros Hs. unfold Lifecycle.stop_streaming, and_then, self. now rewrite Hs.
Qed.

Lemma stop_streaming_clears_flag (d : PyAudioReply) (during : list recv) (h : Streamer) :
  is_streaming (core (after (stop_streaming d during h))) = false.
Proof.
  destruct (is_streaming (core h)) eqn:Hs.
  - destruct (stop_streaming_prefix d during h Hs) as (h1 & E & _ & F & _).
    rewrite E. destruct (stop_tail d h1) as (T & _). now rewrite T.
  - now rewrite stop_streaming_idle.
Qed.

Lemma untouched_close (m m1 : Manager) :
  untouched m m1 ->
  result_of (close m1) = result_of (close m)
  /\ wire (state_of (close m1)) = wire (state_of (close m)).
Proof.
  intros (U1 & U2 & U3 & U4 & U5 & U6 & U7).
  rewrite !close_answer, !close_wire_any, U1, U2, U4, U5. split; reflexivity.
Qed.

(** X21.  [stop_streaming] called again after [stop_streaming] does
    nothing, however the first call ended: [is_streaming] is cleared
    before anything that can raise, so the second call returns at once
    and leaves the streamer as it is. *)
Theorem stop_streaming_twice_is_once
    (d d' : PyAudioReply) (during during' : list recv) (h : Streamer) :
  stop_streaming d' during' (after (stop_streaming d during h))
  = (Ret tt, after (stop_streaming d during h)).
Proof. apply stop_streaming_idle, stop_streaming_clears_flag. Qed.

Lemma stop_streaming_closes_session_lemma
    (d : PyAudioReply) (during : list recv) (h : Streamer) :
  is_streaming (core h) = true ->
  (exists u, terminate d = Returns u) ->
  outcome (stop_streaming d during h) = result_of (close (stream_manager (core h)))
  /\ is_active (stream_manager (core (after (stop_streaming d during h)))) = false
  /\ wire (stream_manager (core (after (stop_streaming d during h))))
     = wire (state_of (close (stream_manager (core h)))).
Proof.
  intros Hs [u Ht].
  destruct (stop_streaming_prefix d during h Hs) as (h1 & E & U & _).
  rewrite E. destruct (stop_tail d h1) as (_ & _ & _ & _ & T5).
  destruct (terminate d) as [u'|e]; [|discriminate]. destruct T5 as (R & A & Wi).
  destruct (untouched_close _ _ U) as (Cr & Cw).
  split; [congruence|]. split; [exact A | congruence].
Qed.

(** X22.  When PyAudio terminates normally, [stop_streaming] on a
    streaming streamer closes the session whatever the two audio streams
    answer when they are stopped and closed, and whatever is delivered
    while the playback task is cancelled: the call returns or raises
    what [close] of the manager does, the wire gets what [close] puts on
    it, the session is not active, the playback task is done if there
    was one, nothing more is written to the device, and PyAudio has
    been terminated. *)
Theorem stop_streaming_closes_the_session
    (d : PyAudioReply) (during : list recv) (h : Streamer) :
  is_streaming (core h) = true ->
  (exists u, terminate d = Returns u) ->
  outcome (stop_streaming d during h) = result_of (close (stream_manager (core h)))
  /\ is_active (stream_manager (core (after (stop_streaming d during h)))) = false
  /\ wire (stream_manager (core (after (stop_streaming d during h))))
     = wire (state_of (close (stream_manager (core h))))
  /\ is_streaming (core (after (stop_streaming d during h))) = false
  /\ written (core (after (stop_streaming d during h))) = written (core h)
  /\ playback (core (after (stop_streaming d during h)))
     = (if output_task h then Finished else playback (core h))
  /\ In Terminate (calls (after (stop_streaming d during h))).
Proof.
  intros Hs [u Ht].
  destruct (stop_streaming_prefix d during h Hs)
    as (h1 & E & U & F & W & _ & _ & _ & P).
  rewrite E. destruct (stop_tail d h1) as (T1 & T2 & T3 & T4 & T5).
  destruct (terminate d) as [u'|e]; [|discriminate]. destruct T5 as (R & A & Wi).
  destruct (untouched_close _ _ U) as (Cr & Cw).
  split; [congruence|]. split; [exact A|]. split; [congruence|].
  split; [congruence|]. split; [congruence|]. split; [congruence|].
  rewrite T4. apply in_or_app. right. left. reflexivity.
Qed.

(** X23.  When [p.terminate()] raises, [stop_streaming] raises that
    error before it reaches [close]: the transport of the session is as
    it was (still active if it was, nothing on the wire), and since
    [is_streaming] is already cleared every later call of
    [stop_streaming] returns at once, so the streamer never closes the
    session. *)
Theorem failed_terminate_leaves_the_session_open
    (d : PyAudioReply) (during : list recv) (h : Streamer) (e : exn) :
  is_streaming (core h) = true ->
  terminate d = Raises e ->
  outcome (stop_streaming d during h) = Raise e
  /\ untouched (stream_manager (core h))
       (stream_manager (core (after (stop_streaming d during h))))
  /\ forall d' during',
       stop_streaming d' during' (after (stop_streaming d during h))
       = (Ret tt, after (stop_streaming d during h)).
Proof.
  intros Hs Ht.
  split; [|split].
  - destruct (stop_streaming_prefix d during h Hs) as (h1 & E & _).
    rewrite E. destruct (stop_tail d h1) as (_ & _ & _ & _ & T5).
    destruct (terminate d) as [u|e']; [discriminate|].
    injection Ht as ->. apply T5.
  - destruct (stop_streaming_prefix d during h Hs) as (h1 & E & U & _).
    rewrite E. destruct (stop_tail d h1) as (_ & _ & _ & _ & T5).
    destruct (terminate d) as [u|e']; [discriminate|].
    destruct T5 as (_ & M). now rewrite M.
  - intros d' during'. apply stop_streaming_idle, stop_streaming_clears_flag.
Qed.

(** ** When [is_streaming] is false *)

Lemma input_callback_idle (in_data : bytes) (h : Streamer) :
  is_streaming (core h) = false -> input_callback in_data h = (Ret tt, h).
Proof.
  intros Hs. unfold input_callback, and_then, self. now rewrite Hs.
Qed.

Lemma idle_event (ev : event) (h : Streamer) :
  is_streaming (core h) = false ->
  is_streaming (core (stream_step ev h)) = false
  /\ written (core (stream_step ev h)) = written (core h)
  /\ untouched (stream_manager (core h)) (stream_manager (core (stream_step ev h))).
Proof.
  intros Hs. destruct ev as [in_data|[r|d]].
  - unfold Lifecycle.stream_step. rewrite input_callback_idle by exact Hs.
    cbn. repeat split; assumption.
  - destruct (delivery_undisturbed r h) as (U & A & _ & W & _).
    split; [congruence|]. split; [exact W | exact U].
  - cbn [Lifecycle.stream_step sys_step core set_core].
    destruct (idle_step CHUNK_SIZE d (core h) Hs) as (A & W & _).
    destruct (play_step_frame CHUNK_SIZE d (core h)) as (U & _).
    split; [exact A|]. split; [exact W | exact U].
Qed.

Lemma idle_events (evs : list event) : forall (h : Streamer),
  is_streaming (core h) = false ->
  written (core (stream_run evs h)) = written (core h)
  /\ untouched (stream_manager (core h)) (stream_manager (core (stream_run evs h))).
Proof.
  induction evs as [|ev evs IH]; intros h Hs.
  - split; [reflexivity | apply untouched_refl].
  - unfold Lifecycle.stream_run. cbn [fold_left].
    destruct (idle_event ev h Hs) as (A & W & U).
    destruct (IH _ A) as (W' & U').
    split; [unfold Lifecycle.stream_run in W'; congruence|].
    eapply untouched_trans; [exact U | exact U'].
Qed.

(** X24.  After [stop_streaming], however it ended, whatever happens
    next (audio captured by PyAudio, messages delivered to the response
    loop, turns of a playback task) writes nothing to the device and
    sends nothing: captured audio is ignored by [input_callback]. *)
Theorem nothing_is_played_or_sent_after_stop
    (d : PyAudioReply) (during : list recv) (h : Streamer) (evs : list event) :
  written (core (stream_run evs (after (stop_streaming d during h))))
  = written (core (after (stop_streaming d during h)))
  /\ untouched (stream_manager (core (after (stop_streaming d during h))))
       (stream_manager (core (stream_run evs (after (stop_streaming d during h))))).
Proof. apply idle_events, stop_streaming_clears_flag. Qed.

(** ** While [start_streaming] waits *)

Lemma transmitted_untouched (s s' : Manager) :
  untouched s s' -> transmitted s [] s'.
Proof.
  intros (U1 & U2 & U3 & U4 & U5 & U6 & U7).
  unfold transmitted. cbn. rewrite app_nil_r, U2. repeat split; assumption.
Qed.

Lemma transmitted_sent (s s' : Manager) (evs : list string) :
  sent s evs s' -> transmitted s evs s'.
Proof.
  intros ((W & R & _ & C & G & SR & A & _) & _ & _ & _ & _ & _ & _ & U).
  repeat split; assumption.
Qed.

Lemma transmitted_app (s s1 s2 : Manager) (a b : list string) :
  transmitted s a s1 -> transmitted s1 b s2 -> transmitted s (a ++ b) s2.
Proof.
  intros (W1 & R1 & C1 & G1 & S1 & A1 & U1) (W2 & R2 & C2 & G2 & S2 & A2 & U2).
  repeat split; try congruence.
  - rewrite W2, W1, R1, outcomes_app, app_assoc. reflexivity.
  - rewrite R2, R1, skipn_skipn, length_app. f_equal. lia.
Qed.

Lemma on_air_transmitted (s s' : Manager) (evs : list string) :
  on_air s -> transmitted s evs s' -> on_air s'.
Proof.
  intros (H1 & H2 & H3 & H4) (_ & _ & _ & _ & S & A & U).
  unfold on_air. rewrite S, A, U. repeat split; assumption.
Qed.

(** A capture while the session is on air *)
Lemma capture_on_air (in_data : bytes) (h : Streamer) :
  is_streaming (core h) = true ->
  on_air (stream_manager (core h)) ->
  in_data <> [] ->
  exists w,
    encode (AudioInput (prompt_name (cfg (stream_manager (core h))))
              (audio_content_name (cfg (stream_manager (core h)))) in_data)
    = Some w
    /\ transmitted (stream_manager (core h)) [w]
         (stream_manager (core (stream_step (Captured in_data) h)))
    /\ is_streaming (core (stream_step (Captured in_data) h)) = true
    /\ written (core (stream_step (Captured in_data) h)) = written (core h).
Proof.
  intros Hs Hon Hne.
  destruct (add_audio_chunk_sent in_data _ Hon Hne) as (w & s' & F & E & S).
  exists w. split; [exact F|].
  unfold Lifecycle.stream_step, input_callback, process_input_audio, attempt,
    on_manager, only_if, and_then, self.
  rewrite Hs. destruct in_data as [|b in_data]; [congruence|].
  cbn [nonempty andb]. rewrite E. cbn.
  split; [now apply transmitted_sent|]. split; [exact Hs | reflexivity].
Qed.

Lemma waiting_transmits (evs : list event) : forall (h : Streamer),
  is_streaming (core h) = true ->
  on_air (stream_manager (core h)) ->
  exists ws,
    map encode
      (map (AudioInput (prompt_name (cfg (stream_manager (core h))))
              (audio_content_name (cfg (stream_manager (core h)))))
         (captured evs))
    = map Some ws
    /\ transmitted (stream_manager (core h)) ws
         (stream_manager (core (stream_run evs h)))
    /\ is_streaming (core (stream_run evs h)) = true.
Proof.
  induction evs as [|ev evs IH]; intros h Hs Hon.
  - exists []. split; [reflexivity|].
    split; [apply transmitted_untouched, untouched_refl | exact Hs].
  - unfold Lifecycle.stream_run. cbn [fold_left].
    fold (stream_run evs (stream_step ev h)).
    assert (Step : exists ws0,
               map encode
                 (map (AudioInput (prompt_name (cfg (stream_manager (core h))))
                         (audio_content_name (cfg (stream_manager (core h)))))
                    (captured [ev]))
               = map Some ws0
               /\ captured (ev :: evs) = captured [ev] ++ captured evs
               /\ transmitted (stream_manager (core h)) ws0
                    (stream_manager (core (stream_step ev h)))
               /\ is_streaming (core (stream_step ev h)) = true).
    { destruct ev as [[|b in_data]|[r|d]].
      - exists []. split; [reflexivity|]. split; [reflexivity|].
        unfold Lifecycle.stream_step, input_callback, only_if, and_then, self.
        rewrite Hs. cbn. split; [apply transmitted_untouched, untouched_refl | exact Hs].
      - destruct (capture_on_air (b :: in_data) h Hs Hon) as (w & F & T & S & _);
          [discriminate|].
        exists [w]. cbn [captured map app]. rewrite F.
        split; [reflexivity|]. split; [reflexivity|]. split; assumption.
      - exists []. split; [reflexivity|]. split; [reflexivity|].
        destruct (delivery_undisturbed r h) as (U & A & _).
        split; [now apply transmitted_untouched | congruence].
      - exists []. split; [reflexivity|]. split; [reflexivity|].
        cbn [Lifecycle.stream_step sys_step core set_core].
        destruct (play_step_frame CHUNK_SIZE d (core h)) as (U & A & _).
        split; [now apply transmitted_untouched | congruence]. }
    destruct Step as (ws0 & F0 & C0 & T0 & S0).
    destruct (IH _ S0 (on_air_transmitted _ _ _ Hon T0)) as (ws & F & T & S1).
    exists (ws0 ++ ws).
    destruct T0 as (W0 & R0 & C0' & G0 & T0').
    split; [|split; [|exact S1]].
    + rewrite C0, !map_app, F0. rewrite G0 in F. now rewrite F.
    + eapply transmitted_app; [|exact T]. repeat split; try assumption; apply T0'.
Qed.

(** X25.  While the streamer is streaming on a session that is on air,
    every capture that is not empty is sent by [input_callback] as one
    audioInput event, in the order of capture, whatever the transport
    answers and however the captures are interleaved with deliveries to
    the response loop and turns of the playback task, which add nothing
    to the wire; empty captures are skipped; the session stays on
    air. *)
Theorem captured_audio_is_sent_in_order (evs : list event) (h : Streamer) :
  is_streaming (core h) = true ->
  on_air (stream_manager (core h)) ->
  exists ws,
    map encode
      (map (AudioInput (prompt_name (cfg (stream_manager (core h))))
              (audio_content_name (cfg (stream_manager (core h)))))
         (captured evs))
    = map Some ws
    /\ wire (stream_manager (core (stream_run evs h)))
       = wire (stream_manager (core h))
         ++ outcomes ws (send_replies (env (stream_manager (core h))))
    /\ on_air (stream_manager (core (stream_run evs h))).
Proof.
  intros Hs Hon.
  destruct (waiting_transmits evs h Hs Hon) as (ws & F & T & _).
  exists ws. split; [exact F|]. split; [apply T|].
  eapply on_air_transmitted; eassumption.
Qed.

(** ** [start_streaming] *)

Lemma content_start_sent (s : Manager) :
  stream_response s <> None -> is_active s = true ->
  exists ev s',
    encode (ContentStartAudio (prompt_name (cfg s)) (audio_content_name (cfg s)))
    = Some ev
    /\ send_audio_content_start_event s = (Ret tt, s')
    /\ sent s [ev] s'.
Proof.
  intros Hs Ha.
  destruct (content_start_text (prompt_name (cfg s)) (audio_content_name (cfg s)))
    as (ev & Hev & Hp).
  destruct (send_raw_event_sent ev s Hs Ha) as (s1 & E1 & S1).
  exists ev, s1. split; [exact Hev|]. split; [|exact S1].
  unfold send_audio_content_start_event, bind, get. now rewrite Hp.
Qed.

Lemma begin_streaming_on_air (d : PyAudioReply) (h : Streamer) :
  on_air (stream_manager (core h)) ->
  microphone_starts d h ->
  exists ev h1,
    encode (ContentStartAudio (prompt_name (cfg (stream_manager (core h))))
              (audio_content_name (cfg (stream_manager (core h)))))
    = Some ev
    /\ begin_streaming d h = (Ret tt, h1)
    /\ transmitted (stream_manager (core h)) [ev] (stream_manager (core h1))
    /\ is_streaming (core h1) = true
    /\ playback (core h1) = AtLoopHead
    /\ output_task h1 = true
    /\ written (core h1) = written (core h).
Proof.
  intros Hon Hm.
  destruct h as [[m st os wr pc] ins task cs]. cbn [core stream_manager] in *.
  set (m0 := set_console
               (console (set_console
                           (console m
                            ++ [Print "Starting audio streaming. Speak into your microphone..."])
                           m)
                ++ [Print "Press Enter to stop streaming..."])
               (set_console
                  (console m
                   ++ [Print "Starting audio streaming. Speak into your microphone..."])
                  m)).
  assert (F : stream_response m0 = stream_response m /\ is_active m0 = is_active m
              /\ cfg m0 = cfg m /\ wire m0 = wire m /\ env m0 = env m
              /\ audio_subject m0 = audio_subject m)
    by (destruct m; repeat split).
  destruct F as (F1 & F2 & F3 & F4 & F5 & F6).
  destruct Hon as (H1 & H2 & H3 & H4).
  destruct (content_start_sent m0) as (ev & m1 & Hev & E & S);
    [now rewrite F1 | now rewrite F2|].
  rewrite F3 in Hev.
  apply transmitted_sent in S.
  assert (T : transmitted m [ev] m1).
  { destruct S as (S1 & S2 & S3 & S4 & S5 & S6 & S7).
    rewrite F4, F5 in S1. rewrite F5 in S2, S3.
    repeat split; congruence. }
  unfold Lifecycle.begin_streaming, say, on_manager, device, only_if, update,
    and_then, self, log, modify.
  cbn [core stream_manager set_core set_stream_manager set_is_streaming
       input_stream is_streaming output_stream written playback output_task calls].
  fold m0. rewrite E.
  cbn [core stream_manager set_core set_stream_manager set_is_streaming
       input_stream is_streaming output_stream written playback output_task calls].
  unfold microphone_starts in Hm. cbn [input_stream] in Hm.
  destruct ins as [u|]; cbn [is_some].
  - destruct (input_is_active d) as [[|]|e]; [| |contradiction]; cbn.
    + exists ev. eexists. split; [exact Hev|]. split; [reflexivity|].
      cbn. repeat split; apply T.
    + destruct Hm as [u' ->]. cbn.
      exists ev. eexists. split; [exact Hev|]. split; [reflexivity|].
      cbn. repeat split; apply T.
  - exists ev. eexists. split; [exact Hev|]. split; [reflexivity|].
    cbn. repeat split; apply T.
Qed.

(** X26.  A whole call of [start_streaming] that ends with the Enter
    key, on a session that is on air: the contentStart of the audio
    content, then one audioInput event for each capture that is not
    empty, in order, and no contentEnd, promptEnd or sessionEnd.  When
    [p.terminate()] returns, the closing of the input stream follows,
    the call returns normally unless closing the transport raises, and
    the session is then not active.  When [p.terminate()] raises,
    nothing follows: the call raises that error, the input stream is not
    closed and the session is still active. *)
Theorem streaming_session_on_the_wire
    (d_start d_stop : PyAudioReply) (waiting : list event) (during : list recv)
    (h : Streamer) :
  is_streaming (core h) = false ->
  on_air (stream_manager (core h)) ->
  microphone_starts d_start h ->
  exists ev ws,
    encode (ContentStartAudio (prompt_name (cfg (stream_manager (core h))))
              (audio_content_name (cfg (stream_manager (core h)))))
    = Some ev
    /\ map encode
         (map (AudioInput (prompt_name (cfg (stream_manager (core h))))
                 (audio_content_name (cfg (stream_manager (core h)))))
            (captured waiting))
       = map Some ws
    /\ match terminate d_stop with
       | Returns _ =>
           wire (stream_manager
                   (core (after (start_streaming d_start waiting (Returns tt)
                                   d_stop during h))))
           = wire (stream_manager (core h))
             ++ outcomes (ev :: ws) (send_replies (env (stream_manager (core h))))
             ++ [match close_reply (env (stream_manager (core h))) with
                 | None => InputClosed
                 | Some e => CloseFailed e
                 end]
           /\ is_active (stream_manager
                           (core (after (start_streaming d_start waiting (Returns tt)
                                           d_stop during h))))
              = false
           /\ outcome (start_streaming d_start waiting (Returns tt) d_stop during h)
              = match close_reply (env (stream_manager (core h))) with
                | None => Ret tt
                | Some e => Raise e
                end
       | Raises e =>
           wire (stream_manager
                   (core (after (start_streaming d_start waiting (Returns tt)
                                   d_stop during h))))
           = wire (stream_manager (core h))
             ++ outcomes (ev :: ws) (send_replies (env (stream_manager (core h))))
           /\ is_active (stream_manager
                           (core (after (start_streaming d_start waiting (Returns tt)
                                           d_stop during h))))
              = true
           /\ outcome (start_streaming d_start waiting (Returns tt) d_stop during h)
              = Raise e
       end.
Proof.
  intros Hs Hon Hm.
  destruct (begin_streaming_on_air d_start h Hon Hm)
    as (ev & h1 & Hev & E1 & T1 & S1 & _).
  pose proof (on_air_transmitted _ _ _ Hon T1) as Hon1.
  destruct (waiting_transmits waiting h1 S1 Hon1) as (ws & F & T2 & S2).
  pose proof (on_air_transmitted _ _ _ Hon1 T2) as Hon2.
  pose proof (transmitted_app _ _ _ _ _ T1 T2) as T.
  destruct T1 as (_ & _ & _ & G1 & _). rewrite G1 in F.
  exists ev, ws. split; [exact Hev|]. split; [exact F|].
  assert (R : start_streaming d_start waiting (Returns tt) d_stop during h
              = stop_streaming d_stop during (stream_run waiting h1)).
  { unfold Lifecycle.start_streaming. unfold and_then at 1, self at 1.
    rewrite Hs. unfold and_then at 1. rewrite E1.
    unfold and_then at 1, update at 1. reflexivity. }
  rewrite R.
  destruct T as (TW & TR & TC & TG & TS & TA & TU).
  destruct Hon2 as (On1 & On2 & _).
  destruct (stop_streaming_prefix d_stop during (stream_run waiting h1) S2)
    as (h2 & E & U & _).
  rewrite E. destruct (stop_tail d_stop h2) as (_ & _ & _ & _ & T5).
  destruct (untouched_close _ _ U) as (Cr & Cw).
  destruct U as (U1 & _ & _ & _ & U5 & _).
  destruct (terminate d_stop) as [u|e].
  - destruct T5 as (O & A & W).
    rewrite O, A, W, Cr, Cw, close_answer, close_wire_any, On2, TW, TC.
    destruct (stream_response (stream_manager (core (stream_run waiting h1))));
      [|congruence].
    split; [|split; [reflexivity|]].
    + cbn [app]. now rewrite <- app_assoc.
    + destruct (close_reply (env (stream_manager (core h)))); reflexivity.
  - destruct T5 as (O & M).
    rewrite O, M, U1, U5, TW, On2. repeat split; reflexivity.
Qed.

Lemma on_manager_flag {A : Type} (m : M A) (h : Streamer) :
  is_streaming (core (after (on_manager m h))) = is_streaming (core h).
Proof.
  unfold on_manager. destruct (m (stream_manager (core h))) as [r mgr]. reflexivity.
Qed.

Lemma process_input_audio_flag (in_data : bytes) (h : Streamer) :
  is_streaming (core (after (process_input_audio in_data h))) = is_streaming (core h).
Proof.
  unfold process_input_audio, attempt.
  pose proof (on_manager_flag (add_audio_chunk in_data) h) as F.
  destruct (on_manager (add_audio_chunk in_data) h) as [[u|e] h1];
    cbn [after snd] in F; [exact F|].
  unfold and_then, self, only_if. cbv beta iota.
  destruct (is_streaming (core h1)) eqn:E1; [|cbn; congruence].
  unfold say. rewrite on_manager_flag. congruence.
Qed.

(** No event changes [is_streaming]. *)
Lemma event_keeps_flag (ev : event) (h : Streamer) :
  is_streaming (core (stream_step ev h)) = is_streaming (core h).
Proof.
  destruct ev as [in_data|[r|d]].
  - unfold Lifecycle.stream_step, input_callback, and_then, self, only_if.
    cbv beta iota.
    destruct (is_streaming (core h) && nonempty in_data); [|reflexivity].
    apply process_input_audio_flag.
  - apply delivery_undisturbed.
  - cbn [Lifecycle.stream_step sys_step core set_core].
    apply play_step_frame.
Qed.

Lemma events_keep_flag (evs : list event) : forall (h : Streamer),
  is_streaming (core (stream_run evs h)) = is_streaming (core h).
Proof.
  induction evs as [|ev evs IH]; intros h; [reflexivity|].
  unfold Lifecycle.stream_run. cbn [fold_left].
  fold (stream_run evs (stream_step ev h)).
  now rewrite IH, event_keeps_flag.
Qed.

(** [begin_streaming] sets [is_streaming] before it starts the
    microphone, and raises what the microphone raises. *)
Lemma begin_streaming_flag (d : PyAudioReply) (h : Streamer) :
  is_streaming (core (after (begin_streaming d h))) = true
  /\ outcome (begin_streaming d h)
     = match input_stream h with
       | None => Ret tt
       | Some _ =>
           match input_is_active d with
           | Raises e => Raise e
           | Returns true => Ret tt
           | Returns false =>
               match input_start_stream d with
               | Raises e => Raise e
               | Returns _ => Ret tt
               end
           end
       end.
Proof.
  destruct h as [[m st os wr pc] ins task cs].
  unfold Lifecycle.begin_streaming, say, on_manager, device, only_if, update,
    and_then, self, log, modify.
  cbn [core stream_manager set_core set_stream_manager set_is_streaming
       input_stream is_streaming output_stream written playback output_task calls].
  match goal with
  | |- context [send_audio_content_start_event ?s] =>
      destruct (content_start_returns s) as (s' & E); rewrite E
  end.
  cbn [core stream_manager set_core set_stream_manager set_is_streaming
       input_stream is_streaming output_stream written playback output_task calls].
  destruct ins as [u|]; cbn [is_some]; [|split; reflexivity].
  destruct (input_is_active d) as [[|]|e]; cbn; [split; reflexivity| |split; reflexivity].
  destruct (input_start_stream d) as [u'|e]; cbn; split; reflexivity.
Qed.

(** X27.  When [start_streaming] raises because the microphone cannot
    be asked whether it is active or cannot be started, or because
    [input] raises, [is_streaming] is left set; a later
    [stop_streaming], with PyAudio terminating normally, therefore does
    its work and leaves the session not active. *)
Theorem failed_start_leaves_streaming_set
    (d_start d_stop d : PyAudioReply) (waiting : list event) (enter : reply unit)
    (during during' : list recv) (h : Streamer) (e : exn) :
  is_streaming (core h) = false ->
  (input_stream h <> None
   /\ (input_is_active d_start = Raises e
       \/ (input_is_active d_start = Returns false
           /\ input_start_stream d_start = Raises e)))
  \/ (microphone_starts d_start h /\ enter = Raises e) ->
  (exists u, terminate d = Returns u) ->
  outcome (start_streaming d_start waiting enter d_stop during h) = Raise e
  /\ is_streaming
       (core (after (start_streaming d_start waiting enter d_stop during h)))
     = true
  /\ is_active
       (stream_manager
          (core (after (stop_streaming d during'
                          (after (start_streaming d_start waiting enter d_stop
                                    during h))))))
     = false.
Proof.
  intros Hs Hc Ht.
  destruct (begin_streaming_flag d_start h) as (Bf & Bo).
  assert (G : outcome (start_streaming d_start waiting enter d_stop during h) = Raise e
              /\ is_streaming
                   (core (after (start_streaming d_start waiting enter d_stop during h)))
                 = true).
  { assert (R : start_streaming d_start waiting enter d_stop during h
                = match begin_streaming d_start h with
                  | (Ret _, h1) =>
                      match enter with
                      | Returns _ => stop_streaming d_stop during (stream_run waiting h1)
                      | Raises e0 => (Raise e0, stream_run waiting h1)
                      end
                  | (Raise e0, h1) => (Raise e0, h1)
                  end).
    { unfold Lifecycle.start_streaming, and_then, self, update, throw.
      rewrite Hs.
      destruct (begin_streaming d_start h) as [[u|e'] h1]; [|reflexivity].
      destruct enter; reflexivity. }
    rewrite R. clear R.
    destruct (begin_streaming d_start h) as [[u|e'] h1] eqn:E1;
      cbn [outcome after fst snd] in Bf, Bo.
    - destruct Hc as [(Hi & Hc) | (Hm & He)].
      + destruct (input_stream h) as [u'|]; [|congruence].
        destruct Hc as [Hc | (Hc1 & Hc2)].
        * rewrite Hc in Bo. discriminate.
        * rewrite Hc1, Hc2 in Bo. discriminate.
      + subst enter. cbn [outcome after fst snd].
        split; [reflexivity|]. now rewrite events_keep_flag.
    - cbn. split; [|exact Bf].
      destruct Hc as [(Hi & Hc) | (Hm & He)].
      + destruct (input_stream h) as [u'|]; [|congruence].
        destruct Hc as [Hc | (Hc1 & Hc2)].
        * rewrite Hc in Bo. congruence.
        * rewrite Hc1, Hc2 in Bo. congruence.
      + unfold microphone_starts in Hm.
        destruct (input_stream h) as [u'|]; [|discriminate].
        destruct (input_is_active d_start) as [[|]|e0]; [discriminate| |contradiction].
        destruct Hm as [u0 Hm]. rewrite Hm in Bo. discriminate. }
  destruct G as (G1 & G2). split; [exact G1|]. split; [exact G2|].
  apply (stop_streaming_closes_session_lemma d during' _ G2 Ht).
Qed.

End Streaming.

(** ** Opening and closing the devices *)

(** X28.  [__init__] returns normally only when both streams are open.
    When PyAudio cannot be created nothing else is called; when the
    input stream cannot be opened PyAudio is terminated; when the output
    stream cannot be opened the input stream is closed, then PyAudio is
    terminated; the error is raised again, unless the cleanup itself
    raises, whose error then takes its place (and a failure to close
    the input stream leaves PyAudio not terminated).  In every case the
    streamer is not streaming and the manager's transport is as it
    was. *)
Theorem init_opens_both_streams_or_raises (m : Manager) (d : PyAudioReply) :
  is_streaming (core (after (__init__ m d))) = false
  /\ untouched m (stream_manager (core (after (__init__ m d))))
  /\ match new_pyaudio d, open_input d, open_output d with
     | Raises e, _, _ =>
         outcome (__init__ m d) = Raise e
         /\ calls (after (__init__ m d)) = [NewPyAudio]
     | Returns _, Raises e, _ =>
         outcome (__init__ m d)
         = Raise (match terminate d with Raises e' => e' | Returns _ => e end)
         /\ calls (after (__init__ m d)) = [NewPyAudio; OpenInput; Terminate]
     | Returns _, Returns _, Raises e =>
         match input_close d with
         | Raises e' =>
             outcome (__init__ m d) = Raise e'
             /\ calls (after (__init__ m d))
                = [NewPyAudio; OpenInput; OpenOutput; InputClose]
         | Returns _ =>
             outcome (__init__ m d)
             = Raise (match terminate d with Raises e' => e' | Returns _ => e end)
             /\ calls (after (__init__ m d))
                = [NewPyAudio; OpenInput; OpenOutput; InputClose; Terminate]
         end
     | Returns _, Returns _, Returns _ =>
         outcome (__init__ m d) = Ret tt
         /\ calls (after (__init__ m d)) = [NewPyAudio; OpenInput; OpenOutput]
         /\ input_stream (after (__init__ m d)) = Some tt
         /\ output_stream (core (after (__init__ m d))) = Some tt
     end.
Proof.
  destruct d as [d1 d2 d3 d4 d5 d6 d7 d8 d9 d10]. destruct m.
  unfold untouched.
  destruct d1 as [u1|e1]; [|vm_compute; repeat split].
  destruct d2 as [u2|e2]; [|destruct d10 as [u10|e10]; vm_compute; repeat split].
  destruct d3 as [[]|e3]; [vm_compute; repeat split|].
  destruct d7 as [u7|e7]; [|vm_compute; repeat split].
  destruct d10 as [u10|e10]; vm_compute; repeat split.
Qed.

(** X29.  Closing the two audio streams never raises: an error is
    printed and the next step is taken.  The input stream is closed when
    it says it is not active, or is active and lets itself be stopped;
    the output stream is closed whenever it answers [is_active], whatever
    happened to the input stream before. *)
Theorem each_stream_is_closed_on_its_own (d : PyAudioReply) (h : Streamer) :
  outcome ((close_input_stream d ;; close_output_stream d) h) = Ret tt
  /\ (input_stream h <> None ->
      input_is_active d = Returns false
      \/ (input_is_active d = Returns true
          /\ exists u, input_stop_stream d = Returns u) ->
      In InputClose (calls (after ((close_input_stream d ;; close_output_stream d) h))))
  /\ (output_stream (core h) <> None ->
      (exists b, output_is_active d = Returns b) ->
      In OutputClose (calls (after ((close_input_stream d ;; close_output_stream d) h)))).
Proof.
  destruct h as [[m st os wr pc] ins task cs]. destruct m.
  destruct d as [d1 d2 d3 d4 d5 d6 d7 d8 d9 d10].
  cbn [input_stream core output_stream input_is_active input_stop_stream
       output_is_active].
  split; [|split].
  - destruct ins as [u|], os as [u'|], d4 as [[|]|e4], d6 as [u6|e6],
      d7 as [u7|e7], d8 as [[|]|e8], d9 as [u9|e9]; vm_compute; reflexivity.
  - intros Hi Hc. destruct ins as [u|]; [|congruence].
    destruct Hc as [-> | (-> & u6 & ->)];
      destruct os as [u'|], d7 as [u7|e7], d8 as [[|]|e8], d9 as [u9|e9];
      cbv -[app In]; rewrite ?in_app_iff; cbn; tauto.
  - intros Ho [b ->]. destruct os as [u'|]; [|congruence].
    destruct ins as [u|], d4 as [[|]|e4], d6 as [u6|e6], d7 as [u7|e7], b,
      d9 as [u9|e9]; cbv -[app In]; rewrite ?in_app_iff; cbn; tauto.
Qed.


(** ** The sample streamer *)

Lemma studio_on_air : on_air (stream_manager (core studio)).
Proof.
  split; [vm_compute; discriminate|]. repeat split; vm_compute; reflexivity.
Defined.

Lemma on_the_air_on_air : on_air (stream_manager (core on_the_air)).
Proof.
  split; [vm_compute; discriminate|]. repeat split; vm_compute; reflexivity.
Defined.

Lemma stop_streaming_closes_the_session_witness :
  outcome (stop_streaming 2 sample_b64decode obliging [] on_the_air)
  = result_of (close (stream_manager (core on_the_air)))
  /\ is_active
       (stream_manager
          (core (after (stop_streaming 2 sample_b64decode obliging [] on_the_air))))
     = false.
Proof.
  destruct (stop_streaming_closes_the_session 2 sample_b64decode obliging []
              on_the_air) as (O & A & _).
  - vm_compute. reflexivity.
  - exists tt. reflexivity.
  - exact (conj O A).
Defined.

Lemma failed_terminate_leaves_the_session_open_witness :
  outcome (stop_streaming 2 sample_b64decode stuck_terminate [] on_the_air)
  = Raise (TransportError "PortAudio not initialized")
  /\ untouched (stream_manager (core on_the_air))
       (stream_manager
          (core (after (stop_streaming 2 sample_b64decode stuck_terminate []
                          on_the_air)))).
Proof.
  destruct (failed_terminate_leaves_the_session_open 2 sample_b64decode
              stuck_terminate [] on_the_air
              (TransportError "PortAudio not initialized")) as (O & U & _).
  - vm_compute. reflexivity.
  - reflexivity.
  - exact (conj O U).
Defined.

Lemma captured_audio_is_sent_in_order_witness :
  exists ws,
    map encode
      (map (AudioInput (prompt_name (cfg (stream_manager (core on_the_air))))
              (audio_content_name (cfg (stream_manager (core on_the_air)))))
         (captured [Captured [Byte.x01; Byte.x02]; Scheduled (Playback healthy);
                    Captured []; Captured [Byte.x03]]))
    = map Some ws
    /\ wire (stream_manager
               (core (stream_run 2 sample_b64decode
                        [Captured [Byte.x01; Byte.x02]; Scheduled (Playback healthy);
                         Captured []; Captured [Byte.x03]]
                        on_the_air)))
       = wire (stream_manager (core on_the_air))
         ++ outcomes ws (send_replies (env (stream_manager (core on_the_air))))
    /\ on_air (stream_manager
                 (core (stream_run 2 sample_b64decode
                          [Captured [Byte.x01; Byte.x02]; Scheduled (Playback healthy);
                           Captured []; Captured [Byte.x03]]
                          on_the_air))).
Proof.
  apply (captured_audio_is_sent_in_order 2 sample_b64decode
           [Captured [Byte.x01; Byte.x02]; Scheduled (Playback healthy);
            Captured []; Captured [Byte.x03]]
           on_the_air).
  - vm_compute. reflexivity.
  - exact on_the_air_on_air.
Defined.

Lemma streaming_session_on_the_wire_witness :
  exists ev ws,
    encode (ContentStartAudio (prompt_name (cfg (stream_manager (core studio))))
              (audio_content_name (cfg (stream_manager (core studio)))))
    = Some ev
    /\ map encode
         (map (AudioInput (prompt_name (cfg (stream_manager (core studio))))
                 (audio_content_name (cfg (stream_manager (core studio)))))
            (captured [Captured [Byte.x01; Byte.x02]; Captured [Byte.x03]]))
       = map Some ws
    /\ match terminate obliging with
       | Returns _ =>
           wire (stream_manager
                   (core (after (start_streaming 2 sample_b64decode obliging
                                   [Captured [Byte.x01; Byte.x02]; Captured [Byte.x03]]
                                   (Returns tt) obliging [] studio))))
           = wire (stream_manager (core studio))
             ++ outcomes (ev :: ws)
                  (send_replies (env (stream_manager (core studio))))
             ++ [match close_reply (env (stream_manager (core studio))) with
                 | None => InputClosed
                 | Some e => CloseFailed e
                 end]
           /\ is_active (stream_manager
                           (core (after (start_streaming 2 sample_b64decode obliging
                                           [Captured [Byte.x01; Byte.x02];
                                            Captured [Byte.x03]]
                                           (Returns tt) obliging [] studio))))
              = false
           /\ outcome (start_streaming 2 sample_b64decode obliging
                         [Captured [Byte.x01; Byte.x02]; Captured [Byte.x03]]
                         (Returns tt) obliging [] studio)
              = match close_reply (env (stream_manager (core studio))) with
                | None => Ret tt
                | Some e => Raise e
                end
       | Raises e =>
           wire (stream_manager
                   (core (after (start_streaming 2 sample_b64decode obliging
                                   [Captured [Byte.x01; Byte.x02]; Captured [Byte.x03]]
                                   (Returns tt) obliging [] studio))))
           = wire (stream_manager (core studio))
             ++ outcomes (ev :: ws)
                  (send_replies (env (stream_manager (core studio))))
           /\ is_active (stream_manager
                           (core (after (start_streaming 2 sample_b64decode obliging
                                           [Captured [Byte.x01; Byte.x02];
                                            Captured [Byte.x03]]
                                           (Returns tt) obliging [] studio))))
              = true
           /\ outcome (start_streaming 2 sample_b64decode obliging
                         [Captured [Byte.x01; Byte.x02]; Captured [Byte.x03]]
                         (Returns tt) obliging [] studio)
              = Raise e
       end.
Proof.
  apply (streaming_session_on_the_wire 2 sample_b64decode obliging obliging
           [Captured [Byte.x01; Byte.x02]; Captured [Byte.x03]] [] studio).
  - vm_compute. reflexivity.
  - exact studio_on_air.
  - vm_compute. exact I.
Defined.

Lemma failed_start_leaves_streaming_set_witness :
  outcome (start_streaming 2 sample_b64decode dead_microphone [] (Returns tt)
             obliging [] studio)
  = Raise (TransportError "Stream closed")
  /\ is_streaming
       (core (after (start_streaming 2 sample_b64decode dead_microphone []
                       (Returns tt) obliging [] studio)))
     = true
  /\ is_active
       (stream_manager
          (core (after (stop_streaming 2 sample_b64decode obliging []
                          (after (start_streaming 2 sample_b64decode
                                    dead_microphone [] (Returns tt) obliging []
                                    studio))))))
     = false.
Proof.
  apply (failed_start_leaves_streaming_set 2 sample_b64decode dead_microphone
           obliging obliging [] (Returns tt) [] [] studio
           (TransportError "Stream closed")).
  - vm_compute. reflexivity.
  - left. split; [vm_compute; discriminate|]. left. reflexivity.
  - exists tt. reflexivity.
Defined.

End StreamerFacts.
